(** * Bridgy: browser-extension handlers and handler utilities

    A shallow embedding of [browser.py], [util.py] and the sign-up
    handlers of [twitter.py], and the properties of their merge,
    authorization, endpoint, state-parameter, login-cookie, page-cache,
    remote-fetch, webmention-target and pruning code. *)

From Stdlib Require Import ZArith List String Ascii Bool Lia DecimalString.
From Stdlib Require Import Sorting.Sorted Sorting.Permutation.
From stdpp Require Import base option list gmap strings sorting.

Import ListNotations.
Local Open Scope string_scope.
Local Open Scope list_scope.

(** ** Python values shared by both files *)

Module Py.

(** [str < str] in Python compares code points left to right; on UTF-8
    bytes that is the bytewise lexicographic order of [String.compare]. *)
Definition str_lt (a b : string) : Prop := String.compare a b = Lt.

(** A Python [dict] with [str] keys: the association list of its items in
    insertion order.  Well-formed dicts have pairwise distinct keys. *)
Definition dict (V : Type) : Type := list (string * V).

Fixpoint dict_get {V} (k : string) (d : dict V) : option V :=
  match d with
  | [] => None
  | (k', v) :: d' => if String.eqb k k' then Some v else dict_get k d'
  end.

(** [d[k] = v]: an existing key keeps its position, a new key goes last. *)
Fixpoint dict_set {V} (k : string) (v : V) (d : dict V) : dict V :=
  match d with
  | [] => [(k, v)]
  | (k', v') :: d' =>
      if String.eqb k k' then (k, v) :: d' else (k', v') :: dict_set k v d'
  end.

(** [d.update(other)] *)
Definition dict_update {V} (d other : dict V) : dict V :=
  fold_left (fun acc kv => dict_set (fst kv) (snd kv) acc) other d.

Definition dict_keys {V} (d : dict V) : list string := map fst d.
Definition dict_values {V} (d : dict V) : list V := map snd d.

(** [sorted(l, key=...)] on items decorated with their keys.  Python's sort
    is stable; a stable sort is a function of its input, so insertion sort
    (each item goes before the first later item whose key is not smaller)
    computes the same list as Timsort. *)
Fixpoint insert_by_key {A} (x : string * A) (l : list (string * A)) : list (string * A) :=
  match l with
  | [] => [x]
  | y :: l' => if String.leb (fst x) (fst y) then x :: l else y :: insert_by_key x l'
  end.

Definition sort_by_key {A} (l : list (string * A)) : list (string * A) :=
  fold_right insert_by_key [] l.

(** [s.split(sep)] for a one-character separator. *)
Fixpoint split_on (sep : ascii) (s : string) : list string :=
  match s with
  | EmptyString => [EmptyString]
  | String c r =>
      if Ascii.eqb c sep then EmptyString :: split_on sep r
      else
        match split_on sep r with
        | [] => [String c EmptyString]
        | w :: ws => String c w :: ws
        end
  end.

(** [s.lstrip(c)], [s.rstrip(c)] and [s.strip(c)] for one character. *)
Fixpoint lstrip (c : ascii) (s : string) : string :=
  match s with
  | EmptyString => EmptyString
  | String x r => if Ascii.eqb x c then lstrip c r else s
  end.

Fixpoint rstrip (c : ascii) (s : string) : string :=
  match s with
  | EmptyString => EmptyString
  | String x r =>
      match rstrip c r with
      | EmptyString => if Ascii.eqb x c then EmptyString else String x EmptyString
      | r' => String x r'
      end
  end.

Definition strip (c : ascii) (s : string) : string := rstrip c (lstrip c s).

(** [sorted(strs)] *)
Definition sort_strings (l : list string) : list string :=
  map fst (sort_by_key (map (fun s => (s, tt)) l)).

End Py.


(** ** JSON values

    Activities, actors and state descriptors are JSON documents: what
    [json_loads] returns and [json_dumps] accepts. *)

Module Json.
Import Py.

#[local] Set Warnings "-register-all".
(** Numbers are integers; floats are left out. *)
Inductive json : Type :=
| JNull
| JBool (b : bool)
| JNum (n : Z)
| JStr (s : string)
| JArr (items : list json)
| JObj (fields : dict json).

(** [o.get(k)] on a value known to be a dict; [None] on a missing key. *)
Definition obj_get (k : string) (o : json) : option json :=
  match o with
  | JObj d => dict_get k d
  | _ => None
  end.

(** Python truthiness of a JSON value. *)
Definition truthy (v : json) : bool :=
  match v with
  | JNull => false
  | JBool b => b
  | JNum n => negb (Z.eqb n 0)
  | JStr s => negb (String.eqb s "")
  | JArr l => match l with [] => false | _ => true end
  | JObj d => match d with [] => false | _ => true end
  end.

(** [len(v)]; numbers, booleans and [None] have no length (TypeError). *)
Definition py_len (v : json) : option nat :=
  match v with
  | JStr s => Some (String.length s)
  | JArr l => Some (List.length l)
  | JObj d => Some (List.length d)
  | _ => None
  end.

(** *** JSON text

    The [json] module's output and input, as the sequence of lexical
    tokens of the text.  How a string or a number is spelled in bytes is
    the library's business and the same in both directions. *)
Inductive token : Type :=
| TLBrace | TRBrace | TLBracket | TRBracket | TComma | TColon
| TNull | TTrue | TFalse
| TNum (n : Z)
| TStr (s : string).

Fixpoint join_tokens (sep : token) (parts : list (list token)) : list token :=
  match parts with
  | [] => []
  | [p] => p
  | p :: ps => p ++ sep :: join_tokens sep ps
  end.

Definition member_tokens (m : string * list token) : list token :=
  TStr (fst m) :: TColon :: snd m.

(** [json.dumps(v, separators=(',', ':'), sort_keys=True)]: no blanks, the
    members of every object in ascending order of key. *)
Fixpoint dumps (v : json) : list token :=
  match v with
  | JNull => [TNull]
  | JBool b => [if b then TTrue else TFalse]
  | JNum n => [TNum n]
  | JStr s => [TStr s]
  | JArr l => TLBracket :: join_tokens TComma (map dumps l) ++ [TRBracket]
  | JObj d =>
      TLBrace ::
        join_tokens TComma
          (map member_tokens (sort_by_key (map (fun kv => (fst kv, dumps (snd kv))) d)))
        ++ [TRBrace]
  end.

(** [dict(pairs)]: a later pair with the same key replaces the earlier one. *)
Definition dict_of_pairs (pairs : list (string * json)) : dict json :=
  fold_left (fun d kv => dict_set (fst kv) (snd kv) d) pairs [].

(** [json.loads]: recursive descent over the tokens.  [n] bounds the depth
    of the calls; [loads] starts it with the number of tokens. *)
Fixpoint parse_value (n : nat) (ts : list token) {struct n}
  : option (json * list token) :=
  match n with
  | O => None
  | S n =>
      match ts with
      | TNull :: r => Some (JNull, r)
      | TTrue :: r => Some (JBool true, r)
      | TFalse :: r => Some (JBool false, r)
      | TNum z :: r => Some (JNum z, r)
      | TStr s :: r => Some (JStr s, r)
      | TLBracket :: TRBracket :: r => Some (JArr [], r)
      | TLBracket :: r =>
          match parse_items n r with
          | Some (items, r') => Some (JArr items, r')
          | None => None
          end
      | TLBrace :: TRBrace :: r => Some (JObj [], r)
      | TLBrace :: r =>
          match parse_members n r with
          | Some (pairs, r') => Some (JObj (dict_of_pairs pairs), r')
          | None => None
          end
      | _ => None
      end
  end
with parse_items (n : nat) (ts : list token) {struct n}
  : option (list json * list token) :=
  match n with
  | O => None
  | S n =>
      match parse_value n ts with
      | Some (v, TComma :: r) =>
          match parse_items n r with
          | Some (vs, r') => Some (v :: vs, r')
          | None => None
          end
      | Some (v, TRBracket :: r) => Some ([v], r)
      | _ => None
      end
  end
with parse_members (n : nat) (ts : list token) {struct n}
  : option (list (string * json) * list token) :=
  match n with
  | O => None
  | S n =>
      match ts with
      | TStr k :: TColon :: r =>
          match parse_value n r with
          | Some (v, TComma :: r') =>
              match parse_members n r' with
              | Some (ms, r'') => Some ((k, v) :: ms, r'')
              | None => None
              end
          | Some (v, TRBrace :: r') => Some ([(k, v)], r')
          | _ => None
          end
      | _ => None
      end
  end.

(** [json.loads(text)]; [None] is the ValueError on text that is no JSON. *)
Definition loads (ts : list token) : option json :=
  match parse_value (length ts) ts with
  | Some (v, []) => Some v
  | _ => None
  end.

(** The values [trim_nulls] removes: [None], [''], [[]] and [{}]. *)
Definition is_null (v : json) : bool :=
  match v with
  | JNull => true
  | JStr s => String.eqb s ""
  | JArr [] => true
  | JObj [] => true
  | _ => false
  end.

(** [trim_nulls] of oauth_dropins.webutil.util, which util.py imports:
    recursively removes dict and list elements with None or empty values,
    children first. *)
Fixpoint trim_nulls (v : json) : json :=
  match v with
  | JArr l => JArr (List.filter (fun x => negb (is_null x)) (map trim_nulls l))
  | JObj d =>
      JObj (List.filter (fun kv => negb (is_null (snd kv)))
              (map (fun kv => (fst kv, trim_nulls (snd kv))) d))
  | _ => v
  end.

(** A document whose dicts are dicts: no key twice in one object. *)
Fixpoint wf (v : json) : Prop :=
  match v with
  | JArr l => fold_right (fun x acc => wf x /\ acc) True l
  | JObj d =>
      NoDup (dict_keys d) /\ fold_right (fun kv acc => wf (snd kv) /\ acc) True d
  | _ => True
  end.

(** The document [loads] reads back from [dumps]: every object's members
    in ascending order of key. *)
Fixpoint canon (v : json) : json :=
  match v with
  | JArr l => JArr (map canon l)
  | JObj d => JObj (sort_by_key (map (fun kv => (fst kv, canon (snd kv))) d))
  | _ => v
  end.

(** A document with no null or empty element in any dict or list. *)
Fixpoint trimmed (v : json) : Prop :=
  match v with
  | JArr l => fold_right (fun x acc => (trimmed x /\ is_null x = false) /\ acc) True l
  | JObj d =>
      fold_right (fun kv acc => (trimmed (snd kv) /\ is_null (snd kv) = false) /\ acc)
        True d
  | _ => True
  end.

(** The tokens of one member of an object. *)
Definition member (kv : string * json) : list token :=
  TStr (fst kv) :: TColon :: dumps (snd kv).

(** A token a value can start with. *)
Definition value_start (t : token) : bool :=
  match t with
  | TRBrace | TRBracket | TComma | TColon => false
  | _ => true
  end.

(** [loads] reads [v] back from its text, whatever follows the text. *)
Definition reads_back (v : json) : Prop :=
  forall n rest, length (dumps v) <= n ->
    parse_value n (dumps v ++ rest) = Some (canon v, rest).

End Json.

(** ** Request handlers: what a webapp2 handler call can end in *)

Module Web.
Import Py Json.

(** The text of an error response, by its template and the values the
    template is filled with. *)
Inductive message : Type :=
| PrivateAccount (site_name : string)
| MissingParam (name : string)
| TokenNotAuthorized (token : string) (domains : gset string)
| TokenNotAuthorizedForSource (token : string) (domains : list string)
| NoKeyOrUsername
| NoAccountFound (site_name : string) (who : json)
| NoPostFound (site_name : string)
| MissingId.

(** A handler step returns, or ends the request with [self.abort(status,
    message)], or dies with an uncaught Python exception. *)
Inductive result (A : Type) : Type :=
| Ok (a : A)
| Abort (status : Z) (msg : message)
| Raise (exn : string).
Arguments Ok {A} a.
Arguments Abort {A} status msg.
Arguments Raise {A} exn.

#[global] Instance result_ret : MRet result := fun A a => Ok a.
#[global] Instance result_bind : MBind result := fun A B f r =>
  match r with
  | Ok a => f a
  | Abort s m => Abort s m
  | Raise e => Raise e
  end.

(** The HTTP status a handler call ends the request with, if it aborts. *)
Definition abort_status {A} (r : result A) : option Z :=
  match r with
  | Abort status _ => Some status
  | _ => None
  end.

(** [self.request.get(name)]: the empty string when the parameter is absent. *)
Record request : Type := {
  req_params : dict string;
  req_body : string
}.

Definition request_get (req : request) (name : string) : string :=
  default "" (dict_get name (req_params req)).

(** [util.get_required_param(handler, name)] (oauth_dropins.webutil). *)
Definition get_required_param (req : request) (name : string) : result string :=
  let val := request_get req name in
  if String.eqb val "" then Abort 400 (MissingParam name) else Ok val.

(** [v.get(k)] / [v.get(k, dflt)]: only dicts have [get]. *)
Definition py_get (k : string) (dflt : json) (v : json) : result json :=
  match v with
  | JObj d => Ok (default dflt (dict_get k d))
  | _ => Raise "AttributeError"
  end.

End Web.

(** ** browser.py *)

Module Browser.
Import Py Json Web.

(** [o['id']]: the id of an AS1 object.  Ids are strings (tag URIs);
    [None] stands for the KeyError on an object without an id, and objects
    whose id is not a string are left out of the model the same way. *)
Definition item_id (o : json) : option string :=
  match obj_get "id" o with
  | Some (JStr s) => Some s
  | _ => None
  end.

(** [{o['id']: o for o in os}], continuing from the dict built so far. *)
Fixpoint id_dict_from (acc : dict json) (os : list json) : option (dict json) :=
  match os with
  | [] => Some acc
  | o :: os' =>
      match item_id o with
      | Some k => id_dict_from (dict_set k o acc) os'
      | None => None
      end
  end.

Definition id_dict (os : list json) : option (dict json) := id_dict_from [] os.

(** The keys [sorted(..., key=itemgetter('id'))] computes before sorting. *)
Fixpoint decorate (vals : list json) : option (list (string * json)) :=
  match vals with
  | [] => Some []
  | o :: vals' =>
      match item_id o, decorate vals' with
      | Some k, Some r => Some ((k, o) :: r)
      | _, _ => None
      end
  end.

Definition sorted_by_id (vals : list json) : option (list json) :=
  match decorate vals with
  | Some kvs => Some (map snd (sort_by_key kvs))
  | None => None
  end.

(** [merge_by_id(existing, updates)], browser.py lines 23-37. *)
Definition merge_by_id (existing updates : list json) : option (list json) :=
  match id_dict existing with
  | Some objs =>
      match id_dict updates with
      | Some upd => sorted_by_id (dict_values (dict_update objs upd))
      | None => None
      end
  | None => None
  end.

(** The ids of a list of objects, in order. *)
Definition ids (os : list json) : list string := omap item_id os.

(** The last object of [os] whose id is [k]: the one a dict comprehension
    over [os] keeps under [k]. *)
Fixpoint last_with_id (k : string) (os : list json) : option json :=
  match os with
  | [] => None
  | o :: os' =>
      match last_with_id k os' with
      | Some o' => Some o'
      | None =>
          match item_id o with
          | Some k' => if String.eqb k k' then Some o else None
          | None => None
          end
      end
  end.

(** The first object of [os] whose id is [k]. *)
Fixpoint first_with_id (k : string) (os : list json) : option json :=
  match os with
  | [] => None
  | o :: os' =>
      match item_id o with
      | Some k' => if String.eqb k k' then Some o else first_with_id k os'
      | None => first_with_id k os'
      end
  end.

Definition has_id (o : json) : Prop := is_Some (item_id o).

(** Every value of the dict sits under its own id. *)
Definition keyed (d : dict json) : Prop :=
  Forall (fun kv => item_id (snd kv) = Some (fst kv)) d.

(** *** Datastore entities *)

(** A [models.Source] subclass: its granary class's [NAME] and [DOMAIN]. *)
Record source_class : Type := {
  GR_NAME : string;
  GR_DOMAIN : string
}.

(** A stored account ([BrowserSource]): key id, [url], [domains]. *)
Record Source : Type := {
  source_id : string;
  source_url : option string;
  source_domains : list string
}.

(** A stored [Activity]: the owning source's key and [activity_json]
    (kept as the document that [json_loads] gives back). *)
Record Activity : Type := {
  activity_source : option string;
  activity_json : json
}.

(** The datastore: the source class's entities in query order, [Domain]
    entities (key id to [tokens]) and [Activity] entities by key id. *)
Record Datastore : Type := {
  ds_sources : list Source;
  ds_domains : gmap string (list string);
  ds_activities : gmap string Activity
}.

Definition put_activity (id : string) (a : Activity) (ds : Datastore) : Datastore :=
  {| ds_sources := ds_sources ds;
     ds_domains := ds_domains ds;
     ds_activities := <[id := a]> (ds_activities ds) |}.

(** [src_cls.query(src_cls.url == url).get()]: the first match. *)
Definition source_by_url (ds : Datastore) (url : string) : option Source :=
  List.find (fun s => bool_decide (source_url s = Some url)) (ds_sources ds).

(** [src_cls.get_by_id(id)] *)
Definition source_by_id (ds : Datastore) (id : string) : option Source :=
  List.find (fun s => String.eqb (source_id s) id) (ds_sources ds).

(** [token in domain.tokens] for the [Domain] entity of key [d], if any:
    one round of the loop over [ndb.get_multi(...)]. *)
Definition domain_has_token (ds : Datastore) (token d : string) : bool :=
  match ds_domains ds !! d with
  | Some tokens => bool_decide (token ∈ tokens)
  | None => false
  end.

Section Handlers.

(** Library code the handlers call: granary's [Source.is_public] and
    [microformats2.object_urls], webutil's [domain_from_link], the scraper
    [scraped_to_activity] and granary's in-place [merge_by_id(dest, field,
    new)] (the value of [dest] after the call).  [load_source] is
    [util.load_source(handler, param='key')], not part of util.py here. *)
Variable is_public : json -> bool.
Variable object_urls : json -> list string.
Variable domain_from_link : string -> string.
Variable scraped_to_activity : string -> json * json.
Variable gr_merge_by_id : json -> string -> json -> result json.
Variable load_source : Datastore -> request -> result (option Source).

(** The domains [check_token_for_actor] checks the token against,
    browser.py lines 157-168. *)
Definition stored_domains (ds : Datastore) (actor : json) : result (list string) :=
  url ← py_get "url" JNull actor;
  if truthy url then
    match url with
    | JStr u =>
        match source_by_url ds u with
        | Some source => Ok (source_domains source)
        | None => Ok []
        end
    | _ => Raise "BadValueError"
    end
  else Ok [].

Definition candidate_domains (cls : source_class) (actor : json) (stored : list string)
  : gset string :=
  (list_to_set (map domain_from_link (object_urls actor)) ∪ list_to_set stored)
    ∖ {[GR_DOMAIN cls]}.

(** The candidates in the order the specification words them, for
    comparison with [candidate_domains]: the network's own domain is taken
    out of the profile links' domains first and the stored domains are
    added afterwards. *)
Definition candidate_domains_as_specified (cls : source_class) (actor : json)
    (stored : list string) : gset string :=
  (list_to_set (map domain_from_link (object_urls actor)) ∖ {[GR_DOMAIN cls]})
    ∪ list_to_set stored.

(** [BrowserHandler.check_token_for_actor], browser.py lines 146-175. *)
Definition check_token_for_actor (cls : source_class) (ds : Datastore)
    (req : request) (actor : json) : result unit :=
  if negb (is_public actor) then Abort 400 (PrivateAccount (GR_NAME cls))
  else
    token ← get_required_param req "token";
    stored ← stored_domains ds actor;
    let domains := candidate_domains cls actor stored in
    if existsb (domain_has_token ds token) (elements domains)
    then Ok tt
    else Abort 403 (TokenNotAuthorized token domains).

(** [BrowserHandler.auth], browser.py lines 177-219. *)
Definition auth (cls : source_class) (ds : Datastore) (req : request)
    (actor : json) (check_token : bool) : result Source :=
  let key := request_get req "key" in
  username ← (if String.eqb (request_get req "username") "" && truthy actor
              then py_get "username" JNull actor
              else Ok (JStr (request_get req "username")));
  source ← (if negb (String.eqb key "") then load_source ds req
            else if truthy username then
              match username with
              | JStr u => Ok (source_by_id ds u)
              | _ => Raise "BadValueError"
              end
            else Abort 400 NoKeyOrUsername);
  match source with
  | None =>
      Abort 404 (NoAccountFound (GR_NAME cls)
                   (if negb (String.eqb key "") then JStr key else username))
  | Some source =>
      if negb check_token then Ok source
      else
        token ← get_required_param req "token";
        if existsb (fun kv : string * list string =>
                      bool_decide (token ∈ snd kv)
                      && bool_decide (fst kv ∈ source_domains source))
             (map_to_list (ds_domains ds))
        then Ok source
        else Abort 403 (TokenNotAuthorizedForSource token (source_domains source))
  end.

(** [d.setdefault(k, {})] on a dict: the value under [k] afterwards. *)
Definition setdefault_obj (k : string) (d : dict json) : json :=
  default (JObj []) (dict_get k d).

(** [a.get('object', {}).get('replies', {}).get('items', [])] *)
Definition reply_items (a : json) : result json :=
  obj ← py_get "object" (JObj []) a;
  replies ← py_get "replies" (JObj []) obj;
  py_get "items" (JArr []) replies.

(** [a['object']['replies'].get('totalItems')], read the same way. *)
Definition reply_total (a : json) : result json :=
  obj ← py_get "object" (JObj []) a;
  replies ← py_get "replies" (JObj []) obj;
  py_get "totalItems" JNull replies.

(** The merge branch of [update_activity], browser.py lines 290-298: the
    merged activity that is stored. *)
Definition merge_activity (new_activity existing_activity : json) : result json :=
  match new_activity with
  | JObj top =>
      match setdefault_obj "object" top with
      | JObj obj =>
          let replies := setdefault_obj "replies" obj in
          existing_items ← reply_items existing_activity;
          replies ← gr_merge_by_id replies "items" existing_items;
          items ← py_get "items" (JArr []) replies;
          match replies, py_len items with
          | JObj r, Some n =>
              let replies := JObj (dict_set "totalItems" (JNum (Z.of_nat n)) r) in
              Ok (JObj (dict_set "object" (JObj (dict_set "replies" replies obj)) top))
          | _, _ => Raise "TypeError"
          end
      | _ => Raise "AttributeError"
      end
  | _ => Raise "AttributeError"
  end.

(** What a handler sends back: [self.output(obj)] writes [obj] as JSON. *)
Record response : Type := {
  resp_content_type : string;
  resp_body : json
}.

Definition output (obj : json) : response :=
  {| resp_content_type := "application/json"; resp_body := obj |}.

(** [update_activity], browser.py lines 281-306. *)
Definition update_activity (ds : Datastore) (source : Source) (new_activity : json)
  : result (Datastore * response) :=
  id ← py_get "id" JNull new_activity;
  if negb (truthy id) then Abort 400 MissingId
  else
    match id with
    | JStr id =>
        activity ←
          match ds_activities ds !! id with
          | Some activity =>
              merged_activity ← merge_activity new_activity (activity_json activity);
              Ok {| activity_source := activity_source activity;
                    activity_json := merged_activity |}
          | None =>
              Ok {| activity_source := Some (source_id source);
                    activity_json := new_activity |}
          end;
        Ok (put_activity id activity ds, output new_activity)
    | _ => Raise "BadValueError"
    end.

(** [PostHandler.post], browser.py lines 273-308. *)
Definition post (cls : source_class) (ds : Datastore) (req : request)
  : result (Datastore * response) :=
  let '(new_activity, actor) := scraped_to_activity (req_body req) in
  if negb (truthy new_activity) then Abort 400 (NoPostFound (GR_NAME cls))
  else
    source ← auth cls ds req actor true;
    update_activity ds source new_activity.

End Handlers.

(** Modelled from the spec: granary's in-place [merge_by_id], which
    [PostHandler.post] calls as [merge_by_id(replies, 'items', items)] and
    which is not among these sources; the handlers take it as a parameter.
    As the specification words the merge, the items passed in (in [post]
    the stored activity's) seed the map, the items that [dest] holds under
    [field] (in [post] the scraped activity's) overwrite them, and the
    result, ascending by id, is stored back under [field]: browser.py's
    own [merge_by_id] behind that interface. *)
Definition merge_into_field (dest : json) (field : string) (items : json) : result json :=
  match dest, items with
  | JObj d, JArr passed_items =>
      match default (JArr []) (dict_get field d) with
      | JArr dest_items =>
          match merge_by_id passed_items dest_items with
          | Some merged => Ok (JObj (dict_set field (JArr merged) d))
          | None => Raise "KeyError"
          end
      | _ => Raise "TypeError"
      end
  | _, _ => Raise "TypeError"
  end.

End Browser.

(** ** util.py *)

Module Util.
Import Py Json Web.

(** *** Time

    [datetime] values are microseconds since the epoch and [timedelta]
    values are microseconds, both unbounded integers. *)
Definition datetime : Type := Z.
Definition timedelta : Type := Z.
Definition timedelta_days (d : Z) : timedelta := (d * 86400000000)%Z.

(** *** CachedPage, util.py lines 517-555 *)

Record CachedPage : Type := {
  html : string;
  expires : option datetime
}.

(** [CachedPage.load(path)] at time [now]: what it returns and the
    datastore's CachedPage entities afterwards. *)
Definition load (now : datetime) (path : string) (pages : gmap string CachedPage)
  : option CachedPage * gmap string CachedPage :=
  match pages !! path with
  | Some cached =>
      match expires cached with
      | Some e =>
          if Z.ltb e now then (None, delete path pages) else (Some cached, pages)
      | None => (Some cached, pages)
      end
  | None => (None, pages)
  end.

(** [CachedPage.store(path, html, expires)] at time [now]. *)
Definition store (now : datetime) (path page_html : string) (ttl : option timedelta)
    (pages : gmap string CachedPage) : gmap string CachedPage :=
  let expires := match ttl with Some d => Some (now + d)%Z | None => None end in
  <[path := {| html := page_html; expires := expires |}]> pages.

(** [CachedPage.invalidate(path)] *)
Definition invalidate (path : string) (pages : gmap string CachedPage)
  : gmap string CachedPage :=
  delete path pages.

(** *** requests_get, util.py lines 137-163 *)

Definition URL_BLACKLIST : list string :=
  ["http://www.evdemon.org/2015/learning-more-about-quill"].
Definition MAX_HTTP_RESPONSE_SIZE : Z := 5000000.
Definition HTTP_REQUEST_REFUSED_STATUS_CODE : Z := 599.
Definition USER_AGENT_HEADER : dict string :=
  [("User-Agent", "Bridgy (https://brid.gy/about)")].

(** A response body is downloaded only when [content] or [text] is first
    read; [Streamed] is a body still on the wire, [Content] one in memory. *)
Inductive body : Type :=
| Streamed (remote : string)
| Content (text : string).

Record Response : Type := {
  status_code : Z;
  headers : dict string;
  content : body
}.

(** What goes over the network. *)
Inductive net_event : Type :=
| Requested (url : string) (req_headers : dict string) (timeout : Z)
| BodyRead.

(** [resp.content]: reading a streamed body downloads it. *)
Definition read_content (resp : Response) : string * list net_event :=
  match content resp with
  | Streamed remote => (remote, [BodyRead])
  | Content text => (text, [])
  end.

Definition ascii_lower (c : ascii) : ascii :=
  let n := N_of_ascii c in
  if (N.leb 65 n && N.leb n 90)%bool then ascii_of_N (n + 32) else c.

Fixpoint lower (s : string) : string :=
  match s with
  | EmptyString => EmptyString
  | String c r => String (ascii_lower c) (lower r)
  end.

(** [resp.headers.get(name)]: header names compare case-insensitively. *)
Fixpoint header_get (name : string) (hs : dict string) : option string :=
  match hs with
  | [] => None
  | (k, v) :: hs' =>
      if String.eqb (lower k) (lower name) then Some v else header_get name hs'
  end.

Definition is_space (c : ascii) : bool :=
  let n := N_of_ascii c in
  (N.eqb n 32 || (N.leb 9 n && N.leb n 13))%bool.

Fixpoint lstrip_space (s : string) : string :=
  match s with
  | EmptyString => EmptyString
  | String c r => if is_space c then lstrip_space r else s
  end.

Fixpoint rstrip_space (s : string) : string :=
  match s with
  | EmptyString => EmptyString
  | String c r =>
      match rstrip_space r with
      | EmptyString => if is_space c then EmptyString else String c EmptyString
      | r' => String c r'
      end
  end.

Definition digit_value (c : ascii) : option Z :=
  let n := N_of_ascii c in
  if (N.leb 48 n && N.leb n 57)%bool then Some (Z.of_N n - 48)%Z else None.

Fixpoint digits_value (acc : Z) (s : string) : option Z :=
  match s with
  | EmptyString => Some acc
  | String c r =>
      match digit_value c with
      | Some d => digits_value (10 * acc + d)%Z r
      | None => None
      end
  end.

(** [int(s)] for a string: blanks around an optional sign and one or more
    decimal digits; [None] is the ValueError. *)
Definition py_int (s : string) : option Z :=
  match rstrip_space (lstrip_space s) with
  | EmptyString => None
  | String "-" (String c r) => option_map Z.opp (digits_value 0 (String c r))
  | String "+" (String c r) => digits_value 0 (String c r)
  | String c r => digits_value 0 (String c r)
  end.

Section RequestsGet.

(** [appengine_config.HTTP_TIMEOUT] and the [requests] library's
    [get(url, stream=True, headers=..., timeout=...)], which returns once
    the status line and headers are in. *)
Variable HTTP_TIMEOUT : Z.
Variable requests_dot_get : string -> dict string -> Z -> Response.

Definition requests_get (url : string) (kw_headers : dict string) (kw_timeout : option Z)
  : Response * list net_event :=
  if bool_decide (url ∈ URL_BLACKLIST) then
    ({| status_code := HTTP_REQUEST_REFUSED_STATUS_CODE;
        headers := [];
        content := Content "Sorry, Bridgy has blacklisted this URL." |}, [])
  else
    let hs := dict_update kw_headers USER_AGENT_HEADER in
    let timeout := default HTTP_TIMEOUT kw_timeout in
    let resp := requests_dot_get url hs timeout in
    let length := default "0" (header_get "Content-Length" (headers resp)) in
    let resp :=
      match py_int length with
      | Some n =>
          if Z.ltb MAX_HTTP_RESPONSE_SIZE n then
            {| status_code := HTTP_REQUEST_REFUSED_STATUS_CODE;
               headers := headers resp;
               content := Content ("Content-Length " ++ length
                                   ++ " is larger than our limit 5000000.") |}
          else resp
      | None => resp
      end in
    (resp, [Requested url hs timeout]).

End RequestsGet.

(** *** The logins cookie, util.py lines 433-470 *)

(** [urllib.quote_plus] and [urllib.unquote_plus] on byte strings.  Text
    is held as its UTF-8 bytes throughout, so [encode('utf-8')] and
    [decode('utf-8')] do nothing to it. *)
Definition always_safe (c : ascii) : bool :=
  let n := N_of_ascii c in
  ((N.leb 48 n && N.leb n 57) || (N.leb 65 n && N.leb n 90)
   || (N.leb 97 n && N.leb n 122)
   || N.eqb n 95 || N.eqb n 46 || N.eqb n 45)%bool.

Definition hex_digit (n : N) : ascii :=
  if N.ltb n 10 then ascii_of_N (48 + n) else ascii_of_N (55 + n).

Definition hex_value (c : ascii) : option N :=
  let n := N_of_ascii c in
  if (N.leb 48 n && N.leb n 57)%bool then Some (n - 48)%N
  else if (N.leb 65 n && N.leb n 70)%bool then Some (n - 55)%N
  else if (N.leb 97 n && N.leb n 102)%bool then Some (n - 87)%N
  else None.

Fixpoint quote_plus (s : string) : string :=
  match s with
  | EmptyString => EmptyString
  | String c r =>
      if always_safe c then String c (quote_plus r)
      else if Ascii.eqb c " " then String "+" (quote_plus r)
      else
        let n := N_of_ascii c in
        String "%" (String (hex_digit (n / 16)) (String (hex_digit (n mod 16))
          (quote_plus r)))
  end.

(** [unquote]: a percent sign followed by two hex digits is one byte; any
    other percent sign stays. *)
Fixpoint unquote (s : string) : string :=
  match s with
  | EmptyString => EmptyString
  | String c r =>
      if Ascii.eqb c "%" then
        match r with
        | String a (String b r') =>
            match hex_value a, hex_value b with
            | Some x, Some y => String (ascii_of_N (16 * x + y)) (unquote r')
            | _, _ => String c (unquote r)
            end
        | _ => String c (unquote r)
        end
      else String c (unquote r)
  end.

Fixpoint plus_to_space (s : string) : string :=
  match s with
  | EmptyString => EmptyString
  | String c r => String (if Ascii.eqb c "+" then " "%char else c) (plus_to_space r)
  end.

Definition unquote_plus (s : string) : string := unquote (plus_to_space s).

(** [Login = namedtuple('Login', ('site', 'name', 'path'))] *)
Record Login : Type := {
  site : string;
  name : string;
  path : string
}.

#[global] Instance Login_eq_dec : EqDecision Login.
Proof. solve_decision. Defined.

(** One round of the loop in [get_logins]: the two tuple unpackings raise
    ValueError unless each split gives exactly two parts. *)
Definition parse_login (val : string) : result Login :=
  match split_on "?" val with
  | [path; name] =>
      match split_on "/" (strip "/" path) with
      | [site; _] => Ok {| site := site; name := name; path := path |}
      | _ => Raise "ValueError"
      end
  | _ => Raise "ValueError"
  end.

Fixpoint parse_logins (vals : list string) : result (list Login) :=
  match vals with
  | [] => Ok []
  | val :: vals' =>
      login ← parse_login val;
      logins ← parse_logins vals';
      Ok (login :: logins)
  end.

(** [Handler.get_logins], from the value of the request's [logins] cookie
    if it has one.  The loop runs over a [set]; [remove_dups] visits its
    members in one of the orders Python may choose. *)
Definition get_logins (cookie : option string) : result (list Login) :=
  match cookie with
  | None => Ok []
  | Some value =>
      if String.eqb value "" then Ok []
      else parse_logins (remove_dups (split_on "|" (unquote_plus value)))
  end.

(** The [Set-Cookie] header of a response: name, value, path, expiry. *)
Record SetCookie : Type := {
  cookie_name : string;
  cookie_value : string;
  cookie_path : string;
  cookie_expires : datetime
}.

Definition login_entry (login : Login) : string :=
  path login ++ "?" ++ quote_plus (name login).

Definition logins_value (logins : list Login) : string :=
  String.concat "|" (sort_strings (remove_dups (map login_entry logins))).

(** [Handler.set_logins] at time [now]: the header it sets. *)
Definition set_logins (now : datetime) (logins : list Login) : SetCookie :=
  {| cookie_name := "logins";
     cookie_value := logins_value logins;
     cookie_path := "/";
     cookie_expires := (now + timedelta_days (365 * 2))%Z |}.

(** The browser sends back, as the [logins] cookie of the next request,
    the value it was given. *)
Definition cookie_sent_back (c : SetCookie) : option string := Some (cookie_value c).

(** *** The state parameter, util.py lines 392-431 *)

Section StateParameter.

(** The lexical layer of the [json] module: how [dumps] spells a sequence
    of tokens as text and how [loads] reads text as tokens ([None] on text
    that is no sequence of JSON tokens). *)
Variable json_render : list token -> string.
Variable json_lex : string -> option (list token).

(** [Handler.encode_state_parameter] *)
Definition encode_state_parameter (obj : json) : string :=
  json_render (dumps (trim_nulls obj)).

(** [Handler.decode_state_parameter]: the dict, or [None] for JSON that is
    not a dict; text that is not JSON raises. *)
Definition decode_state_parameter (state : string) : result (option json) :=
  if String.eqb state "" then Ok (Some (JObj []))
  else
    match json_lex state with
    | Some ts =>
        match loads ts with
        | Some (JObj d) => Ok (Some (JObj d))
        | Some _ => Ok None
        | None => Raise "ValueError"
        end
    | None => Raise "ValueError"
    end.

(** *** Handler.redirect and maybe_add_or_delete_source, util.py lines 290-376 *)

(** What a request handler holds: [self.messages], the [logins] cookie of
    the request, and the redirect and [Set-Cookie] of the response. *)
Record handler : Type := {
  messages : list string;
  request_logins : option string;
  location : option string;
  set_cookie : option SetCookie
}.

(** [self.messages.add(msg)] *)
Definition add_message (msg : string) (h : handler) : handler :=
  {| messages := if bool_decide (msg ∈ messages h) then messages h
                 else messages h ++ [msg];
     request_logins := request_logins h;
     location := location h;
     set_cookie := set_cookie h |}.

Definition with_location (uri : string) (h : handler) : handler :=
  {| messages := messages h;
     request_logins := request_logins h;
     location := Some uri;
     set_cookie := set_cookie h |}.

Definition with_set_cookie (c : SetCookie) (h : handler) : handler :=
  {| messages := messages h;
     request_logins := request_logins h;
     location := location h;
     set_cookie := Some c |}.

(** The part of a URL before its first [#] and the part after it. *)
Fixpoint url_defrag (uri : string) : string :=
  match uri with
  | EmptyString => EmptyString
  | String c r => if Ascii.eqb c "#" then EmptyString else String c (url_defrag r)
  end.

Fixpoint url_fragment (uri : string) : string :=
  match uri with
  | EmptyString => EmptyString
  | String c r => if Ascii.eqb c "#" then r else url_fragment r
  end.

(** [urllib.quote(s)], which leaves [/] alone. *)
Fixpoint quote (s : string) : string :=
  match s with
  | EmptyString => EmptyString
  | String c r =>
      if (always_safe c || Ascii.eqb c "/")%bool then String c (quote r)
      else
        let n := N_of_ascii c in
        String "%" (String (hex_digit (n / 16)) (String (hex_digit (n mod 16)) (quote r)))
  end.

Definition newline : string := String (ascii_of_N 10) EmptyString.

(** [Handler.redirect(uri)]: the messages go into the fragment, unless the
    URL has one already.  [uri] is taken to be spelled as [urlunparse]
    spells it, so that parsing and unparsing leave the rest of it alone. *)
Definition redirect (uri : string) (h : handler) : handler :=
  match messages h with
  | [] => with_location uri h
  | _ :: _ =>
      if String.eqb (url_fragment uri) "" then
        with_location
          (url_defrag uri ++ "#!" ++ quote (String.concat newline (messages h))) h
      else with_location uri h
  end.

(** [webapp2.RequestHandler.redirect(uri)], called through [super]. *)
Definition super_redirect (uri : string) (h : handler) : handler :=
  with_location uri h.

(** Entities and library code of the sign-up flow that util.py only calls:
    the auth entity of oauth-dropins, the source entity of models.py with
    the attributes read here, the datastore's account side [accounts] that
    [create_new] reads and writes, [create_new] itself (it may add
    messages), the lookup [ndb.Key(urlsafe=...).get()], and
    [util.add_query_params]. *)
Variable auth_entity : Type.
Variable source : Type.
Variable accounts : Type.
Variable auth_key_urlsafe : auth_entity -> string.
Variable bridgy_path : source -> string.
Variable SHORT_NAME : source -> string.
Variable label_name : source -> string.
Variable bridgy_url : source -> string.
Variable key_urlsafe : source -> string.
Variable GR_CLASS_NAME : string.
Variable create_new :
  accounts -> list string -> auth_entity -> list string -> json ->
  accounts * list string * option source.
Variable get_by_urlsafe : accounts -> string -> option source.
Variable add_query_params : string -> list (string * string) -> string.

(** The datastore as this flow sees it: accounts and cached pages. *)
Record world : Type := {
  w_accounts : accounts;
  w_pages : gmap string CachedPage
}.

(** [state.split('-', 1)] has a second part: the text after the first [-]. *)
Fixpoint after_dash (state : string) : option string :=
  match state with
  | EmptyString => None
  | String c r => if Ascii.eqb c "-" then Some r else after_dash r
  end.

(** [Handler.redirect_home_or_user_page(state)] *)
Definition redirect_home_or_user_page (w : world) (state : string) (h : handler)
  : handler :=
  let redirect_to :=
    match after_dash state with
    | Some key =>
        match get_by_urlsafe (w_accounts w) key with
        | Some src => bridgy_url src
        | None => "/"
        end
    | None => "/"
    end in
  redirect redirect_to h.

(** A truthy [callback] is a URL, a string. *)
Definition callback_url (callback : json) : result string :=
  match callback with
  | JStr c => Ok c
  | _ => Raise "TypeError"
  end.

(** [feature.split(',') if feature else []] *)
Definition feature_list (feature : json) : result (list string) :=
  if truthy feature then
    match feature with
    | JStr f => Ok (split_on "," f)
    | _ => Raise "AttributeError"
    end
  else Ok [].

(** [Handler.maybe_add_or_delete_source(source_cls, auth_entity, state)] at
    time [now]: the datastore and the handler afterwards, and the source
    it returns. *)
Definition maybe_add_or_delete_source (now : datetime) (w : world) (h : handler)
    (auth : option auth_entity) (state : string)
  : result (world * handler * option source) :=
  state_obj ← decode_state_parameter state;
  match state_obj with
  | None => Raise "AttributeError"
  | Some state_obj =>
      operation ← py_get "operation" (JStr "add") state_obj;
      feature ← py_get "feature" JNull state_obj;
      callback ← py_get "callback" JNull state_obj;
      user_url ← py_get "user_url" JNull state_obj;
      match operation with
      | JStr "add" =>
          match auth with
          | None =>
              let h :=
                match messages h with
                | [] => add_message "OK, you're not signed up. Hope you reconsider!" h
                | _ :: _ => h
                end in
              if truthy callback then
                c ← callback_url callback;
                Ok (w, super_redirect (add_query_params c [("result", "declined")]) h,
                    None)
              else Ok (w, redirect "/" h, None)
          | Some auth =>
              let pages := invalidate "/users" (w_pages w) in
              features ← feature_list feature;
              let '(accts, msgs, src) :=
                create_new (w_accounts w) (messages h) auth features user_url in
              let w := {| w_accounts := accts; w_pages := pages |} in
              let h := {| messages := msgs;
                          request_logins := request_logins h;
                          location := location h;
                          set_cookie := set_cookie h |} in
              h ← match src with
                  | Some src =>
                      logins ← get_logins (request_logins h);
                      let login := {| site := SHORT_NAME src;
                                      name := label_name src;
                                      path := bridgy_path src |} in
                      Ok (with_set_cookie (set_logins now (logins ++ [login])) h)
                  | None => Ok h
                  end;
              if truthy callback then
                c ← callback_url callback;
                let params :=
                  match src with
                  | Some src => [("result", "success");
                                 ("user", bridgy_url src);
                                 ("key", key_urlsafe src)]
                  | None => [("result", "failure")]
                  end in
                Ok (w, super_redirect (add_query_params c params) h, src)
              else
                Ok (w, redirect (match src with
                                 | Some src => bridgy_url src
                                 | None => "/"
                                 end) h, src)
          end
      | _ =>
          match auth with
          | Some auth =>
              Ok (w, redirect ("/delete/finish?auth_entity=" ++ auth_key_urlsafe auth
                               ++ "&state=" ++ state) h, None)
          | None =>
              let h := add_message ("If you want to disable, please approve the "
                                    ++ GR_CLASS_NAME ++ " prompt.") h in
              Ok (w, redirect_home_or_user_page w state h, None)
          end
      end
  end.

End StateParameter.

Arguments Build_world {accounts} w_accounts w_pages.
Arguments w_accounts {accounts} w.
Arguments w_pages {accounts} w.
Arguments redirect_home_or_user_page {source accounts}.
Arguments maybe_add_or_delete_source json_lex {auth_entity source accounts}.

(** Every character of the string passes the test. *)
Fixpoint all_chars (p : ascii -> bool) (s : string) : bool :=
  match s with
  | EmptyString => true
  | String c r => p c && all_chars p r
  end.

Definition is_delimiter (c : ascii) : bool :=
  (Ascii.eqb c "|" || Ascii.eqb c "?")%bool.

Definition is_path_char (c : ascii) : bool :=
  negb (is_delimiter c || Ascii.eqb c "/" || Ascii.eqb c "%" || Ascii.eqb c "+").

(** A login whose path is [/site/key] for non-empty [site] and [key] free
    of the characters the cookie gives a meaning to, and whose name holds
    neither delimiter. *)
Definition plain_login (l : Login) : Prop :=
  exists key,
    path l = ("/" ++ site l ++ "/" ++ key)%string /\
    site l <> "" /\ key <> "" /\
    all_chars is_path_char (site l) = true /\
    all_chars is_path_char key = true /\
    all_chars (fun c => negb (is_delimiter c)) (name l) = true.

(** What an entry of the cookie reads as after unquoting. *)
Definition login_text (l : Login) : string := (path l ++ "?" ++ name l)%string.

End Util.

(** ** browser.py: the other endpoints *)

Module Endpoints.
Import Py Json Web Browser.

(** The error texts of these handlers, beside those of [message]. *)
Inductive notice : Type :=
| Said (m : message)
| NotTagUri (id : string)
| NoPostForId (site_name id : string)
| NoDomainsForToken (token : string).

(** How a handler step ends: it returns, or the request ends with
    [self.abort], or with an uncaught exception. *)
Inductive ending (A : Type) : Type :=
| Sent (a : A)
| Aborted (status : Z) (why : notice)
| Crashed (exn : string).
Arguments Sent {A} a.
Arguments Aborted {A} status why.
Arguments Crashed {A} exn.

Definition lift {A} (r : result A) : ending A :=
  match r with
  | Ok a => Sent a
  | Abort status m => Aborted status (Said m)
  | Raise exn => Crashed exn
  end.

(** A handler runs against the datastore and leaves it as it is by the
    time the request ends, however it ends. *)
Definition handler_m (A : Type) : Type := Datastore -> Datastore * ending A.

#[global] Instance handler_ret : MRet handler_m := fun A a ds => (ds, Sent a).
#[global] Instance handler_bind : MBind handler_m := fun A B f m ds =>
  match m ds with
  | (ds', Sent a) => f a ds'
  | (ds', Aborted status why) => (ds', Aborted status why)
  | (ds', Crashed exn) => (ds', Crashed exn)
  end.

(** A step that reads the datastore, and [self.abort(status, ...)]. *)
Definition reading {A} (f : Datastore -> result A) : handler_m A :=
  fun ds => (ds, lift (f ds)).
Definition abort {A} (status : Z) (why : notice) : handler_m A :=
  fun ds => (ds, Aborted status why).

(** [' '.join(o['id'] for o in objs)]: every [o['id']] is looked up
    before the strings are joined. *)
Definition subscript_id (o : json) : result json :=
  match o with
  | JObj d => match dict_get "id" d with Some v => Ok v | None => Raise "KeyError" end
  | _ => Raise "TypeError"
  end.

Fixpoint subscript_ids (objs : list json) : result (list json) :=
  match objs with
  | [] => Ok []
  | o :: objs' => v ← subscript_id o; vs ← subscript_ids objs'; Ok (v :: vs)
  end.

Fixpoint all_strings (vs : list json) : result (list string) :=
  match vs with
  | [] => Ok []
  | JStr s :: vs' => ss ← all_strings vs'; Ok (s :: ss)
  | _ :: _ => Raise "TypeError"
  end.

Definition join_ids (objs : list json) : result string :=
  vs ← subscript_ids objs; ss ← all_strings vs; Ok (String.concat " " ss).

(** The route paths of [routes(source_cls)], with the names of their
    handler classes, browser.py lines 366-378. *)
Definition routes (SHORT_NAME : string) : list (string * string) :=
  [("/" ++ SHORT_NAME ++ "/browser/homepage", "HomepageHandler");
   ("/" ++ SHORT_NAME ++ "/browser/profile", "ProfileHandler");
   ("/" ++ SHORT_NAME ++ "/browser/post", "PostHandler");
   ("/" ++ SHORT_NAME ++ "/browser/likes", "LikesHandler");
   ("/" ++ SHORT_NAME ++ "/browser/poll", "PollHandler");
   ("/" ++ SHORT_NAME ++ "/browser/token-domains", "TokenDomainsHandler")]%string.

(** [BrowserHandler.source_class]: [models.sources.get(...)] under the
    first segment of the request path. *)
Definition source_class_of {A} (sources : dict A) (path : string) : option A :=
  dict_get (hd "" (split_on "/" (strip "/" path))) sources.

(** [Domain.query(Domain.tokens == token)]: the key ids of the [Domain]
    entities that hold the token, in the order the query gives them. *)
Definition token_domains (ds : Datastore) (token : string) : list string :=
  map fst (List.filter (fun kv : string * list string => bool_decide (token ∈ snd kv))
             (map_to_list (ds_domains ds))).

(** [TokenDomainsHandler.post], browser.py lines 354-363. *)
Definition token_domains_post (req : request) : handler_m response :=
  token ← reading (fun _ => get_required_param req "token");
  domains ← reading (fun ds => Ok (token_domains ds token));
  match domains with
  | [] => abort 404 (NoDomainsForToken token)
  | _ :: _ => mret (output (JArr (map JStr domains)))
  end.

(** A task on a push queue. *)
Record task : Type := {
  queue_name : string;
  task_params : dict string
}.

Section Handlers.

Variable is_public : json -> bool.
Variable object_urls : json -> list string.
Variable domain_from_link : string -> string.
Variable load_source : Datastore -> request -> result (option Source).

(** Library and model code these handlers call: granary's
    [scraped_to_activities], [scraped_to_actor] and
    [merge_scraped_reactions] (the new likes, and the activity as it
    leaves it), webutil's [parse_tag_uri], [Source.create_new] of
    models.py (a handler step of its own), and for the poll task the
    account's key and its [last_polled] as [strftime] prints it. *)
Variable scraped_to_activities : string -> list json * json.
Variable scraped_to_actor : string -> json.
Variable merge_scraped_reactions : string -> json -> result (list json * json).
Variable parse_tag_uri : string -> option (string * string).
Variable create_new : json -> handler_m unit.
Variable key_urlsafe : Source -> string.
Variable last_polled_str : Source -> string.

(** [ProfileHandler.post], browser.py lines 249-263. *)
Definition profile_post (cls : source_class) (req : request) : handler_m response :=
  let '(activities, actor) := scraped_to_activities (req_body req) in
  let actor := if truthy actor then actor else scraped_to_actor (req_body req) in
  _ ← reading (fun ds =>
         check_token_for_actor is_public object_urls domain_from_link cls ds req actor);
  _ ← create_new actor;
  _ ← reading (fun _ => join_ids activities);
  mret (output (JArr activities)).

(** [obj = activity_data['object']] and
    [obj.get('author') or activity_data.get('actor')] *)
Definition author_or_actor (activity_data : json) : result json :=
  match activity_data with
  | JObj d =>
      match dict_get "object" d with
      | Some obj =>
          author ← py_get "author" JNull obj;
          if truthy author then Ok author else Ok (default JNull (dict_get "actor" d))
      | None => Raise "KeyError"
      end
  | _ => Raise "TypeError"
  end.

(** [LikesHandler.post], browser.py lines 318-343. *)
Definition likes_post (cls : source_class) (req : request) : handler_m response :=
  id ← reading (fun _ => get_required_param req "id");
  match parse_tag_uri id with
  | None => abort 400 (NotTagUri id)
  | Some _ =>
      found ← reading (fun ds => Ok (ds_activities ds !! id));
      match found with
      | None => abort 404 (NoPostForId (GR_NAME cls) id)
      | Some activity =>
          actor ← reading (fun _ => author_or_actor (activity_json activity));
          _ ← reading (fun ds =>
                 check_token_for_actor is_public object_urls domain_from_link
                   cls ds req actor);
          merged ← reading (fun _ =>
                      merge_scraped_reactions (req_body req) (activity_json activity));
          _ ← (fun ds =>
                 (put_activity id {| activity_source := activity_source activity;
                                     activity_json := snd merged |} ds, Sent tt));
          _ ← reading (fun _ => join_ids (fst merged));
          mret (output (JArr (fst merged)))
      end
  end.

(** [util.add_poll_task(source, now)], util.py lines 75-95: the task it
    adds. *)
Definition add_poll_task (source : Source) (now : bool) : task :=
  {| queue_name := if now then "poll-now" else "poll";
     task_params := [("source_key", key_urlsafe source);
                     ("last_polled", last_polled_str source)] |}.

(** [PollHandler.post], browser.py lines 346-351: how the request ends and
    the tasks it adds. *)
Definition poll_post (cls : source_class) (ds : Datastore) (req : request)
  : ending response * list task :=
  match lift (auth load_source cls ds req JNull false) with
  | Sent source => (Sent (output (JStr "OK")), [add_poll_task source false])
  | Aborted status why => (Aborted status why, [])
  | Crashed exn => (Crashed exn, [])
  end.

End Handlers.
End Endpoints.

(** ** util.py: webmention targets and pruning *)

Module Webmention.
Import Py Json Web Util.

(** [l[-2:]]: the last two elements, or all of a shorter list. *)
Definition last_two {A} (l : list A) : list A := skipn (length l - 2) l.

Definition LOCALHOST_TEST_DOMAINS : list string := ["kylewm.com"; "snarfed.org"].

(** [s.startswith(prefix)] *)
Definition startswith (prefix s : string) : bool := String.prefix prefix s.

(** Matching a pattern of literal characters and [.] (any character but a
    newline) at the start of a text: the rest of the text after the match. *)
Fixpoint match_chars (pat s : string) : option string :=
  match pat with
  | EmptyString => Some s
  | String p pat' =>
      match s with
      | EmptyString => None
      | String c s' =>
          if (if Ascii.eqb p "." then negb (Ascii.eqb c "010") else Ascii.eqb p c)
          then match_chars pat' s' else None
      end
  end.

(** The regular expression ['https?://' + test_domain] at the start of a
    text: with the optional [s] first, without it otherwise. *)
Definition match_test_domain (test_domain s : string) : option string :=
  match match_chars "http" s with
  | Some r =>
      let with_s := match r with
                    | String "s" r' => match_chars ("://" ++ test_domain) r'
                    | _ => None
                    end in
      match with_s with
      | Some rest => Some rest
      | None => match_chars ("://" ++ test_domain) r
      end
  | None => None
  end.

(** [re.sub('https?://' + test_domain, 'http://localhost', url)]: every
    match from left to right; [skip] counts the characters of a match
    that are still to be passed over. *)
Fixpoint sub_test_domain (test_domain : string) (skip : nat) (url : string) : string :=
  match url with
  | EmptyString => EmptyString
  | String c r =>
      match skip with
      | S k => sub_test_domain test_domain k r
      | O =>
          match match_test_domain test_domain url with
          | Some rest =>
              "http://localhost"
              ++ sub_test_domain test_domain
                   (String.length url - String.length rest - 1) r
          | None => String c (sub_test_domain test_domain 0 r)
          end
      end
  end.

Section Target.

(** [BLACKLIST], read from domain_blacklist.txt when the module loads, and
    [appengine_config.DEBUG]. *)
Variable BLACKLIST : gset string.
Variable DEBUG : bool.

(** Library code: webutil's [clean_url] and [domain_from_link] ([None]
    when it raises, or returns no domain so that [.lower()] raises), and
    granary's [follow_redirects], by the final URL and the headers of the
    response it returns. *)
Variable clean_url : string -> string.
Variable domain_from_link : string -> option string.
Variable follow_redirects : string -> string * dict string.

(** [in_webmention_blacklist(domain)], util.py lines 207-212: [True],
    [False], or the empty string for an empty domain. *)
Definition in_webmention_blacklist (domain : string) : json :=
  let domain := lower domain in
  if bool_decide (domain ∈ BLACKLIST) then JBool true
  else if String.eqb domain "" then JStr ""
  else JBool (bool_decide
                (String.concat "." (last_two (split_on "." domain)) ∈ BLACKLIST)).

(** [replace_test_domains_with_localhost(url)], util.py lines 262-275.
    The loop runs over a frozenset; the two substitutions do not touch
    each other's matches, so their order does not show. *)
Definition replace_test_domains_with_localhost (url : string) : string :=
  if (negb (String.eqb url "") && DEBUG)%bool then
    fold_left (fun u test_domain => sub_test_domain test_domain 0 u)
      LOCALHOST_TEST_DOMAINS url
  else url.

(** [send and domain and not in_webmention_blacklist(domain)] *)
Definition send_value (send : bool) (domain : option string) : json :=
  if negb send then JBool false
  else
    match domain with
    | None => JNull
    | Some d =>
        if String.eqb d "" then JStr ""
        else JBool (negb (truthy (in_webmention_blacklist d)))
    end.

(** What [get_webmention_target] returns, and the URLs it fetched. *)
Record target : Type := {
  target_url : string;
  target_domain : option string;
  target_send : json;
  fetched : list string
}.

(** [get_webmention_target(url, resolve=False)] *)
Definition get_webmention_target_unresolved (url : string) : target :=
  let url := clean_url url in
  match domain_from_link url with
  | None => {| target_url := url; target_domain := None;
               target_send := JBool false; fetched := [] |}
  | Some d =>
      let domain := lower d in
      {| target_url := replace_test_domains_with_localhost url;
         target_domain := Some domain;
         target_send := send_value true (Some domain);
         fetched := [] |}
  end.

(** [get_webmention_target(url, resolve)], util.py lines 175-204. *)
Definition get_webmention_target (url : string) (resolve : bool) : target :=
  if resolve then
    let url := clean_url url in
    match domain_from_link url with
    | None => {| target_url := url; target_domain := None;
                 target_send := JBool false; fetched := [] |}
    | Some _ =>
        let '(resolved_url, resolved_headers) := follow_redirects url in
        let send :=
          startswith "text/html"
            (default "" (header_get "content-type" resolved_headers)) in
        let inner := get_webmention_target_unresolved resolved_url in
        {| target_url := replace_test_domains_with_localhost (target_url inner);
           target_domain := target_domain inner;
           target_send := send_value send (target_domain inner);
           fetched := [url] |}
    end
  else get_webmention_target_unresolved url.

End Target.
End Webmention.

Module Prune.
Import Py Json Web Util.

(** [a == b] on JSON values: [True] and [False] equal 1 and 0, lists are
    equal item by item, dicts when they hold equal values under the same
    keys, in whatever order. *)
Fixpoint py_eq (a b : json) : bool :=
  match a, b with
  | JNull, JNull => true
  | JBool x, JBool y => Bool.eqb x y
  | JBool x, JNum n => Z.eqb n (if x then 1 else 0)
  | JNum n, JBool x => Z.eqb n (if x then 1 else 0)
  | JNum m, JNum n => Z.eqb m n
  | JStr s, JStr t => String.eqb s t
  | JArr l, JArr l' =>
      (fix items (l l' : list json) : bool :=
         match l, l' with
         | [], [] => true
         | x :: r, y :: r' => py_eq x y && items r r'
         | _, _ => false
         end) l l'
  | JObj d, JObj d' =>
      Nat.eqb (length d) (length d')
      && (fix fields (d : dict json) : bool :=
            match d with
            | [] => true
            | kv :: r =>
                match dict_get (fst kv) d' with
                | Some v' => py_eq (snd kv) v'
                | None => false
                end && fields r
            end) d
  | _, _ => false
  end.

(** [del d[k]] *)
Definition dict_del {V} (k : string) (d : dict V) : dict V :=
  List.filter (fun kv => negb (String.eqb (fst kv) k)) d.

(** The fields [prune_activity] keeps and those [prune_response] drops. *)
Definition KEEP : list string :=
  ["id"; "url"; "content"; "fb_id"; "fb_object_id"; "fb_object_type"].


(** [obj = d.get('object')] followed by [if obj: ... prune(obj)]: the
    pruned object, or [None] when [d] has no truthy object. *)
Definition on_object {A} (prune : json -> result A) : dict json -> result (option A) :=
  fix walk (l : dict json) : result (option A) :=
    match l with
    | [] => Ok None
    | kv :: l' =>
        if String.eqb "object" (fst kv) then
          if truthy (snd kv) then a ← prune (snd kv); Ok (Some a) else Ok None
        else walk l'
    end.

(** One round of the loop of [prune_activity] over [obj.items()]: a field
    of the pruned object goes when [pruned] holds an equal value under
    the same key.  [pruned['object']] is the object itself, as it is by
    then. *)
Definition duplicate_step (pruned cur : dict json) (kv : string * json) : dict json :=
  let held := if String.eqb (fst kv) "object" then JObj cur
              else default JNull (dict_get (fst kv) pruned) in
  if py_eq held (snd kv) then dict_del (fst kv) cur else cur.

Definition drop_duplicates (pruned obj : dict json) : dict json :=
  fold_left (duplicate_step pruned) obj obj.

Section Pruning.

(** granary's [Source.is_public], by the truth of what it returns. *)
Variable is_public : json -> bool.

(** [prune_activity(activity)], util.py lines 215-243. *)
Fixpoint prune_activity (activity : json) : result json :=
  match activity with
  | JObj d =>
      let keep := if is_public activity then KEEP else KEEP ++ ["to"] in
      let pruned := map (fun f => (f, default JNull (dict_get f d))) keep in
      obj ← on_object prune_activity d;
      match obj with
      | None => Ok (trim_nulls (JObj pruned))
      | Some (JObj o) =>
          Ok (trim_nulls
                (JObj (dict_set "object" (JObj (drop_duplicates pruned o)) pruned)))
      | Some _ => Raise "AttributeError"
      end
  | _ => Raise "AttributeError"
  end.


End Pruning.

(** A dict whose truthy [object], if it has one, is such a dict again. *)
Inductive object_chain : json -> Prop :=
| object_chain_dict d :
    (forall o, dict_get "object" d = Some o -> truthy o = true -> object_chain o) ->
    object_chain (JObj d).


(** A dict with the kept fields, [to] and [object] only, in itself and in
    the objects nested under [object]. *)
Inductive activity_pruned : json -> Prop :=
| activity_pruned_dict d :
    (forall k v, dict_get k d = Some v -> k ∈ KEEP ++ ["to"; "object"]) ->
    (forall o, dict_get "object" d = Some o -> activity_pruned o) ->
    activity_pruned (JObj d).

End Prune.

(** ** util.py and twitter.py: starting a sign-up *)

Module Flow.
Import Py Json Web Util.

(** The characters [urllib.quote] writes. *)
Definition fragment_char (c : ascii) : bool :=
  (always_safe c || Ascii.eqb c "/" || Ascii.eqb c "%")%bool.

Section StateParam.

Variable json_render : list token -> string.
Variable json_lex : string -> option (list token).

(** The descriptor a sign-up starts from when no state is passed in: the
    request's [callback], [feature], [id] and [user_url], and the
    operation [add]. *)
Definition state_from_request (req : request) : dict json :=
  dict_set "operation" (JStr "add")
    (map (fun field => (field, JStr (request_get req field)))
       ["callback"; "feature"; "id"; "user_url"]).

(** [Handler.construct_state_param_for_add(state, **kwargs)], util.py
    lines 378-390; [state] is [None] by default. *)
Definition construct_state_param_for_add (req : request) (state : option string)
    (kwargs : dict json) : result string :=
  state_obj ← decode_state_parameter json_lex (default "" state);
  let state_obj :=
    match state_obj with
    | Some (JObj (kv :: d)) => kv :: d
    | _ => state_from_request req
    end in
  let state_obj :=
    match kwargs with
    | [] => state_obj
    | _ :: _ => dict_update state_obj kwargs
    end in
  Ok (encode_state_parameter json_render (JObj state_obj)).

End StateParam.

(** [l.remove(x)]: the first [x] goes; [None] is the ValueError. *)
Fixpoint list_remove (x : string) (l : list string) : option (list string) :=
  match l with
  | [] => None
  | y :: l' =>
      if String.eqb y x then Some l'
      else match list_remove x l' with
           | Some r => Some (y :: r)
           | None => None
           end
  end.

End Flow.

Module TwitterFlow.
Import Py Json Web Util Flow.

(** What [start_oauth_flow] hands to oauth-dropins: the start handler made
    by [util.oauth_starter(..., feature=feature)], bound to the callback
    path and the access type. *)
Record started_flow : Type := {
  callback_path : string;
  access_type : string;
  starter_kwargs : dict json
}.

Section Twitter.

(** [models.Source.FEATURES] *)
Variable FEATURES : list string.

(** [AuthHandler.start_oauth_flow(feature)], twitter.py lines 91-106. *)
Definition start_oauth_flow (feature : string) : result started_flow :=
  let features := if String.eqb feature "" then [] else split_on "," feature in
  if forallb (fun f => bool_decide (f ∈ FEATURES)) features then
    Ok {| callback_path := "/twitter/add";
          access_type := if bool_decide ("publish" ∈ features) then "write" else "read";
          starter_kwargs := [("feature", JStr feature)] |}
  else Raise "AssertionError".

(** [StartHandler.post], twitter.py lines 133-134. *)
Definition start_post (req : request) : result started_flow :=
  feature ← get_required_param req "feature";
  start_oauth_flow feature.

Variable json_lex : string -> option (list token).

(** The sign-up flow's entities and library code, as for
    [maybe_add_or_delete_source], and the account's [features] with
    [source.put()] after a change to them. *)
Variable auth_entity : Type.
Variable source : Type.
Variable accounts : Type.
Variable auth_key_urlsafe : auth_entity -> string.
Variable bridgy_path : source -> string.
Variable SHORT_NAME : source -> string.
Variable label_name : source -> string.
Variable bridgy_url : source -> string.
Variable key_urlsafe : source -> string.
Variable GR_CLASS_NAME : string.
Variable create_new :
  accounts -> list string -> auth_entity -> list string -> json ->
  accounts * list string * option source.
Variable get_by_urlsafe : accounts -> string -> option source.
Variable add_query_params : string -> list (string * string) -> string.
Variable features : source -> list string.
Variable put_with_features : accounts -> source -> list string -> accounts.

(** [AddTwitter.finish(auth_entity, state)], twitter.py lines 110-122:
    the datastore and the handler afterwards, and the flow it starts
    again, if it does. *)
Definition finish (now : datetime) (w : world accounts) (h : handler)
    (auth : option auth_entity) (state : string)
  : result (world accounts * handler * option started_flow) :=
  added ← maybe_add_or_delete_source json_lex auth_key_urlsafe bridgy_path SHORT_NAME
             label_name bridgy_url key_urlsafe GR_CLASS_NAME create_new get_by_urlsafe
             add_query_params now w h auth state;
  let '(w, h, src) := added in
  state_obj ← decode_state_parameter json_lex state;
  match state_obj with
  | None => Raise "AttributeError"
  | Some state_obj =>
      feature ← py_get "feature" JNull state_obj;
      match src, feature with
      | Some src, JStr "listen" =>
          match list_remove "publish" (features src) with
          | Some rest =>
              let w := {| w_accounts := put_with_features (w_accounts w) src rest;
                          w_pages := w_pages w |} in
              flow ← start_oauth_flow "publish";
              Ok (w, h, Some flow)
          | None => Ok (w, h, None)
          end
      | _, _ => Ok (w, h, None)
      end
  end.

End Twitter.

Arguments finish FEATURES json_lex {auth_entity source accounts}.

End TwitterFlow.

(** ** Example data

    Documents, entities and a lexical layer for plain ASCII JSON text, to
    run the definitions above on. *)

Module Samples.
Import Py Json Web Browser Util.

Definition dquote : ascii := ascii_of_N 34.
Definition backslash : ascii := ascii_of_N 92.

Fixpoint escape (s : string) : string :=
  match s with
  | EmptyString => EmptyString
  | String c r =>
      if (Ascii.eqb c dquote || Ascii.eqb c backslash)%bool
      then String backslash (String c (escape r))
      else String c (escape r)
  end.

Definition render_token (t : token) : string :=
  match t with
  | TLBrace => "{" | TRBrace => "}" | TLBracket => "[" | TRBracket => "]"
  | TComma => "," | TColon => ":"
  | TNull => "null" | TTrue => "true" | TFalse => "false"
  | TNum n => NilZero.string_of_int (Z.to_int n)
  | TStr s => String dquote (escape s) ++ String dquote EmptyString
  end.

Definition ascii_render (ts : list token) : string :=
  String.concat "" (map render_token ts).

(** The text of a string token up to its closing quote, and the rest. *)
Fixpoint lex_string (s : string) : option (string * string) :=
  match s with
  | EmptyString => None
  | String c r =>
      if Ascii.eqb c dquote then Some (EmptyString, r)
      else if Ascii.eqb c backslash then
        match r with
        | String c' r' =>
            match lex_string r' with
            | Some (str, rest) => Some (String c' str, rest)
            | None => None
            end
        | EmptyString => None
        end
      else
        match lex_string r with
        | Some (str, rest) => Some (String c str, rest)
        | None => None
        end
  end.

Definition is_num_char (c : ascii) : bool :=
  (Ascii.eqb c "-" || match digit_value c with Some _ => true | None => false end)%bool.

Fixpoint span_num (s : string) : string * string :=
  match s with
  | EmptyString => (EmptyString, EmptyString)
  | String c r =>
      if is_num_char c then let '(ds, rest) := span_num r in (String c ds, rest)
      else (EmptyString, s)
  end.

Fixpoint lex_tokens (n : nat) (s : string) : option (list token) :=
  match n with
  | O => None
  | S n =>
      match s with
      | EmptyString => Some []
      | String c r =>
          if Ascii.eqb c "{" then cons TLBrace <$> lex_tokens n r
          else if Ascii.eqb c "}" then cons TRBrace <$> lex_tokens n r
          else if Ascii.eqb c "[" then cons TLBracket <$> lex_tokens n r
          else if Ascii.eqb c "]" then cons TRBracket <$> lex_tokens n r
          else if Ascii.eqb c "," then cons TComma <$> lex_tokens n r
          else if Ascii.eqb c ":" then cons TColon <$> lex_tokens n r
          else if Ascii.eqb c dquote then
            match lex_string r with
            | Some (str, rest) => cons (TStr str) <$> lex_tokens n rest
            | None => None
            end
          else if is_num_char c then
            let '(ds, rest) := span_num s in
            match NilZero.int_of_string ds with
            | Some i => cons (TNum (Z.of_int i)) <$> lex_tokens n rest
            | None => None
            end
          else if String.prefix "null" s then
            cons TNull <$> lex_tokens n (String.substring 4 (String.length s - 4) s)
          else if String.prefix "true" s then
            cons TTrue <$> lex_tokens n (String.substring 4 (String.length s - 4) s)
          else if String.prefix "false" s then
            cons TFalse <$> lex_tokens n (String.substring 5 (String.length s - 5) s)
          else None
      end
  end.

Definition ascii_lex (s : string) : option (list token) :=
  lex_tokens (S (String.length s)) s.

(** An AS1 object with an id and a content. *)
Definition reply (id content : string) : json :=
  JObj [("id", JStr id); ("content", JStr content)].

(** An activity with the given reply items. *)
Definition activity_with (id : string) (items : list json) : json :=
  JObj [("id", JStr id);
        ("object", JObj [("replies", JObj [("items", JArr items)])])].

(** Library behaviour to run the handlers with: an actor is private when
    its audience is the one alias [@private]; its profile URLs are the
    values of [urls]; a link's domain is its lower-cased host. *)
Definition sample_is_public (actor : json) : bool :=
  match obj_get "to" actor with
  | Some (JArr [JObj to]) =>
      match dict_get "alias" to with
      | Some (JStr a) => negb (String.eqb a "@private")
      | _ => true
      end
  | _ => true
  end.

Definition sample_object_urls (actor : json) : list string :=
  match obj_get "urls" actor with
  | Some (JArr l) =>
      omap (fun u => match obj_get "value" u with
                     | Some (JStr v) => Some v
                     | _ => None
                     end) l
  | _ => []
  end.

Fixpoint until_slash (s : string) : string :=
  match s with
  | EmptyString => EmptyString
  | String c r => if Ascii.eqb c "/" then EmptyString else String c (until_slash r)
  end.

Definition sample_domain_from_link (u : string) : string :=
  let rest :=
    if String.prefix "https://" u then String.substring 8 (String.length u - 8) u
    else if String.prefix "http://" u then String.substring 7 (String.length u - 7) u
    else u in
  lower (until_slash rest).

Definition sample_add_query_params (url : string) (params : list (string * string))
  : string :=
  (url ++ "?"
   ++ String.concat "&" (map (fun kv : string * string => fst kv ++ "=" ++ snd kv) params))%string.

Definition instagram : source_class :=
  {| GR_NAME := "Instagram"; GR_DOMAIN := "instagram.com" |}.

Definition public_actor : json :=
  JObj [("username", JStr "jc");
        ("url", JStr "https://www.instagram.com/jc/");
        ("urls", JArr [JObj [("value", JStr "https://Other.com/jc")];
                       JObj [("value", JStr "https://instagram.com/jc")]])].

Definition private_actor : json :=
  JObj [("username", JStr "jc");
        ("to", JArr [JObj [("objectType", JStr "group"); ("alias", JStr "@private")]])].

Definition post_id : string := "tag:instagram.com,2013:123".

Definition stored_activity : json := activity_with post_id [reply "1" "a"].
Definition scraped_activity : json := activity_with post_id [reply "2" "b"].

Definition merged_activity : json :=
  JObj [("id", JStr post_id);
        ("object",
         JObj [("replies",
                JObj [("items", JArr [reply "1" "a"; reply "2" "b"]);
                      ("totalItems", JNum 2)])])].

Definition sample_datastore : Datastore :=
  {| ds_sources := [{| source_id := "jc";
                       source_url := Some "https://www.instagram.com/jc/";
                       source_domains := ["example.com"] |}];
     ds_domains := {[ "example.com" := ["tok"] ]};
     ds_activities := {[ post_id := {| activity_source := Some "jc";
                                       activity_json := stored_activity |} ]} |}.

(** The same datastore before any post was stored. *)
Definition empty_datastore : Datastore :=
  {| ds_sources := ds_sources sample_datastore;
     ds_domains := ds_domains sample_datastore;
     ds_activities := ∅ |}.

(** A datastore whose account lists the network's own domain among its
    domains, with a Domain entity of that name that holds the token; not
    one that sign-up produces. *)
Definition own_domain_datastore : Datastore :=
  {| ds_sources := [{| source_id := "jc";
                       source_url := Some "https://www.instagram.com/jc/";
                       source_domains := ["instagram.com"] |}];
     ds_domains := {[ "instagram.com" := ["tok"] ]};
     ds_activities := ∅ |}.

Definition sample_request : request :=
  {| req_params := [("username", "jc"); ("token", "tok")];
     req_body := "<html></html>" |}.

Definition sample_scrape (_ : string) : json * json := (scraped_activity, public_actor).
Definition sample_load_source (_ : Datastore) (_ : request) : result (option Source) :=
  Ok None.

(** Replies that are not in ascending order of id. *)
Definition unsorted_replies : list json := [reply "2" "b"; reply "1" "a"].

(** A state descriptor with an empty field, and one with a callback. *)
Definition descriptor_with_empty_field : dict json :=
  [("operation", JStr "add"); ("note", JStr "")].

Definition descriptor_with_callback : dict json :=
  [("operation", JStr "add"); ("feature", JStr "listen");
   ("callback", JStr "http://example.com/done"); ("colour", JStr "green")].

Definition fresh_handler : handler :=
  {| messages := []; request_logins := None; location := None; set_cookie := None |}.

(** Two accounts signed in, one of them twice. *)
Definition sample_logins : list Login :=
  [{| site := "twitter"; name := "Ryan B"; path := "/twitter/snarfed" |};
   {| site := "facebook"; name := "50% off / more"; path := "/facebook/212038" |};
   {| site := "twitter"; name := "Ryan B"; path := "/twitter/snarfed" |}].

(** A server that announces six million bytes. *)
Definition big_response (_ : string) (_ : dict string) (_ : Z) : Response :=
  {| status_code := 200;
     headers := [("content-length", "6000000")];
     content := Streamed "..." |}.

End Samples.

(** ** More example data

    Library behaviour, requests and entities for the other endpoints, the
    webmention and pruning helpers and the sign-up flow. *)

Module MoreSamples.
Import Py Json Web Browser Util Samples Endpoints Webmention Prune Flow TwitterFlow.

(** A server that announces twelve hundred bytes. *)
Definition small_response (_ : string) (_ : dict string) (_ : Z) : Response :=
  {| status_code := 200;
     headers := [("Content-Length", "1200")];
     content := Streamed "..." |}.

Definition sample_blacklist : gset string := {[ "facebook.com" ]}.


(** An activity whose object repeats its id and content. *)
Definition sample_activity : json :=
  JObj [("id", JStr "1"); ("url", JStr "u"); ("content", JStr "hi");
        ("verb", JStr "post");
        ("object", JObj [("id", JStr "1"); ("url", JStr "v"); ("content", JStr "hi");
                         ("replies", JObj [])])].

(** The browser sources registered under their short names. *)
Definition sample_sources : dict source_class := [("instagram", instagram)].

(** A profile page of a private account, and one of a public account. *)
Definition private_profile (_ : string) : list json * json :=
  ([scraped_activity], private_actor).
Definition public_profile (_ : string) : list json * json :=
  ([scraped_activity], public_actor).
Definition no_actor (_ : string) : json := JNull.

(** [create_new] that stores nothing new. *)
Definition sample_create_new (_ : json) : handler_m unit := fun ds => (ds, Sent tt).

(** Tag URIs, read the crude way: everything after [tag:] up to the last
    colon is the domain part. *)
Definition sample_parse_tag_uri (id : string) : option (string * string) :=
  if String.prefix "tag:" id then
    match rev (split_on ":" id) with
    | name :: domain :: _ => Some (domain, name)
    | _ => None
    end
  else None.

Definition sample_merge_reactions (_ : string) (activity : json)
  : result (list json * json) :=
  Ok ([], activity).

Definition likes_request : request :=
  {| req_params := [("id", "tag:instagram.com,2013:999"); ("token", "tok")];
     req_body := "{}" |}.

Definition poll_request : request :=
  {| req_params := [("username", "jc")]; req_body := "" |}.

Definition jc : Source :=
  {| source_id := "jc";
     source_url := Some "https://www.instagram.com/jc/";
     source_domains := ["example.com"] |}.

(** A sign-up request with a callback, and the state of a sign-up for
    [listen]. *)
Definition signup_request : request :=
  {| req_params := [("feature", "listen"); ("callback", "http://example.com/done")];
     req_body := "" |}.

Definition listen_state : string :=
  encode_state_parameter ascii_render
    (JObj [("feature", JStr "listen"); ("operation", JStr "add")]).

Definition delete_state : string :=
  encode_state_parameter ascii_render
    (JObj [("feature", JStr "listen"); ("operation", JStr "delete")]).

(** Accounts named by their user names; [create_new] finds the account
    [snarfed], which has both features. *)
Definition sample_create (accts : list string) (msgs : list string) (_ : unit)
    (_ : list string) (_ : json) : list string * list string * option string :=
  (accts, msgs, Some "snarfed").

Definition sample_features (_ : string) : list string := ["listen"; "publish"].

Definition sample_put (accts : list string) (src : string) (_ : list string)
  : list string :=
  src :: accts.

Definition sample_path (src : string) : string := ("/twitter/" ++ src)%string.

Definition sample_url (src : string) : string := ("https://brid.gy/twitter/" ++ src)%string.

Definition sample_world : world (list string) :=
  {| w_accounts := []; w_pages := ∅ |}.

End MoreSamples.

(** * Properties *)

(** ** Strings, dicts and sorting *)

Module PyFacts.
Import Py.

Lemma ascii_compare_trans a b c :
  Ascii.compare a b = Lt -> Ascii.compare b c = Lt -> Ascii.compare a c = Lt.
Proof.
  unfold Ascii.compare. rewrite !N.compare_lt_iff. lia.
Qed.

Lemma str_lt_trans a b c : str_lt a b -> str_lt b c -> str_lt a c.
Proof.
  unfold str_lt. revert b c.
  induction a as [|x a IH]; intros [|y b] [|z c]; simpl; try congruence.
  destruct (Ascii.compare x y) eqn:Hxy; try discriminate.
  - apply Ascii.compare_eq_iff in Hxy; subst y.
    destruct (Ascii.compare x z) eqn:Hxz; try congruence. apply IH.
  - destruct (Ascii.compare y z) eqn:Hyz; try discriminate; intros _ _.
    + apply Ascii.compare_eq_iff in Hyz; subst z. now rewrite Hxy.
    + now rewrite (ascii_compare_trans _ _ _ Hxy Hyz).
Qed.

Lemma str_compare_refl a : String.compare a a = Eq.
Proof.
  induction a as [|x a IH]; simpl; [reflexivity|].
  unfold Ascii.compare. now rewrite N.compare_refl.
Qed.

Lemma str_lt_irrefl a : ~ str_lt a a.
Proof. unfold str_lt. now rewrite str_compare_refl. Qed.

Lemma leb_false_lt a b : String.leb a b = false -> str_lt b a.
Proof.
  unfold String.leb, str_lt. rewrite (String.compare_antisym b a).
  destruct (String.compare a b); simpl; congruence.
Qed.

Lemma lt_leb a b : str_lt a b -> String.leb a b = true.
Proof. unfold String.leb, str_lt. now intros ->. Qed.

End PyFacts.

Module DictFacts.
Import Py PyFacts.

Section Dict.
Context {V : Type}.
Implicit Types (d : dict V) (k : string) (v : V).

Lemma dict_get_set k k' v d :
  dict_get k (dict_set k' v d) = if String.eqb k k' then Some v else dict_get k d.
Proof.
  induction d as [|[k0 v0] d IH]; simpl; [reflexivity|].
  destruct (String.eqb k' k0) eqn:E; simpl.
  - apply String.eqb_eq in E; subst k0. now destruct (String.eqb k k').
  - rewrite IH. destruct (String.eqb k k0) eqn:E2; [|reflexivity].
    apply String.eqb_eq in E2; subst k0.
    now rewrite String.eqb_sym, E.
Qed.

Lemma dict_get_None k d : dict_get k d = None <-> k ∉ dict_keys d.
Proof.
  induction d as [|[k0 v0] d IH]; simpl.
  - split; [intros _; apply not_elem_of_nil | reflexivity].
  - rewrite not_elem_of_cons. destruct (String.eqb k k0) eqn:E.
    + apply String.eqb_eq in E. split; [discriminate | tauto].
    + apply String.eqb_neq in E. tauto.
Qed.

Lemma dict_get_Some_elem k v d : dict_get k d = Some v -> (k, v) ∈ d.
Proof.
  induction d as [|[k0 v0] d IH]; simpl; [discriminate|].
  destruct (String.eqb k k0) eqn:E.
  - apply String.eqb_eq in E. intros [= ->]. subst. apply list_elem_of_here.
  - intros H. apply list_elem_of_further, IH, H.
Qed.

Lemma dict_get_elem k v d : NoDup (dict_keys d) -> (k, v) ∈ d -> dict_get k d = Some v.
Proof.
  induction d as [|[k0 v0] d IH]; simpl.
  - intros _ H. now apply elem_of_nil in H.
  - rewrite NoDup_cons. intros [Hk0 Hnd]. rewrite elem_of_cons. intros [[= -> ->]|Hin].
    + now rewrite String.eqb_refl.
    + destruct (String.eqb k k0) eqn:E; [|auto].
      apply String.eqb_eq in E; subst k0. exfalso. apply Hk0.
      unfold dict_keys. apply list_elem_of_fmap. now exists (k, v).
Qed.

Lemma dict_keys_set_old k v d :
  k ∈ dict_keys d -> dict_keys (dict_set k v d) = dict_keys d.
Proof.
  induction d as [|[k0 v0] d IH]; simpl.
  - intros H. now apply elem_of_nil in H.
  - destruct (String.eqb k k0) eqn:E; simpl.
    + apply String.eqb_eq in E. now subst.
    + apply String.eqb_neq in E. rewrite elem_of_cons. intros [?|H]; [tauto|]. now rewrite IH.
Qed.

Lemma dict_keys_set_new k v d :
  k ∉ dict_keys d -> dict_keys (dict_set k v d) = dict_keys d ++ [k].
Proof.
  induction d as [|[k0 v0] d IH]; simpl; [reflexivity|].
  rewrite not_elem_of_cons. intros [Hne H].
  apply String.eqb_neq in Hne. rewrite Hne. simpl. now rewrite IH.
Qed.

Lemma dict_set_new k v d : k ∉ dict_keys d -> dict_set k v d = d ++ [(k, v)].
Proof.
  induction d as [|[k0 v0] d IH]; simpl; [reflexivity|].
  rewrite not_elem_of_cons. intros [Hne H].
  apply String.eqb_neq in Hne. rewrite Hne. now rewrite IH by done.
Qed.

Lemma dict_set_same k v d : dict_get k d = Some v -> dict_set k v d = d.
Proof.
  induction d as [|[k0 v0] d IH]; simpl; [discriminate|].
  destruct (String.eqb k k0) eqn:E.
  - apply String.eqb_eq in E. intros [= ->]. now subst.
  - intros H. now rewrite IH.
Qed.

Lemma elem_of_keys_set k k' v d :
  k ∈ dict_keys (dict_set k' v d) <-> k = k' \/ k ∈ dict_keys d.
Proof.
  destruct (decide (k' ∈ dict_keys d)) as [Hin|Hin].
  - rewrite dict_keys_set_old by done. split; [tauto | now intros [->|?]].
  - rewrite dict_keys_set_new by done. rewrite elem_of_app, list_elem_of_singleton. tauto.
Qed.

Lemma NoDup_keys_set k v d : NoDup (dict_keys d) -> NoDup (dict_keys (dict_set k v d)).
Proof.
  intros Hnd. destruct (decide (k ∈ dict_keys d)) as [Hin|Hin].
  - now rewrite dict_keys_set_old.
  - rewrite dict_keys_set_new by done. apply NoDup_app. repeat split; [done| |apply NoDup_singleton].
    intros x Hx. rewrite list_elem_of_singleton. now intros ->.
Qed.

Lemma NoDup_keys_update d other :
  NoDup (dict_keys d) -> NoDup (dict_keys (dict_update d other)).
Proof.
  unfold dict_update. revert d. induction other as [|[k v] o IH]; intros d Hd; simpl; [done|].
  apply IH, NoDup_keys_set, Hd.
Qed.

(** [update] lets the other dict's value win, key by key. *)
Lemma dict_get_update k d other :
  NoDup (dict_keys other) ->
  dict_get k (dict_update d other) =
    match dict_get k other with Some v => Some v | None => dict_get k d end.
Proof.
  unfold dict_update. revert d. induction other as [|[k0 v0] o IH]; intros d; simpl; [done|].
  rewrite NoDup_cons. intros [Hk0 Hnd]. rewrite IH by done. rewrite dict_get_set.
  destruct (String.eqb k k0) eqn:E; [|done].
  apply String.eqb_eq in E; subst k0.
  apply dict_get_None in Hk0. now rewrite Hk0.
Qed.

Lemma elem_of_keys_update k d other :
  k ∈ dict_keys (dict_update d other) <-> k ∈ dict_keys d \/ k ∈ dict_keys other.
Proof.
  unfold dict_update. revert d. induction other as [|[k0 v0] o IH]; intros d; simpl.
  - rewrite elem_of_nil. tauto.
  - rewrite IH, elem_of_keys_set, elem_of_cons. tauto.
Qed.

End Dict.
End DictFacts.

Module SortFacts.
Import Py PyFacts.

Section Sort.
Context {A : Type}.
Implicit Types (x : string * A) (l : list (string * A)).

Lemma insert_by_key_perm x l : insert_by_key x l ≡ₚ x :: l.
Proof.
  induction l as [|y l IH]; simpl; [done|].
  destruct (String.leb x.1 y.1); [done|].
  rewrite IH. apply perm_swap.
Qed.

Lemma sort_by_key_perm l : sort_by_key l ≡ₚ l.
Proof.
  induction l as [|x l IH]; simpl; [done|].
  now rewrite insert_by_key_perm, IH.
Qed.

Lemma insert_by_key_sorted x l :
  StronglySorted str_lt (map fst l) -> x.1 ∉ map fst l ->
  StronglySorted str_lt (map fst (insert_by_key x l)).
Proof.
  induction l as [|y l IH]; simpl; intros Hs Hx.
  - repeat constructor.
  - apply StronglySorted_inv in Hs as [Hs Hy].
    apply not_elem_of_cons in Hx as [Hne Hx].
    destruct (String.leb x.1 y.1) eqn:E; simpl.
    + assert (Hlt : str_lt x.1 y.1).
      { unfold String.leb in E. unfold str_lt.
        destruct (String.compare x.1 y.1) eqn:C; try done.
        apply String.compare_eq_iff in C. done. }
      constructor; [now constructor|].
      constructor; [done|].
      eapply Forall_impl; [exact Hy|]. intros z Hz. eapply str_lt_trans; eauto.
    + apply leb_false_lt in E.
      constructor; [auto|].
      apply Forall_forall. intros k Hk.
      assert (Hk' : k ∈ map fst (x :: l)).
      { rewrite <- (insert_by_key_perm x l). done. }
      simpl in Hk'. apply elem_of_cons in Hk' as [->|Hk']; [done|].
      rewrite Forall_forall in Hy. auto.
Qed.

Lemma sort_by_key_sorted l :
  NoDup (map fst l) -> StronglySorted str_lt (map fst (sort_by_key l)).
Proof.
  induction l as [|x l IH]; simpl; intros Hnd; [constructor|].
  apply NoDup_cons in Hnd as [Hx Hnd].
  apply insert_by_key_sorted; [auto|].
  now rewrite sort_by_key_perm.
Qed.

Lemma sort_by_key_id l :
  StronglySorted str_lt (map fst l) -> sort_by_key l = l.
Proof.
  induction l as [|x l IH]; simpl; intros Hs; [done|].
  apply StronglySorted_inv in Hs as [Hs Hx].
  rewrite IH by done. destruct l as [|y l]; simpl; [done|].
  apply Forall_inv in Hx. now rewrite (lt_leb _ _ Hx).
Qed.

Lemma sorted_lt_NoDup (ks : list string) : StronglySorted str_lt ks -> NoDup ks.
Proof.
  induction ks as [|k ks IH]; intros Hs; [constructor|].
  apply StronglySorted_inv in Hs as [Hs Hk].
  apply NoDup_cons. split; [|auto].
  intros Hin. rewrite Forall_forall in Hk. apply (str_lt_irrefl k). auto.
Qed.

End Sort.
End SortFacts.

(** ** browser.py: merging by id *)

Module MergeFacts.
Import Py Json Browser PyFacts DictFacts SortFacts.
#[local] Arguments ids : simpl never.

Lemma keyed_set k o d : item_id o = Some k -> keyed d -> keyed (dict_set k o d).
Proof.
  intros Hk. unfold keyed. induction d as [|[k0 v0] d IH]; simpl; intros Hd.
  - now constructor.
  - apply Forall_cons in Hd as [H0 Hd].
    destruct (String.eqb k k0); constructor; auto.
Qed.

Lemma elem_of_ids k os : k ∈ ids os <-> exists o, o ∈ os /\ item_id o = Some k.
Proof. unfold ids. apply list_elem_of_omap. Qed.

Lemma ids_cons o os :
  ids (o :: os) = match item_id o with Some k => k :: ids os | None => ids os end.
Proof. reflexivity. Qed.

Lemma last_with_id_None k os : last_with_id k os = None <-> k ∉ ids os.
Proof.
  induction os as [|o os IH]; cbn [last_with_id].
  - split; [intros _; apply not_elem_of_nil | done].
  - rewrite ids_cons. destruct (last_with_id k os) eqn:E.
    + split; [done|]. intros Hn. exfalso.
      assert (k ∉ ids os) as Hk; [|apply IH in Hk; done].
      destruct (item_id o); [|done]. now apply not_elem_of_cons in Hn.
    + assert (k ∉ ids os) as Hk by now apply IH.
      destruct (item_id o) as [k'|]; [|done].
      rewrite not_elem_of_cons.
      destruct (String.eqb k k') eqn:E'.
      * apply String.eqb_eq in E'. split; [done | tauto].
      * apply String.eqb_neq in E'. tauto.
Qed.

Lemma id_dict_from_spec os : forall acc,
  Forall has_id os ->
  exists d, id_dict_from acc os = Some d /\
    (NoDup (dict_keys acc) -> NoDup (dict_keys d)) /\
    (keyed acc -> keyed d) /\
    (forall k, dict_get k d =
       match last_with_id k os with Some o => Some o | None => dict_get k acc end) /\
    (forall k, k ∈ dict_keys d <-> k ∈ dict_keys acc \/ k ∈ ids os).
Proof.
  induction os as [|o os IH]; intros acc Hall; cbn [id_dict_from last_with_id].
  - exists acc. split; [done|]. split; [done|]. split; [done|]. split; [done|].
    intros k. split; [now left|]. intros [H|H]; [done | now apply elem_of_nil in H].
  - apply Forall_cons in Hall as [[k0 Hk0] Hall].
    rewrite Hk0. destruct (IH (dict_set k0 o acc) Hall) as (d & Hd & Hnd & Hkeyed & Hget & Hin).
    exists d. split; [done|]. split; [|split; [|split]].
    + intros H. apply Hnd, NoDup_keys_set, H.
    + intros H. apply Hkeyed, keyed_set; done.
    + intros k. rewrite Hget, dict_get_set.
      destruct (last_with_id k os); [done|]. now destruct (String.eqb k k0).
    + intros k. rewrite Hin, elem_of_keys_set, ids_cons, Hk0, elem_of_cons. tauto.
Qed.

Lemma decorate_keyed d : keyed d -> decorate (dict_values d) = Some d.
Proof.
  unfold keyed. induction d as [|[k o] d IH]; simpl; intros Hd; [done|].
  apply Forall_cons in Hd as [H0 Hd]. simpl in H0. now rewrite H0, IH.
Qed.

Lemma first_with_id_keyed k d : keyed d -> first_with_id k (map snd d) = dict_get k d.
Proof.
  unfold keyed. induction d as [|[k0 o] d IH]; simpl; intros Hd; [done|].
  apply Forall_cons in Hd as [H0 Hd]. simpl in H0. rewrite H0, IH by done. done.
Qed.

Lemma ids_keyed d : keyed d -> ids (map snd d) = dict_keys d.
Proof.
  unfold keyed. induction d as [|[k0 o] d IH]; simpl; intros Hd; [done|].
  apply Forall_cons in Hd as [H0 Hd]. simpl in H0. rewrite ids_cons, H0, IH by done. done.
Qed.

Lemma dict_get_perm {V} k (d d' : dict V) :
  d ≡ₚ d' -> NoDup (dict_keys d) -> dict_get k d = dict_get k d'.
Proof.
  intros Hp Hnd.
  assert (Hnd' : NoDup (dict_keys d')) by (unfold dict_keys; now rewrite <- Hp).
  destruct (dict_get k d) as [v|] eqn:E.
  - symmetry. apply dict_get_elem; [done|]. rewrite <- Hp. now apply dict_get_Some_elem.
  - symmetry. apply dict_get_None. apply dict_get_None in E.
    unfold dict_keys. now rewrite <- Hp.
Qed.

Lemma merge_by_id_dict existing updates :
  Forall has_id existing -> Forall has_id updates ->
  exists d,
    merge_by_id existing updates = Some (map snd (sort_by_key d)) /\
    keyed d /\ NoDup (dict_keys d) /\
    (forall k, dict_get k d =
       match last_with_id k updates with
       | Some o => Some o
       | None => last_with_id k existing
       end) /\
    (forall k, k ∈ dict_keys d <-> k ∈ ids existing ++ ids updates).
Proof.
  intros He Hu. unfold merge_by_id, id_dict.
  destruct (id_dict_from_spec existing [] He) as (objs & -> & Hnd1 & Hk1 & Hg1 & Hi1).
  destruct (id_dict_from_spec updates [] Hu) as (upd & -> & Hnd2 & Hk2 & Hg2 & Hi2).
  specialize (Hnd1 (NoDup_nil_2)). specialize (Hnd2 (NoDup_nil_2)).
  specialize (Hk1 (Forall_nil_2 _)). specialize (Hk2 (Forall_nil_2 _)).
  exists (dict_update objs upd).
  assert (Hk : keyed (dict_update objs upd)).
  { unfold dict_update. clear -Hk1 Hk2. revert objs Hk1.
    induction upd as [|[k o] upd IH]; intros objs Hk1; simpl; [done|].
    apply Forall_cons in Hk2 as [H0 Hk2]. apply IH; [done|]. now apply keyed_set. }
  split; [|split; [done|split; [|split]]].
  - unfold sorted_by_id. now rewrite decorate_keyed.
  - now apply NoDup_keys_update.
  - intros k. rewrite dict_get_update, Hg2, Hg1 by done. simpl.
    destruct (last_with_id k updates); [done|]. now destruct (last_with_id k existing).
  - intros k. rewrite elem_of_keys_update, Hi1, Hi2, elem_of_app.
    unfold dict_keys; simpl. rewrite elem_of_nil. tauto.
Qed.

End MergeFacts.

Module MergeSpec.
Import Py Json Web Browser PyFacts DictFacts SortFacts MergeFacts.
#[local] Arguments ids : simpl never.

(** [merge_by_id] as a map keyed by id, ascending, one entry per id. *)
Lemma merge_by_id_map existing updates :
  Forall has_id existing -> Forall has_id updates ->
  exists merged,
    merge_by_id existing updates = Some merged /\
    (forall k, first_with_id k merged =
       match last_with_id k updates with
       | Some o => Some o
       | None => last_with_id k existing
       end) /\
    StronglySorted str_lt (ids merged) /\
    Forall has_id merged /\
    length merged = length (remove_dups (ids existing ++ ids updates)).
Proof.
  intros He Hu.
  destruct (merge_by_id_dict existing updates He Hu) as (d & Hm & Hk & Hnd & Hget & Hin).
  exists (map snd (sort_by_key d)). split; [done|].
  assert (Hks : keyed (sort_by_key d)).
  { unfold keyed. now rewrite sort_by_key_perm. }
  split; [|split; [|split]].
  - intros k. rewrite first_with_id_keyed by done.
    rewrite <- Hget. symmetry. apply dict_get_perm; [|done].
    symmetry. apply sort_by_key_perm.
  - rewrite ids_keyed by done. now apply sort_by_key_sorted.
  - apply Forall_forall. intros o Ho.
    apply list_elem_of_fmap in Ho as ([k o'] & -> & Hkv).
    unfold keyed in Hks. rewrite Forall_forall in Hks.
    specialize (Hks _ Hkv). simpl in *. unfold has_id. now rewrite Hks.
  - rewrite length_map, sort_by_key_perm.
    rewrite <- (length_map fst d). apply Permutation_length.
    apply NoDup_Permutation; [done | apply NoDup_remove_dups |].
    intros k. rewrite elem_of_remove_dups. apply Hin.
Qed.

(** Whatever granary's merge leaves in [replies], the stored activity's
    [totalItems] is the length of its [items]. *)
Lemma merge_activity_total gr new_activity existing_activity merged :
  merge_activity gr new_activity existing_activity = Ok merged ->
  exists items n,
    reply_items merged = Ok items /\ py_len items = Some n /\
    reply_total merged = Ok (JNum (Z.of_nat n)).
Proof.
  unfold merge_activity. intros H.
  destruct new_activity as [| | | | |top]; try discriminate.
  destruct (setdefault_obj "object" top) as [| | | | |obj]; try discriminate.
  destruct (reply_items existing_activity) as [ex_items| |]; try discriminate.
  simpl in H.
  destruct (gr (setdefault_obj "replies" obj) "items" ex_items) as [replies| |];
    try discriminate.
  simpl in H.
  destruct replies as [| | | | |r]; try discriminate. simpl in H.
  destruct (py_len (default (JArr []) (dict_get "items" r))) as [n|] eqn:Hn;
    try discriminate.
  injection H as <-.
  exists (default (JArr []) (dict_get "items" r)), n.
  unfold reply_items, reply_total. simpl.
  repeat (rewrite dict_get_set; simpl). done.
Qed.

(** With this file's [merge_by_id] behind granary's interface, the stored
    replies are the merge of the existing items with the incoming ones. *)
Lemma merge_activity_items new_activity existing_activity new_items existing_items :
  reply_items new_activity = Ok (JArr new_items) ->
  reply_items existing_activity = Ok (JArr existing_items) ->
  Forall has_id new_items -> Forall has_id existing_items ->
  exists merged stored,
    merge_by_id existing_items new_items = Some merged /\
    merge_activity merge_into_field new_activity existing_activity = Ok stored /\
    reply_items stored = Ok (JArr merged) /\
    reply_total stored = Ok (JNum (Z.of_nat (length merged))).
Proof.
  intros Hn He Hidn Hide.
  destruct (merge_by_id_map existing_items new_items Hide Hidn) as (merged & Hm & _).
  exists merged.
  unfold merge_activity. rewrite He. simpl.
  unfold reply_items in Hn.
  destruct new_activity as [| | | | |top]; try discriminate. simpl in Hn.
  unfold setdefault_obj.
  destruct (default (JObj []) (dict_get "object" top)) as [| | | | |obj];
    try discriminate. simpl in Hn.
  destruct (default (JObj []) (dict_get "replies" obj)) as [| | | | |r];
    try discriminate. simpl in Hn. injection Hn as Hn.
  simpl. rewrite Hn, Hm. simpl. rewrite dict_get_set. simpl.
  eexists. split; [done|]. split; [reflexivity|].
  unfold reply_items, reply_total. simpl.
  repeat (rewrite dict_get_set; simpl). done.
Qed.

End MergeSpec.

Module MergeClaims.
Import Py Json Web Browser Samples PyFacts DictFacts SortFacts MergeFacts MergeSpec.
#[local] Arguments ids : simpl never.

Lemma last_with_id_elem k os o : last_with_id k os = Some o -> o ∈ os.
Proof.
  induction os as [|o' os IH]; cbn [last_with_id]; [done|].
  destruct (last_with_id k os) as [o1|].
  - intros [= <-]. apply list_elem_of_further. now apply IH.
  - destruct (item_id o') as [k'|]; [|done].
    destruct (String.eqb k k'); [|done]. intros [= <-]. apply list_elem_of_here.
Qed.

(** In a list without a repeated id, the object found under an id is the
    only one that carries it. *)
Lemma sorted_first_with_id k os o :
  NoDup (ids os) -> o ∈ os -> item_id o = Some k -> first_with_id k os = Some o.
Proof.
  induction os as [|o' os IH]; intros Hnd Hin Hk; [now apply elem_of_nil in Hin|].
  rewrite ids_cons in Hnd. cbn [first_with_id].
  apply elem_of_cons in Hin as [<-|Hin].
  - now rewrite Hk, String.eqb_refl.
  - destruct (item_id o') as [k'|] eqn:Hk'; [|now apply IH].
    apply NoDup_cons in Hnd as [Hnotin Hnd].
    destruct (String.eqb k k') eqn:E; [|now apply IH].
    apply String.eqb_eq in E. subst k'. exfalso. apply Hnotin.
    apply elem_of_ids. now exists o.
Qed.

Lemma decorate_spec os :
  Forall has_id os ->
  exists d, decorate os = Some d /\ map snd d = os /\ dict_keys d = ids os /\ keyed d.
Proof.
  induction os as [|o os IH]; intros Hall.
  - exists []. repeat split; constructor.
  - apply Forall_cons in Hall as [[k Hk] Hall].
    destruct (IH Hall) as (d & Hd & Hv & Hks & Hkd).
    exists ((k, o) :: d). simpl. rewrite Hk, Hd, Hv, ids_cons, Hk, Hks.
    repeat split. now constructor.
Qed.

Lemma id_dict_from_fresh os : forall acc d,
  decorate os = Some d -> NoDup (dict_keys acc ++ dict_keys d) ->
  id_dict_from acc os = Some (acc ++ d).
Proof.
  induction os as [|o os IH]; intros acc d; simpl.
  - intros [= <-] _. now rewrite app_nil_r.
  - destruct (item_id o) as [k|]; [|done].
    destruct (decorate os) as [d'|] eqn:Hd'; [|done].
    intros [= <-] Hnd. simpl in Hnd.
    assert (Hk : k ∉ dict_keys acc).
    { apply NoDup_app in Hnd as (_ & Hdis & _). intros Hin.
      apply (Hdis k Hin). apply list_elem_of_here. }
    rewrite dict_set_new by done.
    rewrite (IH (acc ++ [(k, o)]) d' eq_refl).
    + now rewrite <- app_assoc.
    + unfold dict_keys in *. rewrite map_app. simpl. now rewrite <- app_assoc.
Qed.

Lemma dict_update_same {V} (d other : dict V) :
  (forall k v, (k, v) ∈ other -> dict_get k d = Some v) -> dict_update d other = d.
Proof.
  unfold dict_update. induction other as [|[k v] o IH]; simpl; intros H; [done|].
  rewrite dict_set_same by (apply H; apply list_elem_of_here).
  apply IH. intros k' v' Hin. apply H. now apply list_elem_of_further.
Qed.

Lemma id_dict_from_has_ids os : forall acc d,
  id_dict_from acc os = Some d -> Forall has_id os.
Proof.
  induction os as [|o os IH]; intros acc d H; [constructor|].
  cbn [id_dict_from] in H. destruct (item_id o) as [k|] eqn:Hk; [|done].
  constructor; [now exists k | exact (IH _ _ H)].
Qed.

Lemma merge_by_id_has_ids existing updates merged :
  merge_by_id existing updates = Some merged -> Forall has_id existing.
Proof.
  unfold merge_by_id, id_dict.
  destruct (id_dict_from [] existing) as [d|] eqn:Hd; [|done].
  intros _. exact (id_dict_from_has_ids _ _ _ Hd).
Qed.

(** C1: [merge_by_id(existing, updates)] on items that all carry ids is the
    map keyed by id that is seeded with the existing items and overwritten
    by the incoming ones: under every id it holds the incoming item of that
    id if there is one and else the existing item, ascending by id, one
    entry per distinct id; and [PostHandler.post] stores [totalItems] as
    the number of items of the merged collection. *)
Theorem merged_replies_by_id existing updates :
  Forall has_id existing -> Forall has_id updates ->
  exists merged,
    merge_by_id existing updates = Some merged /\
    (forall k, first_with_id k merged =
       match last_with_id k updates with
       | Some o => Some o
       | None => last_with_id k existing
       end) /\
    StronglySorted str_lt (ids merged) /\
    Forall has_id merged /\
    length merged = length (remove_dups (ids existing ++ ids updates)) /\
    (forall gr new_activity existing_activity stored,
       merge_activity gr new_activity existing_activity = Ok stored ->
       exists items n,
         reply_items stored = Ok items /\ py_len items = Some n /\
         reply_total stored = Ok (JNum (Z.of_nat n))) /\
    (forall new_activity existing_activity,
       reply_items new_activity = Ok (JArr updates) ->
       reply_items existing_activity = Ok (JArr existing) ->
       exists stored,
         merge_activity merge_into_field new_activity existing_activity = Ok stored /\
         reply_items stored = Ok (JArr merged) /\
         reply_total stored = Ok (JNum (Z.of_nat (length merged)))).
Proof.
  intros He Hu.
  destruct (merge_by_id_map existing updates He Hu) as (merged & Hm & Hget & Hs & Hid & Hlen).
  exists merged. repeat (split; [assumption|]). split.
  - intros gr new_activity existing_activity stored. apply merge_activity_total.
  - intros new_activity existing_activity Hn Hex.
    destruct (merge_activity_items _ _ _ _ Hn Hex Hu He) as (m & stored & Hm' & Hst & Hi & Ht).
    rewrite Hm in Hm'. injection Hm' as <-. now exists stored.
Qed.

(** C1 at an example: the incoming reply 1 replaces the existing one and
    reply 2 is added. *)
Lemma merged_replies_by_id_witness :
  exists merged,
    merge_by_id [reply "1" "a"] [reply "2" "b"; reply "1" "c"] = Some merged /\
    first_with_id "1" merged = Some (reply "1" "c") /\
    first_with_id "2" merged = Some (reply "2" "b") /\
    length merged = 2%nat.
Proof.
  destruct (merged_replies_by_id [reply "1" "a"] [reply "2" "b"; reply "1" "c"])
    as (merged & Hm & Hget & _ & _ & Hlen & _); [repeat (constructor; [eexists; reflexivity|]); constructor ..|].
  exists merged. split; [exact Hm|]. rewrite !Hget, Hlen. repeat split.
Defined.

(** C5 (as amended): [merge_by_id(A, A)] gives back [A] exactly when the
    objects of [A] all carry ids and stand in strictly ascending order of
    id (so no id repeats); and for every list [A] of objects with ids,
    [merge_by_id(A, A)] is [A] sorted by id with only the last object of
    each id kept: it is strictly ascending by id, its objects are objects
    of [A], under every id it holds the last object of [A] with that id,
    and it has one object for each distinct id of [A]. *)
Theorem merge_by_id_self A :
  (merge_by_id A A = Some A <-> Forall has_id A /\ StronglySorted str_lt (ids A)) /\
  (Forall has_id A ->
   exists merged,
     merge_by_id A A = Some merged /\
     StronglySorted str_lt (ids merged) /\
     Forall has_id merged /\
     (forall o, o ∈ merged -> o ∈ A) /\
     (forall k, first_with_id k merged = last_with_id k A) /\
     length merged = length (remove_dups (ids A))).
Proof.
  split; [split|].
  - intros H. pose proof (merge_by_id_has_ids _ _ _ H) as Hall. split; [done|].
    destruct (merge_by_id_map A A Hall Hall) as (m & Hm & _ & Hs & _).
    rewrite H in Hm. now injection Hm as <-.
  - intros [Hall Hs].
    destruct (decorate_spec A Hall) as (d & Hd & Hv & Hks & Hkd).
    assert (Hnd : NoDup (dict_keys d)).
    { rewrite Hks. now apply sorted_lt_NoDup. }
    unfold merge_by_id, id_dict.
    rewrite (id_dict_from_fresh A [] d Hd) by done. simpl.
    rewrite dict_update_same by (intros k v; now apply dict_get_elem).
    unfold sorted_by_id. rewrite decorate_keyed by done.
    rewrite sort_by_key_id; [now rewrite Hv|].
    unfold dict_keys in Hks. now rewrite Hks.
  - intros Hall.
    destruct (merge_by_id_map A A Hall Hall) as (m & Hm & Hget & Hs & Hid & Hlen).
    assert (Hlast : forall k, first_with_id k m = last_with_id k A).
    { intros k. rewrite Hget. now destruct (last_with_id k A). }
    exists m. split; [done|]. split; [done|]. split; [done|].
    split; [|split; [done|]].
    + intros o Ho. rewrite Forall_forall in Hid.
      destruct (Hid o Ho) as [k Hk].
      assert (Hfirst : first_with_id k m = Some o).
      { apply sorted_first_with_id; [now apply sorted_lt_NoDup | done | done]. }
      rewrite Hlast in Hfirst. now apply last_with_id_elem in Hfirst.
    + rewrite Hlen. apply Permutation_length.
      apply NoDup_Permutation; [apply NoDup_remove_dups .. |].
      intros k. rewrite !elem_of_remove_dups, elem_of_app. tauto.
Qed.

(** C5 at an example: two replies out of order and one of them twice,
    merged with themselves. *)
Lemma merge_by_id_self_witness :
  merge_by_id [reply "2" "b"; reply "1" "a"; reply "2" "c"]
              [reply "2" "b"; reply "1" "a"; reply "2" "c"]
  = Some [reply "1" "a"; reply "2" "c"] /\
  exists merged,
    merge_by_id [reply "2" "b"; reply "1" "a"; reply "2" "c"]
                [reply "2" "b"; reply "1" "a"; reply "2" "c"] = Some merged /\
    first_with_id "2" merged = Some (reply "2" "c") /\
    length merged = 2%nat.
Proof.
  split; [vm_compute; reflexivity|].
  destruct (proj2 (merge_by_id_self [reply "2" "b"; reply "1" "a"; reply "2" "c"]))
    as (merged & Hm & _ & _ & _ & Hget & Hlen).
  - repeat (constructor; [eexists; reflexivity|]). constructor.
  - exists merged. split; [exact Hm|]. rewrite Hget, Hlen. split; reflexivity.
Defined.

(** C5 as stated fails on a list that is not in ascending order of id:
    merging it with itself sorts it. *)
Lemma merge_by_id_self_unsorted :
  merge_by_id unsorted_replies unsorted_replies <> Some unsorted_replies.
Proof. vm_compute. discriminate. Qed.

End MergeClaims.

(** ** JSON text: printing, reading back, trimming *)

Module JsonFacts.
Import Py Json PyFacts DictFacts SortFacts.

(** Induction over documents, with the hypothesis for every element of a
    list and every value of a dict. *)
Lemma json_nested_ind (P : json -> Prop) :
  P JNull -> (forall b, P (JBool b)) -> (forall n, P (JNum n)) -> (forall s, P (JStr s)) ->
  (forall l, Forall P l -> P (JArr l)) ->
  (forall d, Forall (fun kv => P (snd kv)) d -> P (JObj d)) ->
  forall v, P v.
Proof.
  intros Hnull Hbool Hnum Hstr Harr Hobj.
  fix IH 1. intros [| b | n | s | l | d].
  - exact Hnull.
  - apply Hbool.
  - apply Hnum.
  - apply Hstr.
  - apply Harr. induction l as [|x l IHl]; constructor; [apply IH | exact IHl].
  - apply Hobj. induction d as [|[k x] d IHd]; constructor; [apply IH | exact IHd].
Qed.

Lemma fold_right_and_Forall {A} (Q : A -> Prop) l :
  fold_right (fun x acc => Q x /\ acc) True l <-> Forall Q l.
Proof.
  induction l as [|x l IH]; simpl.
  - split; [constructor | done].
  - rewrite Forall_cons, IH. done.
Qed.

Lemma wf_arr l : wf (JArr l) <-> Forall wf l.
Proof. simpl. apply (fold_right_and_Forall wf). Qed.

Lemma wf_obj d : wf (JObj d) <-> NoDup (dict_keys d) /\ Forall (fun kv => wf (snd kv)) d.
Proof. simpl. now rewrite (fold_right_and_Forall (fun kv => wf (snd kv))). Qed.

Lemma trimmed_arr l :
  trimmed (JArr l) <-> Forall (fun x => trimmed x /\ is_null x = false) l.
Proof. simpl. apply (fold_right_and_Forall (fun x => trimmed x /\ is_null x = false)). Qed.

Lemma trimmed_obj d :
  trimmed (JObj d) <->
  Forall (fun kv => trimmed (snd kv) /\ is_null (snd kv) = false) d.
Proof.
  simpl.
  apply (fold_right_and_Forall (fun kv => trimmed (snd kv) /\ is_null (snd kv) = false)).
Qed.

(** Sorting looks at keys only. *)
Lemma insert_by_key_map {A B} (f : A -> B) (x : string * A) l :
  insert_by_key (fst x, f (snd x)) (map (fun kv => (fst kv, f (snd kv))) l)
  = map (fun kv => (fst kv, f (snd kv))) (insert_by_key x l).
Proof.
  induction l as [|y l IH]; simpl; [done|].
  destruct (String.leb (fst x) (fst y)); simpl; [done|]. now rewrite IH.
Qed.

Lemma sort_by_key_map {A B} (f : A -> B) (l : list (string * A)) :
  sort_by_key (map (fun kv => (fst kv, f (snd kv))) l)
  = map (fun kv => (fst kv, f (snd kv))) (sort_by_key l).
Proof.
  induction l as [|x l IH]; simpl; [done|].
  now rewrite IH, insert_by_key_map.
Qed.

Lemma keys_map_snd {A B} (f : A -> B) (l : list (string * A)) :
  map fst (map (fun kv => (fst kv, f (snd kv))) l) = map fst l.
Proof. rewrite map_map. done. Qed.

Lemma sort_by_key_idem {A} (l : list (string * A)) :
  NoDup (map fst l) -> sort_by_key (sort_by_key l) = sort_by_key l.
Proof. intros H. apply sort_by_key_id. now apply sort_by_key_sorted. Qed.

Lemma sorted_pairs {A} (l : list (string * A)) :
  StronglySorted str_lt (map fst l) ->
  StronglySorted (fun x y => str_lt (fst x) (fst y)) l.
Proof.
  induction l as [|x l IH]; simpl; intros H; [constructor|].
  apply StronglySorted_inv in H as [H Hx]. constructor; [auto|].
  rewrite Forall_map in Hx. exact Hx.
Qed.

(** With distinct keys the sorted list depends on the items only, not on
    the order they came in. *)
Lemma sort_by_key_perm_eq {A} (l l' : list (string * A)) :
  l ≡ₚ l' -> NoDup (map fst l) -> sort_by_key l = sort_by_key l'.
Proof.
  intros Hp Hnd.
  assert (Hnd' : NoDup (map fst l')) by now rewrite <- Hp.
  apply (StronglySorted_unique_strong (fun x y => str_lt (fst x) (fst y))).
  - intros x y _ _ Hxy Hyx. exfalso.
    exact (str_lt_irrefl _ (str_lt_trans _ _ _ Hxy Hyx)).
  - apply sorted_pairs. now apply sort_by_key_sorted.
  - apply sorted_pairs. now apply sort_by_key_sorted.
  - now rewrite !sort_by_key_perm.
Qed.


(** *** [loads] reads back what [dumps] wrote *)

Lemma join_tokens_single sep p : join_tokens sep [p] = p.
Proof. reflexivity. Qed.

Lemma join_tokens_more sep p q ps :
  join_tokens sep (p :: q :: ps) = p ++ sep :: join_tokens sep (q :: ps).
Proof. reflexivity. Qed.

#[local] Arguments join_tokens : simpl never.

Lemma dumps_obj d :
  dumps (JObj d)
  = TLBrace :: join_tokens TComma (map member (sort_by_key d)) ++ [TRBrace].
Proof.
  cbn [dumps]. rewrite (sort_by_key_map dumps d), map_map. reflexivity.
Qed.

Lemma dumps_arr l :
  dumps (JArr l) = TLBracket :: join_tokens TComma (map dumps l) ++ [TRBracket].
Proof. reflexivity. Qed.

Lemma dumps_head v : exists t ts, dumps v = t :: ts /\ value_start t = true.
Proof.
  destruct v as [| [|] | n | s | l | d]; do 2 eexists; (split; [reflexivity|done]).
Qed.

Lemma dict_of_pairs_fresh (l : list (string * json)) :
  NoDup (map fst l) -> dict_of_pairs l = l.
Proof.
  unfold dict_of_pairs.
  assert (H : forall acc, NoDup (map fst acc ++ map fst l) ->
              fold_left (fun d kv => dict_set (fst kv) (snd kv) d) l acc = acc ++ l).
  { induction l as [|[k v] l IH]; intros acc Hnd; simpl.
    - now rewrite app_nil_r.
    - simpl in Hnd. rewrite dict_set_new.
      + rewrite IH.
        * now rewrite <- app_assoc.
        * rewrite map_app. simpl. now rewrite <- app_assoc.
      + apply NoDup_app in Hnd as (_ & Hdis & _). intros Hin.
        apply (Hdis k Hin). apply list_elem_of_here. }
  intros Hnd. apply (H []). exact Hnd.
Qed.

Lemma parse_items_dumps l :
  l <> [] -> Forall reads_back l ->
  forall n rest,
    length (join_tokens TComma (map dumps l)) < n ->
    parse_items n (join_tokens TComma (map dumps l) ++ TRBracket :: rest)
    = Some (map canon l, rest).
Proof.
  induction l as [|x l IH]; [done|]. intros _ Hall n rest Hn.
  apply Forall_cons in Hall as [Hx Hall].
  destruct n as [|n]; [lia|].
  destruct l as [|y l].
  - cbn [map] in *. rewrite join_tokens_single in *. cbn [parse_items].
    rewrite Hx by lia. reflexivity.
  - cbn [map] in *. rewrite join_tokens_more in *.
    rewrite length_app in Hn. cbn [length] in Hn.
    rewrite <- app_assoc. cbn [parse_items]. rewrite Hx by lia.
    cbn [app]. rewrite (IH ltac:(done) Hall n rest) by lia. reflexivity.
Qed.

Lemma parse_members_dumps m :
  m <> [] -> Forall (fun kv => reads_back (snd kv)) m ->
  forall n rest,
    length (join_tokens TComma (map member m)) < n ->
    parse_members n (join_tokens TComma (map member m) ++ TRBrace :: rest)
    = Some (map (fun kv => (fst kv, canon (snd kv))) m, rest).
Proof.
  induction m as [|[k v] m IH]; [done|]. intros _ Hall n rest Hn.
  apply Forall_cons in Hall as [Hx Hall]. simpl in Hx.
  destruct n as [|n]; [lia|].
  destruct m as [|y m].
  - cbn [map] in *. rewrite join_tokens_single in *.
    unfold member in *. cbn [fst snd app length parse_members] in *.
    rewrite Hx by lia. reflexivity.
  - cbn [map] in *. rewrite join_tokens_more in *.
    rewrite length_app in Hn. unfold member at 1 in Hn.
    unfold member at 1. cbn [fst snd app length] in *.
    cbn [parse_members]. rewrite <- app_assoc. rewrite Hx by lia.
    cbn [app]. rewrite (IH ltac:(done) Hall n rest) by lia. reflexivity.
Qed.

Lemma join_tokens_head l :
  l <> [] -> exists t ts,
    join_tokens TComma (map dumps l) = t :: ts /\ value_start t = true.
Proof.
  destruct l as [|x l]; [done|]. intros _.
  destruct (dumps_head x) as (t & ts & Hx & Ht).
  destruct l as [|y l]; cbn [map].
  - rewrite join_tokens_single, Hx. eauto.
  - rewrite join_tokens_more, Hx. cbn [app]. eauto.
Qed.

Lemma join_members_head m :
  m <> [] -> exists k ts, join_tokens TComma (map member m) = TStr k :: ts.
Proof.
  destruct m as [|[k v] m]; [done|]. intros _.
  destruct m as [|y m]; cbn [map].
  - rewrite join_tokens_single. unfold member. cbn [fst]. eauto.
  - rewrite join_tokens_more. unfold member at 1. cbn [fst app]. eauto.
Qed.

Lemma parse_dumps v : wf v -> reads_back v.
Proof.
  induction v as [| b | z | s | l IH | d IH] using json_nested_ind;
    intros Hwf n rest Hn.
  - destruct n; [simpl in Hn; lia | reflexivity].
  - destruct n; [simpl in Hn; lia | now destruct b].
  - destruct n; [simpl in Hn; lia | reflexivity].
  - destruct n; [simpl in Hn; lia | reflexivity].
  - apply wf_arr in Hwf.
    assert (Hall : Forall reads_back l).
    { rewrite Forall_forall in IH, Hwf |- *. intros x Hx. apply IH; auto. }
    rewrite dumps_arr in Hn |- *.
    cbn [length] in Hn. rewrite length_app in Hn. cbn [length] in Hn.
    destruct n as [|n]; [lia|].
    destruct l as [|x l]; [reflexivity|].
    destruct (join_tokens_head (x :: l)) as (t & ts & Hj & Ht); [done|].
    pose proof (parse_items_dumps (x :: l) ltac:(done) Hall n rest ltac:(lia)) as Hp.
    cbn [app]. rewrite <- app_assoc. cbn [app].
    rewrite Hj in Hp |- *. cbn [parse_value canon].
    destruct t; try discriminate Ht; cbn [app] in *; rewrite Hp; reflexivity.
  - apply wf_obj in Hwf as [Hnd Hwf].
    assert (Hall : Forall (fun kv => reads_back (snd kv)) (sort_by_key d)).
    { rewrite Forall_forall in IH, Hwf |- *. intros x Hx.
      rewrite sort_by_key_perm in Hx. apply IH; auto. }
    rewrite dumps_obj in Hn |- *.
    cbn [length] in Hn. rewrite length_app in Hn. cbn [length] in Hn.
    destruct n as [|n]; [lia|].
    destruct d as [|x d]; [reflexivity|].
    assert (Hne : sort_by_key (x :: d) <> []).
    { intros E. pose proof (sort_by_key_perm (x :: d)) as Hp. rewrite E in Hp.
      now apply Permutation_nil_cons in Hp. }
    destruct (join_members_head _ Hne) as (k & ts & Hj).
    pose proof (parse_members_dumps _ Hne Hall n rest ltac:(lia)) as Hp.
    cbn [app]. rewrite <- app_assoc. cbn [app].
    rewrite Hj in Hp |- *. cbn [parse_value]. cbn [app] in *. rewrite Hp.
    rewrite dict_of_pairs_fresh.
    + cbn [canon]. now rewrite (sort_by_key_map canon).
    + rewrite keys_map_snd. apply sorted_lt_NoDup. now apply sort_by_key_sorted.
Qed.

Lemma loads_dumps v : wf v -> loads (dumps v) = Some (canon v).
Proof.
  intros Hwf. unfold loads.
  pose proof (parse_dumps v Hwf (length (dumps v)) [] ltac:(lia)) as H.
  rewrite app_nil_r in H. now rewrite H.
Qed.


(** *** [trim_nulls] and the canonical form *)

Lemma insert_by_key_not_nil {A} (x : string * A) l : insert_by_key x l <> [].
Proof. destruct l as [|y l]; simpl; [done|]. now destruct (String.leb x.1 y.1). Qed.

Lemma is_null_canon v : is_null (canon v) = is_null v.
Proof.
  destruct v as [| b | z | s | l | d]; try reflexivity.
  - now destruct l.
  - destruct d as [|x d]; [reflexivity|]. cbn [canon map sort_by_key fold_right].
    destruct (insert_by_key _ _) eqn:E; [|reflexivity].
    now apply insert_by_key_not_nil in E.
Qed.

Lemma map_id_on {A} (f : A -> A) l : Forall (fun x => f x = x) l -> map f l = l.
Proof. induction 1 as [|x l Hx _ IH]; simpl; [done|]. now rewrite Hx, IH. Qed.

Lemma filter_all {A} (p : A -> bool) l :
  Forall (fun x => p x = true) l -> List.filter p l = l.
Proof. induction 1 as [|x l Hx _ IH]; simpl; [done|]. now rewrite Hx, IH. Qed.

Lemma NoDup_keys_filter {A} (p : string * A -> bool) l :
  NoDup (map fst l) -> NoDup (map fst (List.filter p l)).
Proof.
  induction l as [|x l IH]; simpl; [done|].
  rewrite NoDup_cons. intros [Hx Hnd].
  destruct (p x); simpl; [|auto].
  apply NoDup_cons. split; [|auto].
  intros Hin. apply Hx.
  apply list_elem_of_fmap in Hin as (y & -> & Hy).
  apply list_elem_of_fmap. exists y. split; [done|].
  apply list_elem_of_In, filter_In in Hy as [Hy _]. now apply list_elem_of_In.
Qed.

Lemma wf_trim v : wf v -> wf (trim_nulls v).
Proof.
  induction v as [| b | z | s | l IH | d IH] using json_nested_ind; try done.
  - rewrite wf_arr. cbn [trim_nulls]. rewrite wf_arr. intros Hwf.
    apply Forall_forall. intros x Hx.
    apply list_elem_of_In, filter_In in Hx as [Hx _].
    apply in_map_iff in Hx as (y & <- & Hy). apply list_elem_of_In in Hy.
    rewrite Forall_forall in IH, Hwf. auto.
  - rewrite wf_obj. cbn [trim_nulls]. rewrite wf_obj. intros [Hnd Hwf]. split.
    + apply NoDup_keys_filter. now rewrite keys_map_snd.
    + apply Forall_forall. intros x Hx.
      apply list_elem_of_In, filter_In in Hx as [Hx _].
      apply in_map_iff in Hx as (y & <- & Hy). apply list_elem_of_In in Hy.
      rewrite Forall_forall in IH, Hwf. simpl. auto.
Qed.

Lemma trimmed_trim v : trimmed (trim_nulls v).
Proof.
  induction v as [| b | z | s | l IH | d IH] using json_nested_ind; try done.
  - cbn [trim_nulls]. rewrite trimmed_arr. apply Forall_forall. intros x Hx.
    apply list_elem_of_In, filter_In in Hx as [Hx Hnn].
    apply in_map_iff in Hx as (y & <- & Hy). apply list_elem_of_In in Hy.
    rewrite Forall_forall in IH. split; [auto|]. now apply negb_true_iff.
  - cbn [trim_nulls]. rewrite trimmed_obj. apply Forall_forall. intros x Hx.
    apply list_elem_of_In, filter_In in Hx as [Hx Hnn].
    apply in_map_iff in Hx as (y & <- & Hy). apply list_elem_of_In in Hy.
    rewrite Forall_forall in IH. simpl in *. split; [auto|]. now apply negb_true_iff.
Qed.

Lemma trim_trimmed v : trimmed v -> trim_nulls v = v.
Proof.
  induction v as [| b | z | s | l IH | d IH] using json_nested_ind; try done.
  - rewrite trimmed_arr. intros Ht. cbn [trim_nulls]. f_equal.
    rewrite (map_id_on trim_nulls l).
    + apply filter_all. eapply Forall_impl; [exact Ht|].
      intros x [_ Hx]. now rewrite Hx.
    + rewrite Forall_forall in IH, Ht |- *. intros x Hx. apply IH; [done|].
      now apply Ht.
  - rewrite trimmed_obj. intros Ht. cbn [trim_nulls]. f_equal.
    rewrite (map_id_on (fun kv => (fst kv, trim_nulls (snd kv))) d).
    + apply filter_all. eapply Forall_impl; [exact Ht|].
      intros x [_ Hx]. now rewrite Hx.
    + rewrite Forall_forall in IH, Ht |- *. intros [k x] Hx. simpl.
      f_equal. apply (IH _ Hx). now apply Ht.
Qed.

Lemma trimmed_canon v : trimmed v -> trimmed (canon v).
Proof.
  induction v as [| b | z | s | l IH | d IH] using json_nested_ind; try done.
  - rewrite trimmed_arr. intros Ht. cbn [canon]. rewrite trimmed_arr.
    apply Forall_forall. intros x Hx.
    apply list_elem_of_fmap in Hx as (y & -> & Hy).
    rewrite Forall_forall in IH, Ht. rewrite is_null_canon.
    destruct (Ht y Hy). split; auto.
  - rewrite trimmed_obj. intros Ht. cbn [canon]. rewrite trimmed_obj.
    apply Forall_forall. intros x Hx. rewrite sort_by_key_perm in Hx.
    apply list_elem_of_fmap in Hx as (y & -> & Hy).
    rewrite Forall_forall in IH, Ht. simpl. rewrite is_null_canon.
    destruct (Ht y Hy). split; auto.
Qed.

Lemma dumps_canon v : wf v -> dumps (canon v) = dumps v.
Proof.
  induction v as [| b | z | s | l IH | d IH] using json_nested_ind; try done.
  - rewrite wf_arr. intros Hwf. cbn [canon]. rewrite !dumps_arr. do 3 f_equal.
    rewrite map_map. apply map_ext_Forall.
    rewrite Forall_forall in IH, Hwf |- *. auto.
  - rewrite wf_obj. intros [Hnd Hwf]. cbn [canon]. rewrite !dumps_obj. do 3 f_equal.
    rewrite sort_by_key_idem by now rewrite keys_map_snd.
    rewrite (sort_by_key_map canon), map_map. apply map_ext_Forall.
    rewrite Forall_forall in IH, Hwf |- *. intros x Hx.
    rewrite sort_by_key_perm in Hx. unfold member. simpl. f_equal. f_equal. auto.
Qed.

End JsonFacts.

(** ** util.py: the page cache *)

Module CacheClaims.
Import Py Json Web Util.

Lemma load_fresh now path pages cached :
  (load now path pages).1 = Some cached ->
  pages !! path = Some cached /\ forall e, expires cached = Some e -> (now <= e)%Z.
Proof.
  unfold load. destruct (pages !! path) as [c|] eqn:Hc; [|done].
  destruct (expires c) as [e|] eqn:He.
  - destruct (Z.ltb_spec e now); simpl; [done|].
    intros [= <-]. split; [done|]. intros e' He'. rewrite He in He'.
    injection He' as <-. done.
  - simpl. intros [= <-]. split; [done|]. intros e' He'. congruence.
Qed.

Lemma load_stale now path pages cached e :
  pages !! path = Some cached -> expires cached = Some e -> (e < now)%Z ->
  load now path pages = (None, delete path pages).
Proof.
  intros Hc He Hlt. unfold load. rewrite Hc, He.
  destruct (Z.ltb_spec e now); [done | lia].
Qed.

(** C8: a page stored at [now0] with a ttl and loaded at a time [now1]
    past [now0 + ttl] is reported absent and its entity is deleted, the
    other pages staying as they are; and at no time does [load] return a
    page whose expiry has passed. *)
Theorem load_after_expiry now0 ttl now1 path page_html pages :
  (now0 + ttl < now1)%Z ->
  load now1 path (store now0 path page_html (Some ttl) pages)
    = (None, delete path pages) /\
  (load now1 path (store now0 path page_html (Some ttl) pages)).2 !! path = None /\
  (forall other, other <> path ->
     (load now1 path (store now0 path page_html (Some ttl) pages)).2 !! other
       = pages !! other) /\
  (forall now p ps cached,
     (load now p ps).1 = Some cached ->
     ps !! p = Some cached /\ forall e, expires cached = Some e -> (now <= e)%Z).
Proof.
  intros Hlt.
  assert (Hload : load now1 path (store now0 path page_html (Some ttl) pages)
                  = (None, delete path pages)).
  { unfold store.
    erewrite load_stale; [|apply lookup_insert_eq|reflexivity|exact Hlt].
    now rewrite delete_insert_eq. }
  rewrite Hload. simpl. split; [done|]. split; [apply lookup_delete_eq|].
  split.
  - intros other Hne. now apply lookup_delete_ne.
  - intros now p ps cached. apply load_fresh.
Qed.

(** C8 at an example: ttl 0, loaded one tick later. *)
Lemma load_after_expiry_witness :
  load 101%Z "/users" (store 100%Z "/users" "<html>" (Some 0%Z) ∅)
  = (None, delete "/users" ∅).
Proof. apply (load_after_expiry 100 0 101 "/users" "<html>" ∅). lia. Defined.

End CacheClaims.

(** ** util.py: remote fetches *)

Module FetchClaims.
Import Py Json Web Util Samples.

(** C9: a fetch of a blacklisted URL, or one whose response announces a
    Content-Length above [MAX_HTTP_RESPONSE_SIZE], returns a response with
    status 599 whose text is already in memory: neither [requests_get] nor
    a later read of the content downloads the body, and for a blacklisted
    URL nothing is requested at all. *)
Theorem requests_get_refused HTTP_TIMEOUT requests_dot_get url kw_headers kw_timeout :
  ((url ∈ URL_BLACKLIST) \/
    (exists length n,
       header_get "Content-Length"
         (headers (requests_dot_get url (dict_update kw_headers USER_AGENT_HEADER)
                     (default HTTP_TIMEOUT kw_timeout))) = Some length /\
       py_int length = Some n /\ (MAX_HTTP_RESPONSE_SIZE < n)%Z)) ->
  exists resp events,
    requests_get HTTP_TIMEOUT requests_dot_get url kw_headers kw_timeout
      = (resp, events) /\
    status_code resp = 599%Z /\
    (BodyRead ∉ events) /\
    (read_content resp).2 = [] /\
    (url ∈ URL_BLACKLIST -> events = []) /\
    (url ∉ URL_BLACKLIST ->
     events = [Requested url (dict_update kw_headers USER_AGENT_HEADER)
                 (default HTTP_TIMEOUT kw_timeout)]).
Proof.
  intros H. unfold requests_get.
  destruct (bool_decide (url ∈ URL_BLACKLIST)) eqn:Hb.
  - apply bool_decide_eq_true in Hb. do 2 eexists. split; [reflexivity|].
    repeat split; try done. apply not_elem_of_nil.
  - apply bool_decide_eq_false in Hb.
    destruct H as [H|(length & n & Hlen & Hint & Hn)]; [done|].
    rewrite Hlen. simpl. rewrite Hint.
    destruct (Z.ltb_spec MAX_HTTP_RESPONSE_SIZE n); [|lia].
    do 2 eexists. split; [reflexivity|].
    repeat split; try done.
    rewrite list_elem_of_singleton. discriminate.
Qed.

(** C9 at an example: a server that announces six million bytes. *)
Lemma requests_get_refused_witness :
  exists resp events,
    requests_get 15%Z big_response "http://example.com/big" [] None = (resp, events) /\
    status_code resp = 599%Z /\ (BodyRead ∉ events).
Proof.
  destruct (requests_get_refused 15 big_response "http://example.com/big" [] None)
    as (resp & events & Hr & Hs & Hb & _).
  - right. exists "6000000", 6000000%Z. repeat split. 
  - exists resp, events. auto.
Defined.

End FetchClaims.

(** ** browser.py: authorization and the post endpoint *)

Module HandlerClaims.
Import Py Json Web Browser Samples PyFacts DictFacts.

Lemma domain_has_token_spec ds token d :
  domain_has_token ds token d = true <->
  exists tokens, ds_domains ds !! d = Some tokens /\ token ∈ tokens.
Proof.
  unfold domain_has_token. destruct (ds_domains ds !! d) as [tokens|].
  - rewrite bool_decide_eq_true. split; [eauto|]. now intros (t & [= <-] & H).
  - split; [done|]. now intros (t & ? & _).
Qed.






(** The condition on the stored domains is needed.  On a datastore that
    sign-up does not produce, whose account lists the network's own domain
    and which has a Domain entity of that name holding the token, that
    domain is among the candidates as worded, yet the check aborts with
    403, having looked at other.com only. *)
Lemma own_domain_is_no_candidate :
  stored_domains own_domain_datastore public_actor = Ok ["instagram.com"] /\
  (exists d tokens,
     d ∈ candidate_domains_as_specified sample_object_urls sample_domain_from_link
           instagram public_actor ["instagram.com"] /\
     ds_domains own_domain_datastore !! d = Some tokens /\ "tok" ∈ tokens) /\
  check_token_for_actor sample_is_public sample_object_urls sample_domain_from_link
    instagram own_domain_datastore sample_request public_actor
  = Abort 403 (TokenNotAuthorized "tok" {[ "other.com" ]}).
Proof.
  split; [reflexivity|]. split.
  - exists "instagram.com", ["tok"]. split; [|split].
    + unfold candidate_domains_as_specified. apply elem_of_union. right.
      apply elem_of_list_to_set, list_elem_of_here.
    + vm_compute. reflexivity.
    + apply list_elem_of_here.
  - vm_compute. reflexivity.
Qed.

(** C4 (as amended): for an actor that is not public,
    [check_token_for_actor] aborts whatever the request's token is, and
    also when it has none, with status 400 and the message that the
    account is private. *)
Theorem private_actor_rejected
    is_public object_urls domain_from_link cls ds req actor :
  is_public actor = false ->
  check_token_for_actor is_public object_urls domain_from_link cls ds req actor
    = Abort 400 (PrivateAccount (GR_NAME cls)).
Proof. intros H. unfold check_token_for_actor. now rewrite H. Qed.

(** C4 at an example: a private actor, with a valid token in the request. *)
Lemma private_actor_rejected_witness :
  check_token_for_actor sample_is_public sample_object_urls sample_domain_from_link
    instagram sample_datastore sample_request private_actor
  = Abort 400 (PrivateAccount "Instagram").
Proof.
  apply (private_actor_rejected sample_is_public sample_object_urls
           sample_domain_from_link instagram sample_datastore sample_request
           private_actor).
  reflexivity.
Defined.

(** C4 as stated fails: the status of the rejection is not 403. *)
Lemma private_actor_status_is_not_403 :
  abort_status
    (check_token_for_actor sample_is_public sample_object_urls
       sample_domain_from_link instagram sample_datastore sample_request
       private_actor) <> Some 403%Z.
Proof. vm_compute. discriminate. Qed.

(** C2 (as amended): when the request passes [auth] and an Activity with
    the scraped id is stored already, [post] stores the merged activity
    and answers with the activity as scraped, not with the merged one. *)
Theorem post_outputs_scraped_activity
    scraped_to_activity gr_merge_by_id load_source
    cls ds req new_activity actor source id existing merged :
  scraped_to_activity (req_body req) = (new_activity, actor) ->
  truthy new_activity = true ->
  auth load_source cls ds req actor true = Ok source ->
  py_get "id" JNull new_activity = Ok (JStr id) ->
  id <> "" ->
  ds_activities ds !! id = Some existing ->
  merge_activity gr_merge_by_id new_activity (activity_json existing) = Ok merged ->
  post scraped_to_activity gr_merge_by_id load_source cls ds req
    = Ok (put_activity id {| activity_source := activity_source existing;
                             activity_json := merged |} ds,
          output new_activity).
Proof.
  intros Hs Ht Ha Hid Hne Hex Hm. unfold post. rewrite Hs, Ht, Ha. simpl.
  unfold update_activity. rewrite Hid. simpl.
  apply String.eqb_neq in Hne. rewrite Hne. simpl.
  now rewrite Hex, Hm.
Qed.

(** C2 at an example: reply 1 is stored, reply 2 is scraped. *)
Lemma post_outputs_scraped_activity_witness :
  post sample_scrape merge_into_field sample_load_source instagram
    sample_datastore sample_request
  = Ok (put_activity post_id {| activity_source := Some "jc";
                                activity_json := merged_activity |} sample_datastore,
        output scraped_activity).
Proof.
  apply (post_outputs_scraped_activity sample_scrape merge_into_field
           sample_load_source instagram sample_datastore sample_request
           scraped_activity public_actor
           {| source_id := "jc";
              source_url := Some "https://www.instagram.com/jc/";
              source_domains := ["example.com"] |}
           post_id
           {| activity_source := Some "jc"; activity_json := stored_activity |}
           merged_activity);
    try reflexivity; try discriminate; vm_compute; reflexivity.
Defined.

(** C2 as stated fails: the stored activity holds both replies and the
    total, the response only what was scraped. *)
Lemma post_answer_differs_from_stored :
  post sample_scrape merge_into_field sample_load_source instagram
    sample_datastore sample_request
  = Ok (put_activity post_id {| activity_source := Some "jc";
                                activity_json := merged_activity |} sample_datastore,
        output scraped_activity) /\
  resp_body (output scraped_activity) <> merged_activity.
Proof. split; [vm_compute; reflexivity | vm_compute; discriminate]. Qed.

End HandlerClaims.

Module HandlerExtras.
Import Py Json Web Browser Samples PyFacts DictFacts.

(** With no Activity stored under the scraped id, [post] stores the
    scraped activity as it is, owned by the authorized source, and answers
    with it. *)
Theorem post_stores_new_activity
    scraped_to_activity gr_merge_by_id load_source
    cls ds req new_activity actor source id :
  scraped_to_activity (req_body req) = (new_activity, actor) ->
  truthy new_activity = true ->
  auth load_source cls ds req actor true = Ok source ->
  py_get "id" JNull new_activity = Ok (JStr id) ->
  id <> "" ->
  ds_activities ds !! id = None ->
  post scraped_to_activity gr_merge_by_id load_source cls ds req
    = Ok (put_activity id {| activity_source := Some (source_id source);
                             activity_json := new_activity |} ds,
          output new_activity).
Proof.
  intros Hs Ht Ha Hid Hne Hex. unfold post. rewrite Hs, Ht, Ha. simpl.
  unfold update_activity. rewrite Hid. simpl.
  apply String.eqb_neq in Hne. rewrite Hne. simpl.
  now rewrite Hex.
Qed.

Lemma post_stores_new_activity_witness :
  post sample_scrape merge_into_field sample_load_source instagram
    empty_datastore sample_request
  = Ok (put_activity post_id {| activity_source := Some "jc";
                                activity_json := scraped_activity |} empty_datastore,
        output scraped_activity).
Proof.
  apply (post_stores_new_activity sample_scrape merge_into_field
           sample_load_source instagram empty_datastore sample_request
           scraped_activity public_actor
           {| source_id := "jc";
              source_url := Some "https://www.instagram.com/jc/";
              source_domains := ["example.com"] |}
           post_id);
    try reflexivity; try discriminate; vm_compute; reflexivity.
Defined.

(** [auth] for a request that names the account by username: with the
    token check it returns the account exactly when some Domain that holds
    the token is one of the account's domains, and aborts with 403
    otherwise; without the token check it returns the account. *)
Theorem auth_by_username load_source cls ds req actor source token :
  request_get req "key" = "" ->
  request_get req "username" = source_id source ->
  source_id source <> "" ->
  source_by_id ds (source_id source) = Some source ->
  get_required_param req "token" = Ok token ->
  (auth load_source cls ds req actor true = Ok source <->
   exists d tokens,
     ds_domains ds !! d = Some tokens /\ token ∈ tokens /\
     d ∈ source_domains source) /\
  (auth load_source cls ds req actor true <> Ok source ->
   auth load_source cls ds req actor true
   = Abort 403 (TokenNotAuthorizedForSource token (source_domains source))) /\
  auth load_source cls ds req actor false = Ok source.
Proof.
  intros Hkey Huser Hne Hsrc Htok. unfold auth.
  rewrite Hkey, Huser. apply String.eqb_neq in Hne. rewrite Hne. simpl.
  rewrite Hne. simpl. rewrite Hsrc, Htok. simpl.
  destruct (existsb _ (map_to_list (ds_domains ds))) eqn:E.
  - split; [|done]. split; [|done]. intros _.
    apply existsb_exists in E as ([d tokens] & Hin & Hd).
    apply andb_true_iff in Hd as [H1 H2].
    apply bool_decide_eq_true in H1, H2. simpl in *.
    exists d, tokens. split; [|done].
    apply elem_of_map_to_list. now apply list_elem_of_In.
  - split; [|done]. split; [done|].
    intros (d & tokens & Hd & Ht & Hs). exfalso.
    assert (existsb (fun kv : string * list string =>
                       bool_decide (token ∈ snd kv)
                       && bool_decide (fst kv ∈ source_domains source))
              (map_to_list (ds_domains ds)) = true) as E'.
    { apply existsb_exists. exists (d, tokens). split.
      - apply list_elem_of_In. now apply elem_of_map_to_list.
      - simpl. apply andb_true_iff. split; now apply bool_decide_eq_true. }
    congruence.
Qed.

Lemma auth_by_username_witness :
  auth sample_load_source instagram sample_datastore sample_request public_actor true
  = Ok {| source_id := "jc";
          source_url := Some "https://www.instagram.com/jc/";
          source_domains := ["example.com"] |}.
Proof.
  destruct (auth_by_username sample_load_source instagram sample_datastore
              sample_request public_actor
              {| source_id := "jc";
                 source_url := Some "https://www.instagram.com/jc/";
                 source_domains := ["example.com"] |} "tok")
    as [Hiff _];
    [reflexivity | reflexivity | discriminate | reflexivity | reflexivity |].
  apply Hiff. exists "example.com", ["tok"].
  split; [vm_compute; reflexivity | split; apply list_elem_of_here].
Defined.

End HandlerExtras.

(** ** util.py: the sign-up flow *)

Module LifecycleClaims.
Import Py Json Web Util Samples.

Section Declined.

Variable json_lex : string -> option (list token).
Variables auth_entity source accounts : Type.
Variable auth_key_urlsafe : auth_entity -> string.
Variables bridgy_path SHORT_NAME label_name bridgy_url key_urlsafe : source -> string.
Variable GR_CLASS_NAME : string.
Variable create_new :
  accounts -> list string -> auth_entity -> list string -> json ->
  accounts * list string * option source.
Variable get_by_urlsafe : accounts -> string -> option source.
Variable add_query_params : string -> list (string * string) -> string.

(** C7: an [add] whose authorization was declined (no auth entity) leaves
    the datastore as it was (accounts and cached pages), sets no cookie,
    returns no source, leaves the handler with a message (the sign-up
    message, unless it held messages already) and redirects: to the
    callback with [result=declined] when the descriptor has one, else to
    the home page with the messages in the fragment. *)
Theorem declined_add_changes_nothing now w h state d :
  decode_state_parameter json_lex state = Ok (Some (JObj d)) ->
  default (JStr "add") (dict_get "operation" d) = JStr "add" ->
  (truthy (default JNull (dict_get "callback" d)) = true ->
   exists c, dict_get "callback" d = Some (JStr c)) ->
  exists h',
    maybe_add_or_delete_source json_lex auth_key_urlsafe bridgy_path SHORT_NAME
      label_name bridgy_url key_urlsafe GR_CLASS_NAME create_new get_by_urlsafe
      add_query_params now w h None state = Ok (w, h', None) /\
    set_cookie h' = set_cookie h /\
    request_logins h' = request_logins h /\
    messages h' <> [] /\
    (messages h = [] ->
     messages h' = ["OK, you're not signed up. Hope you reconsider!"]) /\
    (messages h <> [] -> messages h' = messages h) /\
    location h' =
      Some (match dict_get "callback" d with
            | Some (JStr c) =>
                if String.eqb c "" then
                  ("/#!" ++ quote (String.concat newline (messages h')))%string
                else add_query_params c [("result", "declined")]
            | _ => ("/#!" ++ quote (String.concat newline (messages h')))%string
            end).
Proof.
  intros Hdec Hop Hcb. unfold maybe_add_or_delete_source.
  rewrite Hdec. simpl. rewrite Hop.
  set (h1 := match messages h with
             | [] => add_message "OK, you're not signed up. Hope you reconsider!" h
             | _ :: _ => h
             end).
  assert (Hm : messages h1 <> [] /\
               (messages h = [] ->
                messages h1 = ["OK, you're not signed up. Hope you reconsider!"]) /\
               (messages h <> [] -> messages h1 = messages h) /\
               set_cookie h1 = set_cookie h /\ request_logins h1 = request_logins h).
  { unfold h1. destruct (messages h) as [|m ms] eqn:Hmsgs.
    - unfold add_message. rewrite Hmsgs. simpl. repeat split; done.
    - rewrite Hmsgs. repeat split; done. }
  destruct Hm as (Hne & Hempty & Hsame & Hck & Hrl).
  destruct (truthy (default JNull (dict_get "callback" d))) eqn:Ht.
  - destruct (Hcb eq_refl) as (c & Hc). rewrite Hc in Ht |- *. simpl in Ht |- *.
    exists (super_redirect (add_query_params c [("result", "declined")]) h1).
    repeat split; try done.
    simpl. destruct (String.eqb c ""); [done|reflexivity].
  - exists (redirect "/" h1).
    assert (Hloc : location (redirect "/" h1)
                   = Some ("/#!" ++ quote (String.concat newline (messages h1)))%string
            /\ messages (redirect "/" h1) = messages h1
            /\ set_cookie (redirect "/" h1) = set_cookie h1
            /\ request_logins (redirect "/" h1) = request_logins h1).
    { unfold redirect. destruct (messages h1) eqn:Hm1; [done|]. simpl.
      rewrite Hm1. done. }
    destruct Hloc as (Hloc & Hmsg & Hck' & Hrl').
    split; [reflexivity|]. rewrite Hck', Hrl', Hmsg, Hloc.
    repeat split; try done.
    destruct (dict_get "callback" d) as [[| | |c| |]|]; try reflexivity.
    simpl in Ht. apply negb_false_iff in Ht. now rewrite Ht.
Qed.

End Declined.

(** C7 at an example: a declined sign-up with a callback. *)
Lemma declined_add_changes_nothing_witness :
  exists h',
    maybe_add_or_delete_source ascii_lex (fun _ : unit => "") (fun _ : unit => "")
      (fun _ => "") (fun _ => "") (fun _ => "") (fun _ => "") "Twitter"
      (fun (a : unit) msgs _ _ _ => (a, msgs, None)) (fun _ _ => None)
      sample_add_query_params 0%Z (Build_world tt ∅) fresh_handler None
      (encode_state_parameter ascii_render (JObj descriptor_with_callback))
    = Ok (Build_world tt ∅, h', None) /\
    location h' = Some "http://example.com/done?result=declined" /\
    set_cookie h' = None.
Proof.
  destruct (declined_add_changes_nothing ascii_lex unit unit unit
              (fun _ => "") (fun _ => "") (fun _ => "") (fun _ => "") (fun _ => "")
              (fun _ => "") "Twitter" (fun a msgs _ _ _ => (a, msgs, None))
              (fun _ _ => None) sample_add_query_params 0%Z (Build_world tt ∅)
              fresh_handler
              (encode_state_parameter ascii_render (JObj descriptor_with_callback))
              [("callback", JStr "http://example.com/done"); ("colour", JStr "green");
               ("feature", JStr "listen"); ("operation", JStr "add")])
    as (h' & Hrun & Hck & _ & _ & _ & _ & Hloc).
  - vm_compute. reflexivity.
  - reflexivity.
  - intros _. eexists. reflexivity.
  - exists h'. split; [exact Hrun|]. split; [exact Hloc | exact Hck].
Defined.

End LifecycleClaims.

(** ** util.py: the state parameter *)

Module StateClaims.
Import Py Json Web Util Samples PyFacts DictFacts SortFacts MergeFacts JsonFacts.

Lemma dict_get_map_snd {A B} (f : A -> B) k (d : dict A) :
  dict_get k (map (fun kv => (fst kv, f (snd kv))) d) = option_map f (dict_get k d).
Proof.
  induction d as [|[k0 v0] d IH]; simpl; [done|].
  now destruct (String.eqb k k0).
Qed.

Lemma dict_get_filter {A} (p : A -> bool) k (d : dict A) :
  NoDup (dict_keys d) ->
  dict_get k (List.filter (fun kv => p (snd kv)) d)
  = match dict_get k d with
    | Some v => if p v then Some v else None
    | None => None
    end.
Proof.
  induction d as [|[k0 v0] d IH]; simpl; [done|].
  rewrite NoDup_cons. intros [Hk0 Hnd].
  destruct (String.eqb k k0) eqn:E.
  - apply String.eqb_eq in E; subst k0.
    destruct (p v0); simpl; [now rewrite String.eqb_refl|].
    rewrite IH by done. apply dict_get_None in Hk0. now rewrite Hk0.
  - destruct (p v0); simpl; [rewrite E|]; now apply IH.
Qed.

(** The fields of [trim_nulls(d)] as [loads] reads them back. *)
Lemma canon_trim_get d k :
  NoDup (dict_keys d) ->
  obj_get k (canon (trim_nulls (JObj d)))
  = match dict_get k d with
    | Some v => if is_null (trim_nulls v) then None else Some (canon (trim_nulls v))
    | None => None
    end.
Proof.
  intros Hnd. cbn [trim_nulls canon obj_get].
  set (t := List.filter _ _).
  assert (Hndt : NoDup (dict_keys t)).
  { unfold t, dict_keys. apply NoDup_keys_filter. now rewrite keys_map_snd. }
  rewrite (dict_get_perm k _ _ (sort_by_key_perm _))
    by (unfold dict_keys in *; now rewrite sort_by_key_perm, keys_map_snd).
  rewrite dict_get_map_snd. unfold t.
  rewrite (dict_get_filter (fun v => negb (is_null v)))
    by (unfold dict_keys; now rewrite keys_map_snd).
  rewrite dict_get_map_snd.
  destruct (dict_get k d) as [v|]; simpl; [|done].
  now destruct (is_null (trim_nulls v)).
Qed.

Lemma trim_perm d d' :
  d ≡ₚ d' ->
  List.filter (fun kv : string * json => negb (is_null (snd kv)))
    (map (fun kv => (fst kv, trim_nulls (snd kv))) d)
  ≡ₚ List.filter (fun kv : string * json => negb (is_null (snd kv)))
    (map (fun kv => (fst kv, trim_nulls (snd kv))) d').
Proof.
  intros Hp.
  induction Hp as [|x l l' _ IH|x y l|l l' l'' _ IH1 _ IH2]; simpl.
  - done.
  - destruct (negb _); [now constructor | done].
  - destruct (negb (is_null (trim_nulls (snd y)))), (negb (is_null (trim_nulls (snd x))));
      try done. apply perm_swap.
  - now rewrite IH1.
Qed.

Section StateParameter.

Variable json_render : list token -> string.
Variable json_lex : string -> option (list token).

Lemma decode_encode d :
  wf (JObj d) ->
  json_lex (encode_state_parameter json_render (JObj d))
    = Some (dumps (trim_nulls (JObj d))) ->
  encode_state_parameter json_render (JObj d) <> "" ->
  decode_state_parameter json_lex (encode_state_parameter json_render (JObj d))
  = Ok (Some (canon (trim_nulls (JObj d)))).
Proof.
  intros Hwf Hlex Hne. unfold decode_state_parameter.
  apply String.eqb_neq in Hne. rewrite Hne, Hlex.
  rewrite (loads_dumps _ (wf_trim _ Hwf)). reflexivity.
Qed.

Lemma encode_canon_trim d :
  wf (JObj d) ->
  encode_state_parameter json_render (canon (trim_nulls (JObj d)))
  = encode_state_parameter json_render (JObj d).
Proof.
  intros Hwf. unfold encode_state_parameter. f_equal.
  rewrite trim_trimmed by apply trimmed_canon, trimmed_trim.
  apply dumps_canon, wf_trim, Hwf.
Qed.

(** C6 (as amended): for a descriptor dict [d] whose text the json module
    reads back as the tokens it printed, the encoding lists the fields in
    ascending order of key and does not depend on the order the dict was
    filled in; decoding the encoding gives a dict that holds every field
    of [d], known or not, whose trimmed value is not null or empty (with
    that value, so a non-empty string as it was) and none of the fields
    whose value is null or empty; and encoding the decoded dict gives the
    same text again. *)
Theorem state_parameter_round_trip d :
  wf (JObj d) ->
  json_lex (encode_state_parameter json_render (JObj d))
    = Some (dumps (trim_nulls (JObj d))) ->
  encode_state_parameter json_render (JObj d) <> "" ->
  (exists members,
     encode_state_parameter json_render (JObj d)
       = json_render (TLBrace :: join_tokens TComma (map member_tokens members)
                        ++ [TRBrace]) /\
     StronglySorted str_lt (map fst members)) /\
  (forall d', d ≡ₚ d' ->
     encode_state_parameter json_render (JObj d')
       = encode_state_parameter json_render (JObj d)) /\
  exists decoded,
    decode_state_parameter json_lex (encode_state_parameter json_render (JObj d))
      = Ok (Some (JObj decoded)) /\
    (forall k,
       dict_get k decoded
       = match dict_get k d with
         | Some v =>
             if is_null (trim_nulls v) then None else Some (canon (trim_nulls v))
         | None => None
         end) /\
    (forall k s, dict_get k d = Some (JStr s) -> s <> "" ->
       dict_get k decoded = Some (JStr s)) /\
    encode_state_parameter json_render (JObj decoded)
      = encode_state_parameter json_render (JObj d).
Proof.
  intros Hwf Hlex Hne.
  pose proof Hwf as Hwf'. apply wf_obj in Hwf' as [Hnd _].
  split; [|split].
  - unfold encode_state_parameter. cbn [trim_nulls dumps].
    eexists. split; [reflexivity|].
    apply sort_by_key_sorted. rewrite keys_map_snd.
    apply NoDup_keys_filter. now rewrite keys_map_snd.
  - intros d' Hp. unfold encode_state_parameter. f_equal.
    cbn [trim_nulls]. rewrite !dumps_obj. do 4 f_equal.
    apply sort_by_key_perm_eq; [symmetry; now apply trim_perm|].
    apply NoDup_keys_filter. rewrite keys_map_snd.
    unfold dict_keys in Hnd. now rewrite <- Hp.
  - pose proof (decode_encode d Hwf Hlex Hne) as Hdec.
    pose proof (encode_canon_trim d Hwf) as Henc.
    pose proof (canon_trim_get d) as Hget.
    destruct (canon (trim_nulls (JObj d))) as [| | | | |decoded] eqn:E; try discriminate E.
    exists decoded. split; [exact Hdec|]. split; [|split].
    + intros k. exact (Hget k Hnd).
    + intros k s Hk Hs. specialize (Hget k Hnd). simpl in Hget. rewrite Hget, Hk.
      simpl. apply String.eqb_neq in Hs. now rewrite Hs.
    + exact Henc.
Qed.

End StateParameter.

(** C6 at an example, with the lexical layer for ASCII text: the unknown
    field [colour] comes back. *)
Lemma state_parameter_round_trip_witness :
  exists decoded,
    decode_state_parameter ascii_lex
      (encode_state_parameter ascii_render (JObj descriptor_with_callback))
    = Ok (Some (JObj decoded)) /\
    dict_get "colour" decoded = Some (JStr "green") /\
    encode_state_parameter ascii_render (JObj decoded)
    = encode_state_parameter ascii_render (JObj descriptor_with_callback).
Proof.
  destruct (state_parameter_round_trip ascii_render ascii_lex descriptor_with_callback)
    as (_ & _ & decoded & Hdec & _ & Hstr & Henc).
  - apply wf_obj. split; [|repeat constructor].
    apply (bool_decide_unpack _). vm_compute. exact I.
  - vm_compute. reflexivity.
  - vm_compute. discriminate.
  - exists decoded. split; [exact Hdec|]. split; [|exact Henc].
    apply Hstr; [reflexivity | discriminate].
Defined.

(** C6 as stated fails: an unknown field whose value is the empty string
    is dropped by the encoding and is not in the decoded dict; and a text
    that does carry such a field decodes to a dict with the field, which
    encoding drops again. *)
Lemma empty_field_is_dropped :
  dict_get "note" descriptor_with_empty_field = Some (JStr "") /\
  decode_state_parameter ascii_lex
    (encode_state_parameter ascii_render (JObj descriptor_with_empty_field))
  = Ok (Some (JObj [("operation", JStr "add")])) /\
  decode_state_parameter ascii_lex
    (ascii_render (dumps (JObj descriptor_with_empty_field)))
  = Ok (Some (JObj [("note", JStr ""); ("operation", JStr "add")])) /\
  encode_state_parameter ascii_render
    (JObj [("note", JStr ""); ("operation", JStr "add")])
  = ascii_render (dumps (JObj [("operation", JStr "add")])).
Proof. repeat split; vm_compute; reflexivity. Qed.

End StateClaims.

(** ** util.py: the logins cookie *)

Module LoginFacts.
Import Py Json Web Util Samples PyFacts SortFacts.

Lemma unquote_quote_char c r k :
  unquote_plus (quote_plus (String c r) ++ k)
  = String c (unquote_plus (quote_plus r ++ k)).
Proof.
  destruct c as [[] [] [] [] [] [] [] []]; reflexivity.
Qed.

Lemma unquote_quote_plus n k :
  unquote_plus (quote_plus n ++ k) = (n ++ unquote_plus k)%string.
Proof.
  induction n as [|c n IH]; [reflexivity|].
  rewrite unquote_quote_char, IH. reflexivity.
Qed.

Lemma unquote_plus_char c r :
  Ascii.eqb c "%" = false -> Ascii.eqb c "+" = false ->
  unquote_plus (String c r) = String c (unquote_plus r).
Proof.
  intros H1 H2. unfold unquote_plus. cbn [plus_to_space]. rewrite H2.
  cbn [unquote]. now rewrite H1.
Qed.

Lemma append_cons c (a b : string) : (String c a ++ b)%string = String c (a ++ b)%string.
Proof. reflexivity. Qed.

Lemma append_nil (b : string) : (EmptyString ++ b)%string = b.
Proof. reflexivity. Qed.

Lemma append_assoc (a b c : string) : ((a ++ b) ++ c)%string = (a ++ (b ++ c))%string.
Proof.
  induction a as [|x a IH]; [reflexivity|]. rewrite !append_cons. now rewrite IH.
Qed.

Lemma unquote_plus_plain p r :
  all_chars (fun c => negb (Ascii.eqb c "%" || Ascii.eqb c "+")) p = true ->
  unquote_plus (p ++ r) = (p ++ unquote_plus r)%string.
Proof.
  induction p as [|c p IH]; cbn [all_chars]; [done|].
  intros H. apply andb_true_iff in H as [Hc Hp].
  apply negb_true_iff, orb_false_iff in Hc as [H1 H2].
  rewrite !append_cons, unquote_plus_char by done. now rewrite IH.
Qed.

Lemma all_chars_app p a b :
  all_chars p (a ++ b) = (all_chars p a && all_chars p b)%bool.
Proof.
  induction a as [|c a IH]; [done|].
  rewrite append_cons. cbn [all_chars]. now rewrite IH, andb_assoc.
Qed.

Lemma all_chars_impl (p q : ascii -> bool) s :
  (forall c, p c = true -> q c = true) -> all_chars p s = true -> all_chars q s = true.
Proof.
  intros Hpq. induction s as [|c s IH]; simpl; [done|].
  intros H. apply andb_true_iff in H as [Hc Hs].
  apply andb_true_iff. auto.
Qed.

Lemma path_char_not_quoted c :
  is_path_char c = true -> negb (Ascii.eqb c "%" || Ascii.eqb c "+") = true.
Proof.
  unfold is_path_char. rewrite !negb_true_iff, !orb_false_iff. tauto.
Qed.

Lemma path_char_not c x :
  is_path_char c = true ->
  x = "|"%char \/ x = "?"%char \/ x = "/"%char -> Ascii.eqb c x = false.
Proof.
  unfold is_path_char, is_delimiter.
  rewrite !negb_true_iff, !orb_false_iff. intros [[[[H1 H2] H3] _] _].
  intros [->|[->| ->]]; done.
Qed.

(** The entry of a plain login unquotes to its text, whatever follows. *)
Lemma unquote_login_entry l k :
  plain_login l ->
  unquote_plus (login_entry l ++ k) = (login_text l ++ unquote_plus k)%string.
Proof.
  intros (key & Hpath & _ & _ & Hsite & Hkey & _).
  unfold login_entry, login_text.
  rewrite !append_assoc.
  rewrite unquote_plus_plain.
  - f_equal. rewrite append_cons, append_nil, unquote_plus_char by done.
    now rewrite unquote_quote_plus.
  - rewrite Hpath. rewrite !all_chars_app.
    cbn [all_chars]. rewrite andb_true_r.
    rewrite (all_chars_impl _ _ _ path_char_not_quoted Hsite).
    rewrite (all_chars_impl _ _ _ path_char_not_quoted Hkey). reflexivity.
Qed.


Lemma append_nil_r (a : string) : (a ++ "")%string = a.
Proof. induction a as [|x a IH]; [reflexivity|]. now rewrite append_cons, IH. Qed.

Lemma concat_cons2 sep (x y : string) l :
  String.concat sep (x :: y :: l) = (x ++ sep ++ String.concat sep (y :: l))%string.
Proof. reflexivity. Qed.

Lemma unquote_logins_value L :
  Forall plain_login L ->
  unquote_plus (String.concat "|" (map login_entry L))
  = String.concat "|" (map login_text L).
Proof.
  induction L as [|l L IH]; intros Hall; [reflexivity|].
  apply Forall_cons in Hall as [Hl Hall].
  destruct L as [|l' L].
  - cbn [map String.concat]. rewrite <- (append_nil_r (login_entry l)).
    rewrite unquote_login_entry by done. apply append_nil_r.
  - cbn [map] in *. rewrite !concat_cons2.
    rewrite unquote_login_entry by done. f_equal.
    rewrite append_cons, append_nil, unquote_plus_char by done.
    rewrite append_cons, append_nil. f_equal. now apply IH.
Qed.

Lemma split_on_none c s :
  all_chars (fun x => negb (Ascii.eqb x c)) s = true -> split_on c s = [s].
Proof.
  induction s as [|x s IH]; cbn [all_chars split_on]; [done|].
  intros H. apply andb_true_iff in H as [Hx Hs]. apply negb_true_iff in Hx.
  now rewrite Hx, IH.
Qed.

Lemma split_on_app c a b :
  all_chars (fun x => negb (Ascii.eqb x c)) a = true ->
  split_on c (a ++ String c b) = a :: split_on c b.
Proof.
  induction a as [|x a IH]; cbn [all_chars].
  - intros _. rewrite append_nil. cbn [split_on]. now rewrite Ascii.eqb_refl.
  - intros H. apply andb_true_iff in H as [Hx Ha]. apply negb_true_iff in Hx.
    rewrite append_cons. cbn [split_on]. now rewrite Hx, IH.
Qed.

Lemma split_on_concat c T :
  T <> [] -> Forall (fun t => all_chars (fun x => negb (Ascii.eqb x c)) t = true) T ->
  split_on c (String.concat (String c "") T) = T.
Proof.
  induction T as [|t T IH]; [done|]. intros _ Hall.
  apply Forall_cons in Hall as [Ht Hall].
  destruct T as [|t' T].
  - cbn [String.concat]. now apply split_on_none.
  - rewrite concat_cons2, append_cons, append_nil.
    rewrite split_on_app by done. f_equal. now apply IH.
Qed.

Lemma lstrip_keep c s :
  match s with String x _ => Ascii.eqb x c = false | EmptyString => True end ->
  lstrip c s = s.
Proof. destruct s as [|x s]; cbn [lstrip]; [done|]. now intros ->. Qed.

Lemma rstrip_keep_all c b :
  all_chars (fun x => negb (Ascii.eqb x c)) b = true -> rstrip c b = b.
Proof.
  induction b as [|x b IH]; cbn [all_chars rstrip]; [done|].
  intros H. apply andb_true_iff in H as [Hx Hb]. apply negb_true_iff in Hx.
  rewrite IH by done. destruct b; [now rewrite Hx | done].
Qed.

Lemma rstrip_keep c a b :
  b <> "" -> all_chars (fun x => negb (Ascii.eqb x c)) b = true ->
  rstrip c (a ++ b) = (a ++ b)%string.
Proof.
  intros Hne Hb. induction a as [|x a IH].
  - rewrite append_nil. now apply rstrip_keep_all.
  - rewrite append_cons. cbn [rstrip]. rewrite IH.
    destruct (a ++ b)%string eqn:E; [|done].
    destruct a; [|discriminate E]. rewrite append_nil in E. done.
Qed.

Lemma path_chars_no s (x : ascii) :
  x = "|"%char \/ x = "?"%char \/ x = "/"%char ->
  all_chars is_path_char s = true ->
  all_chars (fun y => negb (Ascii.eqb y x)) s = true.
Proof.
  intros Hx. apply all_chars_impl. intros y Hy.
  apply negb_true_iff. now apply path_char_not.
Qed.

Lemma no_delimiter (c x : ascii) :
  x = "|"%char \/ x = "?"%char ->
  negb (is_delimiter c) = true -> negb (Ascii.eqb c x) = true.
Proof.
  unfold is_delimiter. rewrite !negb_true_iff, orb_false_iff.
  intros [->| ->] [H1 H2]; done.
Qed.

(** Reading the text of a plain login gives the login back. *)
Lemma parse_login_text l : plain_login l -> parse_login (login_text l) = Ok l.
Proof.
  intros (key & Hpath & Hs & Hk & Hsite & Hkey & Hname).
  destruct l as [site name path]. cbn [Util.site Util.name Util.path] in *.
  subst path. unfold parse_login, login_text. cbn [Util.path Util.name].
  assert (Hp : all_chars (fun x => negb (Ascii.eqb x "?"))
                 ("/" ++ site ++ "/" ++ key) = true).
  { rewrite !all_chars_app. cbn [all_chars].
    rewrite (path_chars_no site "?") by auto.
    rewrite (path_chars_no key "?") by auto. reflexivity. }
  assert (Hstrip : strip "/" ("/" ++ site ++ "/" ++ key) = (site ++ String "/" key)%string).
  { unfold strip. rewrite append_cons, append_nil. cbn [lstrip].
    rewrite Ascii.eqb_refl.
    change ("/" ++ key)%string with (String "/" key).
    rewrite lstrip_keep.
    - change (String "/" key) with ("/" ++ key)%string.
      rewrite <- append_assoc. rewrite rstrip_keep; [reflexivity | exact Hk |].
      now apply (path_chars_no key "/"); auto.
    - destruct site as [|x site]; [done|]. rewrite append_cons.
      cbn [all_chars] in Hsite. apply andb_true_iff in Hsite as [Hx _].
      apply (path_char_not x "/"); auto. }
  set (p := ("/" ++ site ++ "/" ++ key)%string) in *.
  change ("?" ++ name)%string with (String "?" name).
  rewrite split_on_app by exact Hp.
  rewrite split_on_none
    by (apply (all_chars_impl _ _ _ (fun c => no_delimiter c "?" ltac:(auto)) Hname)).
  rewrite Hstrip.
  rewrite split_on_app by (apply (path_chars_no site "/"); auto).
  rewrite split_on_none by (apply (path_chars_no key "/"); auto).
  reflexivity.
Qed.


Lemma remove_dups_NoDup {A} `{EqDecision A} (l : list A) : NoDup l -> remove_dups l = l.
Proof.
  induction 1 as [|x l Hx _ IH]; [done|]. cbn [remove_dups].
  destruct (decide_rel elem_of x l); [done|]. now rewrite IH.
Qed.

Lemma sort_strings_perm l : sort_strings l ≡ₚ l.
Proof.
  unfold sort_strings. rewrite sort_by_key_perm, map_map. simpl.
  now rewrite map_id.
Qed.

Lemma login_entry_inj l1 l2 :
  plain_login l1 -> plain_login l2 -> login_entry l1 = login_entry l2 -> l1 = l2.
Proof.
  intros H1 H2 E.
  assert (Ok l1 = Ok l2) as [= ->]; [|done].
  rewrite <- (parse_login_text l1 H1), <- (parse_login_text l2 H2).
  f_equal.
  pose proof (unquote_login_entry l1 "" H1) as E1.
  pose proof (unquote_login_entry l2 "" H2) as E2.
  change (unquote_plus "") with "" in E1, E2.
  rewrite !append_nil_r in E1. rewrite !append_nil_r in E2. congruence.
Qed.

Lemma login_text_inj l1 l2 :
  plain_login l1 -> plain_login l2 -> login_text l1 = login_text l2 -> l1 = l2.
Proof.
  intros H1 H2 E.
  assert (Ok l1 = Ok l2) as [= ->]; [|done].
  now rewrite <- (parse_login_text l1 H1), <- (parse_login_text l2 H2), E.
Qed.

Lemma login_text_no_bar l :
  plain_login l -> all_chars (fun x => negb (Ascii.eqb x "|")) (login_text l) = true.
Proof.
  intros (key & Hpath & _ & _ & Hsite & Hkey & Hname). unfold login_text.
  rewrite Hpath, !all_chars_app. cbn [all_chars].
  rewrite (path_chars_no (site l) "|"), (path_chars_no key "|") by auto.
  rewrite (all_chars_impl _ _ _ (fun c => no_delimiter c "|" ltac:(auto)) Hname).
  reflexivity.
Qed.

Lemma parse_logins_texts L :
  Forall plain_login L -> parse_logins (map login_text L) = Ok L.
Proof.
  induction 1 as [|l L Hl _ IH]; [done|].
  cbn [map parse_logins]. now rewrite (parse_login_text l Hl), IH.
Qed.

Lemma logins_value_not_empty l L :
  plain_login l ->
  String.eqb (String.concat "|" (map login_entry (l :: L))) "" = false.
Proof.
  intros (key & Hpath & _). 
  assert (exists r, login_entry l = String "/" r) as [r Hr].
  { unfold login_entry. rewrite Hpath. rewrite !append_cons. eauto. }
  destruct L as [|l' L]; cbn [map].
  - cbn [String.concat]. now rewrite Hr.
  - rewrite concat_cons2, Hr, append_cons. reflexivity.
Qed.

(** For logins whose paths are plain [/site/key] paths and whose names hold
    no delimiter, the cookie that [set_logins] writes expires two years
    (730 days) later and is read back by [get_logins] as the same logins,
    each once, in some order. *)
Theorem plain_logins_round_trip t logins :
  Forall plain_login logins ->
  cookie_expires (set_logins t logins) = (t + timedelta_days 730)%Z /\
  exists out,
    get_logins (cookie_sent_back (set_logins t logins)) = Ok out /\
    out ≡ₚ remove_dups logins.
Proof.
  intros Hall. split; [reflexivity|].
  assert (Hinj : forall x y, x ∈ remove_dups logins -> y ∈ remove_dups logins ->
                   login_entry x = login_entry y -> x = y).
  { rewrite Forall_forall in Hall. intros x y Hx Hy.
    rewrite elem_of_remove_dups in Hx, Hy. apply login_entry_inj; now apply Hall. }
  assert (Hperm : sort_strings (remove_dups (map login_entry logins))
                  ≡ₚ map login_entry (remove_dups logins)).
  { rewrite sort_strings_perm. apply NoDup_Permutation.
    - apply NoDup_remove_dups.
    - apply NoDup_fmap_2_strong; [exact Hinj | apply NoDup_remove_dups].
    - intros e. rewrite elem_of_remove_dups, !list_elem_of_fmap.
      split; intros (x & -> & Hx); exists x; (split; [done|]);
        rewrite elem_of_remove_dups in *; exact Hx. }
  apply Permutation_map_inv in Hperm as (L & HL & HpL).
  assert (HallL : Forall plain_login L).
  { rewrite Forall_forall in Hall |- *. intros x Hx. apply Hall.
    rewrite <- HpL, elem_of_remove_dups in Hx. exact Hx. }
  assert (HndL : NoDup L) by (rewrite <- HpL; apply NoDup_remove_dups).
  exists L. split; [|now symmetry].
  unfold cookie_sent_back, set_logins, get_logins, logins_value. cbn [cookie_value].
  rewrite HL. destruct L as [|l L]; [reflexivity|].
  rewrite (logins_value_not_empty l L) by (now apply Forall_inv in HallL).
  rewrite unquote_logins_value by done.
  change "|" with (String "|"%char "") at 1.
  rewrite split_on_concat.
  - rewrite remove_dups_NoDup; [now apply parse_logins_texts|].
    apply NoDup_fmap_2_strong; [|done].
    rewrite Forall_forall in HallL. intros x y Hx Hy.
    apply login_text_inj; now apply HallL.
  - done.
  - apply Forall_fmap. eapply Forall_impl; [exact HallL|].
    intros x Hx. now apply login_text_no_bar.
Qed.

Lemma plain_logins_round_trip_witness :
  exists out,
    get_logins (cookie_sent_back (set_logins 0%Z sample_logins)) = Ok out /\
    out ≡ₚ remove_dups sample_logins.
Proof.
  apply (plain_logins_round_trip 0%Z sample_logins).
  repeat constructor.
  - exists "snarfed". repeat split; try discriminate.
  - exists "212038". repeat split; try discriminate.
  - exists "snarfed". repeat split; try discriminate.
Defined.

End LoginFacts.

Module LoginClaims.
Import Py Json Web Util.

(** C10 at inputs where it fails: a login whose name holds [|] or [?]
    is written with the name quoted, but [get_logins] unquotes the whole
    cookie value before it splits on [|] and [?], so reading the cookie
    back raises ValueError; and a [+] in the path, which [set_logins] does
    not quote, comes back as a blank. *)
Theorem logins_cookie_not_delimiter_safe :
  get_logins (cookie_sent_back (set_logins 0%Z
    [{| site := "twitter"; name := "a|b"; path := "/twitter/a|b" |}]))
  = Raise "ValueError" /\
  get_logins (cookie_sent_back (set_logins 0%Z
    [{| site := "facebook"; name := "Who?"; path := "/facebook/123" |}]))
  = Raise "ValueError" /\
  get_logins (cookie_sent_back (set_logins 0%Z
    [{| site := "twitter"; name := "a+b"; path := "/twitter/a+b" |}]))
  = Ok [{| site := "twitter"; name := "a+b"; path := "/twitter/a b" |}].
Proof. repeat split; vm_compute; reflexivity. Qed.

End LoginClaims.

(** ** browser.py: merging in steps *)

(** *** browser.py: merging in batches *)

Module MergeAlgebra.
Import Py Json Web Browser Samples PyFacts DictFacts SortFacts MergeFacts MergeSpec.
#[local] Arguments ids : simpl never.

Lemma first_with_id_None k os : first_with_id k os = None <-> k ∉ ids os.
Proof.
  induction os as [|o os IH]; cbn [first_with_id].
  - split; [intros _; apply not_elem_of_nil | done].
  - rewrite ids_cons. destruct (item_id o) as [k'|]; [|done].
    rewrite not_elem_of_cons. destruct (String.eqb k k') eqn:E.
    + apply String.eqb_eq in E. split; [done | tauto].
    + apply String.eqb_neq in E. tauto.
Qed.

Lemma first_with_id_in k os o : first_with_id k os = Some o -> k ∈ ids os.
Proof.
  intros H. destruct (decide (k ∈ ids os)) as [|Hn]; [done|].
  apply first_with_id_None in Hn. congruence.
Qed.

(** On a list with one object per id the first and the last object of an
    id are the same. *)
Lemma last_first_sorted k os :
  StronglySorted str_lt (ids os) -> last_with_id k os = first_with_id k os.
Proof.
  induction os as [|o os IH]; [done|].
  rewrite ids_cons. cbn [last_with_id first_with_id].
  destruct (item_id o) as [k'|] eqn:Hk.
  - intros Hs. apply StronglySorted_inv in Hs as [Hs Hall].
    rewrite IH by done.
    destruct (String.eqb k k') eqn:E.
    + apply String.eqb_eq in E; subst k'.
      assert (k ∉ ids os) as Hn.
      { intros Hin. rewrite Forall_forall in Hall. apply Hall in Hin.
        now apply str_lt_irrefl in Hin. }
      apply first_with_id_None in Hn. now rewrite Hn.
    + now destruct (first_with_id k os).
  - intros Hs. rewrite IH by done. now destruct (first_with_id k os).
Qed.

(** A list in ascending order of id is determined by the object it holds
    under every id. *)
Lemma sorted_by_id_unique a : forall b,
  Forall has_id a -> Forall has_id b ->
  StronglySorted str_lt (ids a) -> StronglySorted str_lt (ids b) ->
  (forall k, first_with_id k a = first_with_id k b) -> a = b.
Proof.
  induction a as [|x a IH]; intros [|y b] Ha Hb Hsa Hsb Heq.
  - done.
  - apply Forall_cons in Hb as [[ky Hy] _]. specialize (Heq ky).
    cbn [first_with_id] in Heq. rewrite Hy, String.eqb_refl in Heq. done.
  - apply Forall_cons in Ha as [[kx Hx] _]. specialize (Heq kx).
    cbn [first_with_id] in Heq. rewrite Hx, String.eqb_refl in Heq. done.
  - apply Forall_cons in Ha as [[kx Hx] Ha]. apply Forall_cons in Hb as [[ky Hy] Hb].
    rewrite ids_cons, Hx in Hsa. rewrite ids_cons, Hy in Hsb.
    apply StronglySorted_inv in Hsa as [Hsa Hla]. apply StronglySorted_inv in Hsb as [Hsb Hlb].
    rewrite Forall_forall in Hla, Hlb.
    assert (kx = ky) as <-.
    { destruct (String.eqb kx ky) eqn:E; [now apply String.eqb_eq in E|]. exfalso.
      pose proof (Heq kx) as H1. pose proof (Heq ky) as H2.
      cbn [first_with_id] in H1, H2.
      rewrite Hx, Hy, String.eqb_refl, E in H1.
      rewrite Hx, Hy, String.eqb_refl, String.eqb_sym, E in H2.
      symmetry in H1. apply first_with_id_in, Hlb in H1.
      apply first_with_id_in, Hla in H2.
      exact (str_lt_irrefl _ (str_lt_trans _ _ _ H1 H2)). }
    assert (x = y) as <-.
    { specialize (Heq kx). cbn [first_with_id] in Heq.
      rewrite Hx, Hy, String.eqb_refl in Heq. congruence. }
    f_equal. apply IH; try done.
    intros k. specialize (Heq k). cbn [first_with_id] in Heq. rewrite Hx in Heq.
    destruct (String.eqb k kx) eqn:E; [|done].
    apply String.eqb_eq in E; subst k.
    assert (kx ∉ ids a) as Hna by (intros Hin; apply Hla in Hin; now apply str_lt_irrefl in Hin).
    assert (kx ∉ ids b) as Hnb by (intros Hin; apply Hlb in Hin; now apply str_lt_irrefl in Hin).
    apply first_with_id_None in Hna, Hnb. congruence.
Qed.

(** [merge_by_id] on objects that all carry ids: merging two batches of
    updates one after the other gives the same list as merging the second
    batch into the first and the result into the existing objects; merging
    the same updates a second time changes nothing; and merging no updates
    into a merged list changes nothing. *)
Theorem merge_by_id_composes a b c :
  Forall has_id a -> Forall has_id b -> Forall has_id c ->
  exists ab bc abc,
    merge_by_id a b = Some ab /\ merge_by_id b c = Some bc /\
    merge_by_id ab c = Some abc /\ merge_by_id a bc = Some abc /\
    merge_by_id ab b = Some ab /\
    merge_by_id abc [] = Some abc.
Proof.
  intros Ha Hb Hc.
  destruct (merge_by_id_map a b Ha Hb) as (ab & Hab & Gab & Sab & Iab & _).
  destruct (merge_by_id_map b c Hb Hc) as (bc & Hbc & Gbc & Sbc & Ibc & _).
  destruct (merge_by_id_map ab c Iab Hc) as (l & Hl & Gl & Sl & Il & _).
  destruct (merge_by_id_map a bc Ha Ibc) as (r & Hr & Gr & Sr & Ir & _).
  destruct (merge_by_id_map ab b Iab Hb) as (abb & Habb & Gabb & Sabb & Iabb & _).
  destruct (merge_by_id_map l [] Il (Forall_nil_2 _)) as (l0 & Hl0 & Gl0 & Sl0 & Il0 & _).
  assert (l = r) as <-.
  { apply sorted_by_id_unique; try done. intros k.
    rewrite Gl, Gr, (last_first_sorted k ab), (last_first_sorted k bc), Gab, Gbc by done.
    now destruct (last_with_id k c), (last_with_id k b). }
  assert (abb = ab) as ->.
  { apply sorted_by_id_unique; try done. intros k.
    rewrite Gabb, (last_first_sorted k ab), Gab by done.
    now destruct (last_with_id k b). }
  assert (l0 = l) as ->.
  { apply sorted_by_id_unique; try done. intros k.
    rewrite Gl0. simpl. now apply last_first_sorted. }
  now exists ab, bc, l.
Qed.

Lemma merge_by_id_composes_witness :
  exists ab bc abc,
    merge_by_id [reply "1" "a"] [reply "2" "b"] = Some ab /\
    merge_by_id [reply "2" "b"] [reply "1" "c"] = Some bc /\
    merge_by_id ab [reply "1" "c"] = Some abc /\
    merge_by_id [reply "1" "a"] bc = Some abc /\
    merge_by_id ab [reply "2" "b"] = Some ab.
Proof.
  destruct (merge_by_id_composes [reply "1" "a"] [reply "2" "b"] [reply "1" "c"])
    as (ab & bc & abc & H1 & H2 & H3 & H4 & H5 & _);
    [repeat first [constructor | eexists; reflexivity] ..|].
  exists ab, bc, abc. auto.
Defined.

End MergeAlgebra.

(** ** util.py: storing and loading cached pages *)

(** *** util.py: the page cache and remote fetches *)

Module CacheExtras.
Import Py Json Web Util.

(** A page stored with no ttl, or loaded no later than its expiry, is
    loaded as it was stored and stays in the cache; a second [store]
    replaces the first; [invalidate] makes the next [load] find nothing;
    and neither [store] nor [invalidate] nor [load] of one path changes
    what is cached under another. *)
Theorem store_then_load now0 ttl now1 path page_html (pages : gmap string CachedPage) :
  match ttl with Some d => (now1 <= now0 + d)%Z | None => True end ->
  load now1 path (store now0 path page_html ttl pages)
    = (Some {| html := page_html;
               expires := match ttl with Some d => Some (now0 + d)%Z | None => None end |},
       store now0 path page_html ttl pages) /\
  (forall now2 html2 ttl2,
     store now2 path html2 ttl2 (store now0 path page_html ttl pages)
     = store now2 path html2 ttl2 pages) /\
  load now1 path (invalidate path (store now0 path page_html ttl pages))
    = (None, invalidate path pages) /\
  (forall other, other <> path ->
     store now0 path page_html ttl pages !! other = pages !! other /\
     invalidate path pages !! other = pages !! other /\
     (load now1 path pages).2 !! other = pages !! other).
Proof.
  intros Hfresh. split; [|split; [|split]].
  - unfold load, store. rewrite lookup_insert_eq. simpl.
    destruct ttl as [d|]; [|done].
    destruct (Z.ltb_spec (now0 + d) now1); [lia | done].
  - intros now2 html2 ttl2. unfold store. apply insert_insert_eq.
  - unfold invalidate, store, load. rewrite delete_insert_eq, lookup_delete_eq.
    done.
  - intros other Hne. split; [|split].
    + unfold store. now apply lookup_insert_ne.
    + unfold invalidate. now apply lookup_delete_ne.
    + unfold load. destruct (pages !! path) as [cached|]; [|done].
      destruct (expires cached) as [e|]; [|done].
      destruct (Z.ltb e now1); [|done]. simpl. now apply lookup_delete_ne.
Qed.

Lemma store_then_load_witness :
  load 160%Z "/users" (store 100%Z "/users" "<html>" (Some 60%Z) ∅)
  = (Some {| html := "<html>"; expires := Some 160%Z |},
     store 100%Z "/users" "<html>" (Some 60%Z) ∅).
Proof. apply (store_then_load 100 (Some 60%Z) 160 "/users" "<html>" ∅). simpl. lia. Defined.

End CacheExtras.

(** ** util.py: fetches that pass through *)

Module FetchExtras.
Import Py Json Web Util Samples MoreSamples DictFacts.

(** A fetch of a URL that is not blacklisted, whose response announces no
    Content-Length, one that is no integer, or one within the limit:
    [requests_get] makes the one request and returns the response as it
    came; the request carries Bridgy's User-Agent, whatever User-Agent the
    caller passed, and the caller's other headers, and the caller's
    timeout if there is one. *)
Theorem requests_get_passes_through HTTP_TIMEOUT requests_dot_get url kw_headers kw_timeout :
  url ∉ URL_BLACKLIST ->
  (forall n,
     py_int (default "0" (header_get "Content-Length"
               (headers (requests_dot_get url (dict_update kw_headers USER_AGENT_HEADER)
                           (default HTTP_TIMEOUT kw_timeout))))) = Some n ->
     (n <= MAX_HTTP_RESPONSE_SIZE)%Z) ->
  requests_get HTTP_TIMEOUT requests_dot_get url kw_headers kw_timeout
  = (requests_dot_get url (dict_update kw_headers USER_AGENT_HEADER)
       (default HTTP_TIMEOUT kw_timeout),
     [Requested url (dict_update kw_headers USER_AGENT_HEADER)
        (default HTTP_TIMEOUT kw_timeout)]) /\
  dict_get "User-Agent" (dict_update kw_headers USER_AGENT_HEADER)
  = Some "Bridgy (https://brid.gy/about)" /\
  (forall k, k <> "User-Agent" ->
     dict_get k (dict_update kw_headers USER_AGENT_HEADER) = dict_get k kw_headers).
Proof.
  intros Hb Hsize. split; [|split].
  - unfold requests_get. rewrite bool_decide_eq_false_2 by done.
    set (resp := requests_dot_get _ _ _) in *.
    destruct (py_int _) as [n|] eqn:Hn; [|done].
    specialize (Hsize n eq_refl).
    destruct (Z.ltb_spec MAX_HTTP_RESPONSE_SIZE n); [lia | done].
  - unfold dict_update, USER_AGENT_HEADER. simpl. rewrite dict_get_set. done.
  - intros k Hk. unfold dict_update, USER_AGENT_HEADER. simpl. rewrite dict_get_set.
    apply String.eqb_neq in Hk. now rewrite Hk.
Qed.

Lemma requests_get_passes_through_witness :
  requests_get 15%Z small_response "http://example.com/"
    [("User-Agent", "curl"); ("Accept", "text/html")] (Some 5%Z)
  = (small_response "" [] 0%Z,
     [Requested "http://example.com/"
        [("User-Agent", "Bridgy (https://brid.gy/about)"); ("Accept", "text/html")]
        5%Z]).
Proof.
  apply (requests_get_passes_through 15 small_response "http://example.com/"
           [("User-Agent", "curl"); ("Accept", "text/html")] (Some 5%Z)).
  - unfold URL_BLACKLIST. rewrite list_elem_of_singleton. discriminate.
  - intros n [= <-]. unfold MAX_HTTP_RESPONSE_SIZE. lia.
Defined.

End FetchExtras.

(** ** JSON text read back is well formed *)

(** *** What [json.loads] returns *)

Module ReadFacts.
Import Py Json Web Util PyFacts DictFacts JsonFacts.

(** Well-formedness of a document that is written out. *)
Ltac wf_concrete :=
  cbn [wf fold_right snd fst dict_keys map]; repeat split;
  try (apply (bool_decide_unpack _); vm_compute; exact I).

Lemma wf_dict_set d k v :
  wf (JObj d) -> wf v -> wf (JObj (dict_set k v d)).
Proof.
  rewrite !wf_obj. intros [Hnd Hall] Hv. split; [now apply NoDup_keys_set|].
  clear Hnd. induction d as [|[k0 v0] d IH]; simpl.
  - now constructor.
  - apply Forall_cons in Hall as [H0 Hall].
    destruct (String.eqb k k0); constructor; auto.
Qed.

Lemma wf_dict_update d other :
  wf (JObj d) -> Forall (fun kv => wf (snd kv)) other -> wf (JObj (dict_update d other)).
Proof.
  unfold dict_update. revert d.
  induction other as [|[k v] other IH]; intros d Hd Ho; simpl; [done|].
  apply Forall_cons in Ho as [Hv Ho]. apply IH; [|done]. now apply wf_dict_set.
Qed.

Lemma wf_dict_of_pairs pairs :
  Forall (fun kv => wf (snd kv)) pairs -> wf (JObj (dict_of_pairs pairs)).
Proof.
  intros H. unfold dict_of_pairs.
  change (fold_left (fun d kv => dict_set (fst kv) (snd kv) d) pairs [])
    with (dict_update [] pairs).
  apply wf_dict_update; [|done]. apply wf_obj. split; [apply NoDup_nil_2 | constructor].
Qed.

(** What [json.loads] returns is a document whose dicts have each key
    once. *)
Lemma parse_wf n :
  (forall ts v r, parse_value n ts = Some (v, r) -> wf v) /\
  (forall ts vs r, parse_items n ts = Some (vs, r) -> Forall wf vs) /\
  (forall ts ms r, parse_members n ts = Some (ms, r) ->
     Forall (fun kv => wf (snd kv)) ms).
Proof.
  induction n as [|n (IHv & IHi & IHm)]; [repeat split; intros; discriminate|].
  split; [|split].
  - intros ts v r H. cbn [parse_value] in H.
    destruct ts as [|t ts]; [done|].
    destruct t; try (injection H as <- _; done); try done.
    + destruct ts as [|[] ts];
        first [ injection H as <- _; apply wf_obj; split; [apply NoDup_nil_2 | constructor]
              | destruct (parse_members n _) as [[ms r']|] eqn:E; [|done];
                injection H as <- _; apply wf_dict_of_pairs; eapply IHm; exact E ].
    + destruct ts as [|[] ts];
        first [ injection H as <- _; apply wf_arr; constructor
              | destruct (parse_items n _) as [[vs r']|] eqn:E; [|done];
                injection H as <- _; apply wf_arr; eapply IHi; exact E ].
  - intros ts vs r H. cbn [parse_items] in H.
    destruct (parse_value n ts) as [[v [|t r1]]|] eqn:E; try done.
    destruct t; try done.
    + injection H as <- _. constructor; [eapply IHv; exact E | constructor].
    + destruct (parse_items n r1) as [[vs' r2]|] eqn:E2; [|done].
      injection H as <- _. constructor; [eapply IHv; exact E | eapply IHi; exact E2].
  - intros ts ms r H. cbn [parse_members] in H.
    destruct ts as [|[] ts]; try done. destruct ts as [|[] ts]; try done.
    destruct (parse_value n ts) as [[v [|t r1]]|] eqn:E; try done.
    destruct t; try done.
    + injection H as <- _. constructor; [simpl; eapply IHv; exact E | constructor].
    + destruct (parse_members n r1) as [[ms' r2]|] eqn:E2; [|done].
      injection H as <- _. constructor; [simpl; eapply IHv; exact E | eapply IHm; exact E2].
Qed.

Lemma loads_wf ts v : loads ts = Some v -> wf v.
Proof.
  unfold loads. destruct (parse_value _ ts) as [[v' [|]]|] eqn:E; try done.
  intros [= <-]. eapply (proj1 (parse_wf _)). exact E.
Qed.

Lemma decode_wf json_lex state d :
  decode_state_parameter json_lex state = Ok (Some d) -> wf d.
Proof.
  unfold decode_state_parameter. destruct (String.eqb state "").
  - intros [= <-]. apply wf_obj. split; [apply NoDup_nil_2 | constructor].
  - destruct (json_lex state) as [ts|]; [|done].
    destruct (loads ts) as [v|] eqn:E; [|done]. apply loads_wf in E.
    destruct v; try done. now intros [= <-].
Qed.

End ReadFacts.

(** ** util.py: webmention targets *)

(** *** util.py: webmention targets *)

Module WebmentionFacts.
Import Py Json Web Util Webmention MoreSamples LoginFacts.

Lemma lower_app a b : lower (a ++ b) = (lower a ++ lower b)%string.
Proof. induction a as [|c a IH]; [done|]. rewrite !append_cons. cbn [lower]. now rewrite append_cons, IH. Qed.

Lemma ascii_lower_idem c : ascii_lower (ascii_lower c) = ascii_lower c.
Proof. destruct c as [[] [] [] [] [] [] [] []]; reflexivity. Qed.

Lemma lower_idem s : lower (lower s) = lower s.
Proof. induction s as [|c s IH]; [done|]. cbn [lower]. now rewrite ascii_lower_idem, IH. Qed.

Lemma ascii_lower_dot c : Ascii.eqb (ascii_lower c) "." = Ascii.eqb c ".".
Proof. destruct c as [[] [] [] [] [] [] [] []]; reflexivity. Qed.

Lemma lower_no_dot s :
  all_chars (fun x => negb (Ascii.eqb x ".")) (lower s)
  = all_chars (fun x => negb (Ascii.eqb x ".")) s.
Proof. induction s as [|c s IH]; [done|]. cbn [lower all_chars]. now rewrite ascii_lower_dot, IH. Qed.

Lemma split_on_nonempty c s : split_on c s <> [].
Proof.
  induction s as [|x s IH]; cbn [split_on]; [done|].
  destruct (Ascii.eqb x c); [done|]. now destruct (split_on c s).
Qed.

Lemma split_on_more c a b :
  split_on c (a ++ String c b) = split_on c a ++ split_on c b.
Proof.
  induction a as [|x a IH].
  - rewrite append_nil. cbn [split_on]. now rewrite Ascii.eqb_refl.
  - rewrite append_cons. cbn [split_on]. destruct (Ascii.eqb x c); [now rewrite IH|].
    rewrite IH. pose proof (split_on_nonempty c a) as Hne.
    now destruct (split_on c a).
Qed.

Lemma last_two_app {A} (l : list A) x y : last_two (l ++ [x; y]) = [x; y].
Proof.
  unfold last_two. rewrite length_app. simpl.
  replace (length l + 2 - 2) with (length l) by lia.
  now rewrite skipn_app, skipn_all, Nat.sub_diag.
Qed.

Section Blacklist.
Variable BLACKLIST : gset string.

(** [in_webmention_blacklist] does not look at the case of the domain; a
    listed domain is blacklisted; and a name of three labels or more is
    blacklisted exactly when it is listed itself or its last two labels
    are, so that the subdomains of a listed two-label domain are covered
    and those of a longer listed name are not. *)
Theorem blacklist_by_last_two_labels sub a b :
  all_chars (fun x => negb (Ascii.eqb x ".")) a = true ->
  all_chars (fun x => negb (Ascii.eqb x ".")) b = true ->
  in_webmention_blacklist BLACKLIST (sub ++ "." ++ a ++ "." ++ b)
  = JBool (bool_decide (lower (sub ++ "." ++ a ++ "." ++ b) ∈ BLACKLIST
                        \/ lower (a ++ "." ++ b) ∈ BLACKLIST)) /\
  (lower (a ++ "." ++ b) ∈ BLACKLIST ->
   in_webmention_blacklist BLACKLIST (a ++ "." ++ b) = JBool true) /\
  (forall domain,
     in_webmention_blacklist BLACKLIST (lower domain)
     = in_webmention_blacklist BLACKLIST domain).
Proof.
  intros Ha Hb. split; [|split].
  - unfold in_webmention_blacklist.
    destruct (bool_decide (lower (sub ++ "." ++ a ++ "." ++ b) ∈ BLACKLIST)) eqn:E.
    + apply bool_decide_eq_true in E. f_equal. symmetry. apply bool_decide_eq_true. now left.
    + apply bool_decide_eq_false in E.
      assert (lower (sub ++ "." ++ a ++ "." ++ b)
              = (lower sub ++ String "." (lower a ++ String "." (lower b)))%string) as Hl.
      { rewrite !lower_app. change (lower ".") with ".".
        now rewrite !append_cons, !append_nil. }
      rewrite Hl in *.
      destruct (String.eqb _ "") eqn:Hemp.
      { apply String.eqb_eq in Hemp. destruct (lower sub); discriminate Hemp. }
      rewrite split_on_more.
      rewrite split_on_app by (rewrite lower_no_dot; exact Ha).
      rewrite (split_on_none "." (lower b)) by (rewrite lower_no_dot; exact Hb).
      change (split_on "." (lower sub) ++ [lower a; lower b])
        with (split_on "." (lower sub) ++ [lower a; lower b]).
      rewrite last_two_app. cbn [String.concat].
      assert (lower (a ++ "." ++ b) = (lower a ++ "." ++ lower b)%string) as Hab
        by (rewrite !lower_app; now change (lower ".") with ".").
      rewrite Hab. f_equal. apply bool_decide_ext. tauto.
  - intros Hin. unfold in_webmention_blacklist. now rewrite bool_decide_eq_true_2.
  - intros domain. unfold in_webmention_blacklist. now rewrite lower_idem.
Qed.

End Blacklist.

Lemma blacklist_by_last_two_labels_witness :
  in_webmention_blacklist sample_blacklist "WWW.Facebook.com" = JBool true /\
  in_webmention_blacklist sample_blacklist "www.example.com" = JBool false.
Proof.
  split.
  - destruct (blacklist_by_last_two_labels sample_blacklist "WWW" "Facebook" "com")
      as [H _]; [reflexivity | reflexivity |].
    change ("WWW" ++ "." ++ "Facebook" ++ "." ++ "com")%string
      with "WWW.Facebook.com" in H.
    rewrite H. reflexivity.
  - destruct (blacklist_by_last_two_labels sample_blacklist "www" "example" "com")
      as [H _]; [reflexivity | reflexivity |].
    change ("www" ++ "." ++ "example" ++ "." ++ "com")%string
      with "www.example.com" in H.
    rewrite H. reflexivity.
Defined.

Section TargetFacts.
Variable BLACKLIST : gset string.
Variable DEBUG : bool.
Variable clean_url : string -> string.
Variable domain_from_link : string -> option string.
Variable follow_redirects : string -> string * dict string.

Lemma send_value_truthy send domain :
  truthy (send_value BLACKLIST send domain) = true ->
  send = true /\
  exists d, domain = Some d /\ d <> "" /\
            truthy (in_webmention_blacklist BLACKLIST d) = false.
Proof.
  unfold send_value. destruct send; [|done]. simpl.
  destruct domain as [d|]; [|done].
  destruct (String.eqb d "") eqn:E; [done|]. apply String.eqb_neq in E.
  simpl. intros H. apply negb_true_iff in H. eauto.
Qed.

(** [get_webmention_target] says to send only for a non-empty, lower-case
    domain that is not blacklisted, which with [resolve] is the domain of
    the URL the redirects end at, served as text/html; for a URL with no
    domain it answers [(url, None, False)] and fetches nothing; and it
    fetches only with [resolve], and then one URL, the cleaned one. *)
Theorem webmention_target_send url resolve :
  (truthy (target_send (get_webmention_target BLACKLIST DEBUG clean_url domain_from_link
       follow_redirects url resolve)) = true ->
   exists final d,
     domain_from_link (clean_url final) = Some d /\
     target_domain (get_webmention_target BLACKLIST DEBUG clean_url domain_from_link
       follow_redirects url resolve) = Some (lower d) /\
     lower d <> "" /\
     truthy (in_webmention_blacklist BLACKLIST (lower d)) = false /\
     (if resolve then
        exists hs, follow_redirects (clean_url url) = (final, hs) /\
          startswith "text/html" (default "" (header_get "content-type" hs)) = true
      else final = url)) /\
  (domain_from_link (clean_url url) = None ->
   get_webmention_target BLACKLIST DEBUG clean_url domain_from_link
       follow_redirects url resolve
   = {| target_url := clean_url url; target_domain := None;
        target_send := JBool false; fetched := [] |}) /\
  (fetched (get_webmention_target BLACKLIST DEBUG clean_url domain_from_link
       follow_redirects url resolve) = []
   \/ (resolve = true /\ fetched (get_webmention_target BLACKLIST DEBUG clean_url domain_from_link
       follow_redirects url resolve) = [clean_url url])).
Proof.
  split; [|split].
  - unfold get_webmention_target. destruct resolve.
    + destruct (domain_from_link (clean_url url)) as [d0|] eqn:Hd0; [|done].
      destruct (follow_redirects (clean_url url)) as [final hs] eqn:Hf.
      cbn [target_send target_domain]. intros H.
      apply send_value_truthy in H as (Hsend & d & Hd & Hne & Hbl).
      unfold get_webmention_target_unresolved in *.
      destruct (domain_from_link (clean_url final)) as [d1|] eqn:Hd1; [|done].
      cbn [target_domain] in *. injection Hd as <-.
      exists final, d1. repeat split; try done. now exists hs.
    + unfold get_webmention_target_unresolved.
      destruct (domain_from_link (clean_url url)) as [d|] eqn:Hd; [|done].
      cbn [target_send target_domain]. intros H.
      apply send_value_truthy in H as (_ & d' & [= <-] & Hne & Hbl).
      exists url, d. repeat split; done.
  - intros Hd. unfold get_webmention_target, get_webmention_target_unresolved.
    rewrite Hd. now destruct resolve.
  - unfold get_webmention_target, get_webmention_target_unresolved. destruct resolve.
    + destruct (domain_from_link (clean_url url)); [|now left].
      destruct (follow_redirects (clean_url url)). right. done.
    + left. now destruct (domain_from_link (clean_url url)).
Qed.

End TargetFacts.
End WebmentionFacts.

(** ** util.py: pruning activities and responses *)

(** *** util.py: pruning activities and responses *)

Module PruneFacts.
Import Py Json Web Util Prune Samples MoreSamples PyFacts DictFacts JsonFacts
  StateClaims ReadFacts.

Lemma on_object_get {A} (prune : json -> result A) d :
  on_object prune d
  = match dict_get "object" d with
    | Some o => if truthy o then a ← prune o; Ok (Some a) else Ok None
    | None => Ok None
    end.
Proof.
  induction d as [|[k v] d IH]; [done|]. cbn [on_object dict_get fst snd].
  destruct (String.eqb "object" k); [done | exact IH].
Qed.

Lemma dict_get_filter_key {A} (p : string -> bool) k (d : dict A) :
  dict_get k (List.filter (fun kv => p (fst kv)) d)
  = if p k then dict_get k d else None.
Proof.
  induction d as [|[k0 v0] d IH]; simpl; [now destruct (p k)|].
  destruct (p k0) eqn:E0; simpl.
  - destruct (String.eqb k k0) eqn:E; [|done].
    apply String.eqb_eq in E; subst k0. now rewrite E0.
  - rewrite IH. destruct (String.eqb k k0) eqn:E; [|done].
    apply String.eqb_eq in E; subst k0. now rewrite E0.
Qed.

(** The fields of [trim_nulls(d)]. *)
Lemma trim_get d k :
  NoDup (dict_keys d) ->
  obj_get k (trim_nulls (JObj d))
  = match dict_get k d with
    | Some v => if is_null (trim_nulls v) then None else Some (trim_nulls v)
    | None => None
    end.
Proof.
  intros Hnd. cbn [trim_nulls obj_get].
  rewrite (dict_get_filter (fun v => negb (is_null v)))
    by (unfold dict_keys; now rewrite keys_map_snd).
  rewrite dict_get_map_snd.
  destruct (dict_get k d) as [v|]; simpl; [|done].
  now destruct (is_null (trim_nulls v)).
Qed.


Lemma trim_is_dict d : exists d', trim_nulls (JObj d) = JObj d'.
Proof. eexists. reflexivity. Qed.







Section Activity.

Variable is_public : json -> bool.

Lemma prune_activity_dict d :
  prune_activity is_public (JObj d)
  = (let keep := if is_public (JObj d) then KEEP else KEEP ++ ["to"] in
     let pruned := map (fun f => (f, default JNull (dict_get f d))) keep in
     obj ← on_object (prune_activity is_public) d;
     match obj with
     | None => Ok (trim_nulls (JObj pruned))
     | Some (JObj o) =>
         Ok (trim_nulls
               (JObj (dict_set "object" (JObj (drop_duplicates pruned o)) pruned)))
     | Some _ => Raise "AttributeError"
     end).
Proof. reflexivity. Qed.

Lemma dict_get_del {V} k k' (d : dict V) :
  dict_get k (dict_del k' d) = if String.eqb k k' then None else dict_get k d.
Proof.
  unfold dict_del.
  pose proof (dict_get_filter_key (fun x => negb (String.eqb x k')) k d) as H.
  cbv beta in H. rewrite H. now destruct (String.eqb k k').
Qed.

Lemma dict_get_table {V} (g : string -> V) k (keys : list string) :
  dict_get k (map (fun f => (f, g f)) keys)
  = if bool_decide (k ∈ keys) then Some (g k) else None.
Proof.
  induction keys as [|k0 keys IH]; simpl; [done|].
  destruct (String.eqb k k0) eqn:E.
  - apply String.eqb_eq in E; subst k0.
    rewrite bool_decide_eq_true_2; [done | apply list_elem_of_here].
  - rewrite IH. apply String.eqb_neq in E.
    destruct (bool_decide (k ∈ keys)) eqn:Hk.
    + apply bool_decide_eq_true in Hk.
      rewrite bool_decide_eq_true_2; [done | now apply list_elem_of_further].
    + apply bool_decide_eq_false in Hk.
      rewrite bool_decide_eq_false_2; [done|]. rewrite elem_of_cons. tauto.
Qed.

Lemma duplicate_step_get pruned cur kv k v :
  dict_get k (duplicate_step pruned cur kv) = Some v -> dict_get k cur = Some v.
Proof.
  unfold duplicate_step. destruct (py_eq _ _); [|done].
  rewrite dict_get_del. now destruct (String.eqb k (fst kv)).
Qed.

Lemma duplicates_from pruned l : forall cur k v,
  dict_get k (fold_left (duplicate_step pruned) l cur) = Some v ->
  dict_get k cur = Some v.
Proof.
  induction l as [|kv l IH]; intros cur k v; simpl; [done|].
  intros H. apply IH in H. now apply duplicate_step_get in H.
Qed.

Lemma duplicates_gone pruned l : forall cur k v,
  (k, v) ∈ l -> k <> "object" ->
  py_eq (default JNull (dict_get k pruned)) v = true ->
  dict_get k (fold_left (duplicate_step pruned) l cur) = None.
Proof.
  induction l as [|kv l IH]; intros cur k v Hin Hne Heq; simpl.
  - now apply elem_of_nil in Hin.
  - apply elem_of_cons in Hin as [<-|Hin]; [|now apply (IH _ k v)].
    destruct (dict_get k (fold_left _ l _)) as [x|] eqn:E; [|done].
    apply duplicates_from in E. unfold duplicate_step in E. simpl in E.
    apply String.eqb_neq in Hne. rewrite Hne, Heq in E.
    rewrite dict_get_del, String.eqb_refl in E. done.
Qed.

Lemma filter_twice {A} (p q : A -> bool) l :
  List.filter p (List.filter q l) = List.filter (fun x => q x && p x) l.
Proof.
  induction l as [|x l IH]; simpl; [done|].
  destruct (q x); simpl; [|done]. destruct (p x); [now f_equal | done].
Qed.

Lemma duplicates_filter pruned l : forall cur,
  exists p, fold_left (duplicate_step pruned) l cur = List.filter p cur.
Proof.
  induction l as [|kv l IH]; intros cur; simpl.
  - exists (fun _ => true). symmetry. apply filter_all. now apply Forall_forall.
  - destruct (IH (duplicate_step pruned cur kv)) as [p Hp]. rewrite Hp.
    unfold duplicate_step. destruct (py_eq _ _).
    + unfold dict_del. eexists. apply filter_twice.
    + now exists p.
Qed.

(** What [drop_duplicates] leaves: fields of the object, each with the
    value it had, and none that [pruned] holds an equal value for. *)
Lemma drop_duplicates_spec pruned obj :
  (exists p, drop_duplicates pruned obj = List.filter p obj) /\
  (forall k v, dict_get k (drop_duplicates pruned obj) = Some v ->
     dict_get k obj = Some v /\
     (k <> "object" -> py_eq (default JNull (dict_get k pruned)) v = false)).
Proof.
  split; [apply (duplicates_filter pruned obj obj)|].
  intros k v H. pose proof (duplicates_from pruned obj obj k v H) as Hobj.
  split; [done|]. intros Hne.
  destruct (py_eq (default JNull (dict_get k pruned)) v) eqn:E; [|done].
  apply dict_get_Some_elem in Hobj.
  pose proof (duplicates_gone pruned obj obj k v Hobj Hne E) as Hgone.
  unfold drop_duplicates in H. congruence.
Qed.

Lemma NoDup_KEEP b : NoDup (if b : bool then KEEP else KEEP ++ ["to"]).
Proof. destruct b; apply (bool_decide_unpack _); vm_compute; exact I. Qed.

Lemma trimmed_filter (p : string * json -> bool) d :
  trimmed (JObj d) -> trimmed (JObj (List.filter p d)).
Proof.
  rewrite !trimmed_obj. intros H. apply Forall_forall. intros x Hx.
  apply list_elem_of_In, filter_In in Hx as [Hx _]. apply list_elem_of_In in Hx.
  rewrite Forall_forall in H. auto.
Qed.

(** [prune_activity] on an activity whose nested objects are dicts: the
    result holds the kept fields, [to] and [object] only, at every level,
    and no null or empty value; a kept field is there with its trimmed
    value unless that is null or empty; [to] is there only when the
    activity is not public; and no kept field of the pruned object equals
    the activity's own. *)
Theorem prune_activity_keeps activity :
  object_chain activity ->
  exists fields,
    prune_activity is_public activity = Ok (JObj fields) /\
    activity_pruned (JObj fields) /\ trimmed (JObj fields) /\
    NoDup (dict_keys fields) /\
    (forall f, f ∈ KEEP \/ (f = "to" /\ is_public activity = false) ->
       dict_get f fields
       = match obj_get f activity with
         | Some v => if is_null (trim_nulls v) then None else Some (trim_nulls v)
         | None => None
         end) /\
    (is_public activity = true -> dict_get "to" fields = None) /\
    (forall o k v,
       dict_get "object" fields = Some o -> obj_get k o = Some v ->
       k ∈ KEEP \/ (k = "to" /\ is_public activity = false) ->
       py_eq (default JNull (obj_get k activity)) v = false).
Proof.
  induction 1 as [d Hch IH].
  rewrite prune_activity_dict, on_object_get. cbv zeta.
  set (keep := if is_public (JObj d) then KEEP else KEEP ++ ["to"]).
  set (pruned := map (fun f => (f, default JNull (dict_get f d))) keep).
  assert (Hkeys : dict_keys pruned = keep).
  { unfold pruned, dict_keys. rewrite map_map. simpl. apply map_id. }
  assert (Hnd : NoDup (dict_keys pruned)) by (rewrite Hkeys; apply NoDup_KEEP).
  assert (Hpg : forall k, dict_get k pruned
                  = if bool_decide (k ∈ keep) then Some (default JNull (dict_get k d))
                    else None)
    by (intros k; apply (dict_get_table (fun f => default JNull (dict_get f d)))).
  assert (Hkeep : forall f, f ∈ KEEP \/ (f = "to" /\ is_public (JObj d) = false) ->
                    f ∈ keep /\ f <> "object").
  { intros f [Hf|[-> Hp]].
    - split.
      + unfold keep. destruct (is_public (JObj d)); [done|]. apply elem_of_app. now left.
      + intros ->. revert Hf. unfold KEEP. rewrite !elem_of_cons, elem_of_nil.
        intros H; repeat destruct H as [H|H]; done.
    - split; [|done]. unfold keep. rewrite Hp. apply elem_of_app. right.
      apply list_elem_of_here. }
  assert (Hto : is_public (JObj d) = true -> "to" ∉ keep).
  { intros Hp. unfold keep. rewrite Hp. unfold KEEP.
    rewrite !elem_of_cons, elem_of_nil. intros H; repeat destruct H as [H|H]; done. }
  assert (Hnokeep : "object" ∉ keep).
  { unfold keep, KEEP. destruct (is_public (JObj d));
      rewrite ?elem_of_app, !elem_of_cons, elem_of_nil;
      intros H; repeat destruct H as [H|H]; done. }
  assert (Hallowed : forall k, k ∈ keep -> k ∈ KEEP ++ ["to"; "object"]).
  { intros k. unfold keep. destruct (is_public (JObj d)); rewrite !elem_of_app.
    - now left.
    - intros [?|Hk]; [now left|]. right. apply list_elem_of_singleton in Hk as ->.
      apply list_elem_of_here. }
  (* the fields of what is returned, for a dict [top] that extends [pruned] *)
  assert (Hfinal : forall top,
            NoDup (dict_keys top) ->
            (forall k, k <> "object" -> dict_get k top = dict_get k pruned) ->
            forall fields, trim_nulls (JObj top) = JObj fields ->
            trimmed (JObj fields) /\ NoDup (dict_keys fields) /\
            (forall k v, dict_get k fields = Some v ->
               k = "object" \/ k ∈ KEEP ++ ["to"; "object"]) /\
            (forall f, f ∈ KEEP \/ (f = "to" /\ is_public (JObj d) = false) ->
               dict_get f fields
               = match dict_get f d with
                 | Some v => if is_null (trim_nulls v) then None else Some (trim_nulls v)
                 | None => None
                 end) /\
            (is_public (JObj d) = true -> dict_get "to" fields = None) /\
            dict_get "object" fields
            = match dict_get "object" top with
              | Some v => if is_null (trim_nulls v) then None else Some (trim_nulls v)
              | None => None
              end).
  { intros top Hndt Hsame fields Hf.
    assert (Hget : forall k, dict_get k fields
              = match dict_get k top with
                | Some v => if is_null (trim_nulls v) then None else Some (trim_nulls v)
                | None => None
                end).
    { intros k. rewrite <- (trim_get top k Hndt), Hf. done. }
    split; [rewrite <- Hf; apply trimmed_trim|].
    split.
    { injection Hf as <-. apply NoDup_keys_filter.
      unfold dict_keys in Hndt. now rewrite keys_map_snd. }
    split; [|split; [|split]].
    - intros k v Hk. destruct (String.eqb k "object") eqn:E.
      + left. now apply String.eqb_eq.
      + right. apply String.eqb_neq in E. rewrite Hget, Hsame, Hpg in Hk by done.
        destruct (bool_decide (k ∈ keep)) eqn:Hin; [|done].
        apply bool_decide_eq_true in Hin. now apply Hallowed.
    - intros f Hf'. destruct (Hkeep f Hf') as [Hin Hne].
      rewrite Hget, Hsame, Hpg by done. rewrite bool_decide_eq_true_2 by done.
      now destruct (dict_get f d).
    - intros Hp. rewrite Hget, Hsame, Hpg by done.
      rewrite bool_decide_eq_false_2; [done | now apply Hto].
    - apply Hget. }
  assert (Hnoobj : dict_get "object" pruned = None).
  { rewrite Hpg. now rewrite bool_decide_eq_false_2. }
  destruct (dict_get "object" d) as [o|] eqn:Ho.
  - destruct (truthy o) eqn:Ht.
    + destruct (IH o eq_refl Ht) as (fo & Hpo & Hpr & Htr & Hndo & _).
      rewrite Hpo. cbn [mbind result_bind].
      destruct (drop_duplicates_spec pruned fo) as [[p Hfil] Hdd].
      set (o' := drop_duplicates pruned fo) in *.
      assert (Htro : trimmed (JObj o')) by (rewrite Hfil; now apply trimmed_filter).
      destruct (trim_is_dict (dict_set "object" (JObj o') pruned)) as [fields Hf].
      rewrite Hf. exists fields. split; [done|].
      destruct (Hfinal (dict_set "object" (JObj o') pruned)) with (fields := fields)
        as (H1 & H2 & H3 & H4 & H5 & H6); [now apply NoDup_keys_set | | done |].
      { intros k Hne. rewrite dict_get_set. apply String.eqb_neq in Hne. now rewrite Hne. }
      rewrite dict_get_set in H6. cbn [String.eqb Ascii.eqb Bool.eqb] in H6.
      rewrite (trim_trimmed (JObj o')) in H6 by done.
      assert (Hpo' : activity_pruned (JObj o')).
      { inversion Hpr as [? Hk Hob]; subst. constructor.
        - intros k v Hkv. apply Hdd in Hkv as [Hkv _]. eauto.
        - intros x Hx. apply Hdd in Hx as [Hx _]. eauto. }
      split; [|split; [done|split; [done|split; [done|split; [done|]]]]].
      * constructor.
        -- intros k v Hk. destruct (H3 k v Hk) as [->|?]; [|done].
           apply elem_of_app. right. apply list_elem_of_further, list_elem_of_here.
        -- intros x Hx. rewrite H6 in Hx. destruct (is_null (JObj o')); [done|].
           now injection Hx as <-.
      * intros x k v Hx Hk Hin. rewrite H6 in Hx.
        destruct (is_null (JObj o')); [done|]. injection Hx as <-.
        cbn [obj_get] in Hk. apply Hdd in Hk as [_ Hk].
        destruct (Hkeep k Hin) as [Hkin Hne]. specialize (Hk Hne).
        rewrite Hpg, bool_decide_eq_true_2 in Hk by done. exact Hk.
    + cbn [mbind result_bind].
      destruct (trim_is_dict pruned) as [fields Hf]. rewrite Hf.
      exists fields. split; [done|].
      destruct (Hfinal pruned) with (fields := fields)
        as (H1 & H2 & H3 & H4 & H5 & H6); [done | done | done |].
      rewrite Hnoobj in H6.
      split; [|split; [done|split; [done|split; [done|split; [done|]]]]].
      * constructor.
        -- intros k v Hk. destruct (H3 k v Hk) as [->|?]; [congruence | done].
        -- intros x Hx. congruence.
      * intros x k v Hx. congruence.
  - cbn [mbind result_bind].
    destruct (trim_is_dict pruned) as [fields Hf]. rewrite Hf.
    exists fields. split; [done|].
    destruct (Hfinal pruned) with (fields := fields)
      as (H1 & H2 & H3 & H4 & H5 & H6); [done | done | done |].
    rewrite Hnoobj in H6.
    split; [|split; [done|split; [done|split; [done|split; [done|]]]]].
    * constructor.
      -- intros k v Hk. destruct (H3 k v Hk) as [->|?]; [congruence | done].
      -- intros x Hx. congruence.
    * intros x k v Hx. congruence.
Qed.

End Activity.

Lemma prune_activity_keeps_witness :
  exists fields,
    prune_activity sample_is_public sample_activity = Ok (JObj fields) /\
    activity_pruned (JObj fields) /\
    dict_get "content" fields = Some (JStr "hi") /\
    dict_get "to" fields = None.
Proof.
  destruct (prune_activity_keeps sample_is_public sample_activity)
    as (fields & Hp & Hpr & _ & _ & Hget & Hto & _).
  - constructor. intros o [= <-] _. constructor. intros o [=].
  - exists fields. split; [exact Hp|]. split; [exact Hpr|]. split.
    + rewrite Hget; [reflexivity|]. left. unfold KEEP.
      do 2 apply list_elem_of_further. apply list_elem_of_here.
    + apply Hto. reflexivity.
Defined.

End PruneFacts.

(** ** browser.py: the other endpoints *)

(** *** browser.py: the other endpoints *)

Module EndpointFacts.
Import Py Json Web Browser Util Endpoints Samples MoreSamples PyFacts DictFacts
  HandlerClaims LoginFacts.

Ltac run_handler :=
  unfold mbind, handler_bind, mret, handler_ret, reading, abort; cbn beta iota.
Ltac run_handler_in H :=
  unfold mbind, handler_bind, mret, handler_ret, reading, abort in H; cbn beta iota in H.

Lemma bind_Ok {A B} (m : result A) (f : A -> result B) b :
  m ≫= f = Ok b -> exists a, m = Ok a /\ f a = Ok b.
Proof. destruct m as [a| |]; [|done..]. intros H. now exists a. Qed.

Lemma append_inv_head (a b c : string) : (a ++ b)%string = (a ++ c)%string -> b = c.
Proof.
  induction a as [|x a IH]; [done|]. rewrite !append_cons. intros [= H]. auto.
Qed.

Lemma route_source_class sn rest :
  sn <> "" -> all_chars (fun x => negb (Ascii.eqb x "/")) sn = true ->
  rest <> "" -> all_chars (fun x => negb (Ascii.eqb x "/")) rest = true ->
  hd "" (split_on "/" (strip "/" ("/" ++ sn ++ "/browser/" ++ rest))) = sn.
Proof.
  intros Hne Hsn Hrne Hrest. unfold strip.
  assert (lstrip "/" ("/" ++ sn ++ "/browser/" ++ rest)
          = (sn ++ "/browser/" ++ rest)%string) as ->.
  { rewrite append_cons, append_nil. cbn [lstrip]. rewrite Ascii.eqb_refl.
    destruct sn as [|c sn]; [done|]. rewrite append_cons. cbn [lstrip].
    cbn [all_chars] in Hsn. apply andb_true_iff in Hsn as [Hc _].
    apply negb_true_iff in Hc. now rewrite Hc. }
  rewrite <- !append_assoc. rewrite rstrip_keep by done.
  rewrite !append_assoc, append_cons. rewrite split_on_app by done. done.
Qed.

(** Every path of [routes(source_cls)] leads [source_class] back to the
    class registered under the short name, for a short name that is not
    empty and holds no slash; and the six paths differ. *)
Theorem routes_find_source_class {A} (sources : dict A) sn (cls : A) :
  sn <> "" -> all_chars (fun x => negb (Ascii.eqb x "/")) sn = true ->
  dict_get sn sources = Some cls ->
  Forall (fun route => source_class_of sources (fst route) = Some cls) (routes sn) /\
  NoDup (map fst (routes sn)) /\
  map snd (routes sn)
  = ["HomepageHandler"; "ProfileHandler"; "PostHandler"; "LikesHandler";
     "PollHandler"; "TokenDomainsHandler"].
Proof.
  intros Hne Hsn Hcls. split; [|split; [|done]].
  - unfold routes, source_class_of.
    repeat (apply Forall_cons; split;
            [cbn [fst]; change ("/" ++ sn ++ "/browser/" ++ ?r)%string
               with ("/" ++ sn ++ "/browser/" ++ r)%string|]).
    all: try apply Forall_nil_2.
    + change ("/" ++ sn ++ "/browser/homepage")%string
        with ("/" ++ sn ++ "/browser/" ++ "homepage")%string.
      now rewrite route_source_class.
    + change ("/" ++ sn ++ "/browser/profile")%string
        with ("/" ++ sn ++ "/browser/" ++ "profile")%string.
      now rewrite route_source_class.
    + change ("/" ++ sn ++ "/browser/post")%string
        with ("/" ++ sn ++ "/browser/" ++ "post")%string.
      now rewrite route_source_class.
    + change ("/" ++ sn ++ "/browser/likes")%string
        with ("/" ++ sn ++ "/browser/" ++ "likes")%string.
      now rewrite route_source_class.
    + change ("/" ++ sn ++ "/browser/poll")%string
        with ("/" ++ sn ++ "/browser/" ++ "poll")%string.
      now rewrite route_source_class.
    + change ("/" ++ sn ++ "/browser/token-domains")%string
        with ("/" ++ sn ++ "/browser/" ++ "token-domains")%string.
      now rewrite route_source_class.
  - change (map fst (routes sn))
      with (map (fun suffix => ("/" ++ sn ++ suffix)%string)
              ["/browser/homepage"; "/browser/profile"; "/browser/post";
               "/browser/likes"; "/browser/poll"; "/browser/token-domains"]).
    apply NoDup_fmap_2.
    + intros a b H. rewrite !append_cons, !append_nil in H. injection H as H.
      now apply append_inv_head in H.
    + apply (bool_decide_unpack _). vm_compute. exact I.
Qed.

Lemma routes_find_source_class_witness :
  Forall (fun route => source_class_of sample_sources (fst route) = Some instagram)
    (routes "instagram").
Proof.
  apply (routes_find_source_class sample_sources "instagram" instagram); reflexivity || discriminate.
Defined.

Lemma elem_of_token_domains ds token d :
  d ∈ token_domains ds token <->
  exists tokens, ds_domains ds !! d = Some tokens /\ token ∈ tokens.
Proof.
  unfold token_domains. rewrite list_elem_of_fmap. split.
  - intros ([d' tokens] & -> & Hin).
    apply list_elem_of_In, filter_In in Hin as [Hin Ht].
    apply list_elem_of_In, elem_of_map_to_list in Hin.
    apply bool_decide_eq_true in Ht. simpl in *. eauto.
  - intros (tokens & Hd & Ht). exists (d, tokens). split; [done|].
    apply list_elem_of_In, filter_In. split.
    + apply list_elem_of_In. now apply elem_of_map_to_list.
    + now apply bool_decide_eq_true.
Qed.

Lemma NoDup_token_domains ds token : NoDup (token_domains ds token).
Proof.
  unfold token_domains.
  assert (H : NoDup (map fst (map_to_list (ds_domains ds)))) by apply NoDup_fst_map_to_list.
  revert H. generalize (map_to_list (ds_domains ds)). intros l.
  induction l as [|x l IH]; simpl; [done|].
  rewrite NoDup_cons. intros [Hx Hnd].
  destruct (bool_decide _); simpl; [|auto].
  apply NoDup_cons. split; [|auto]. intros Hin. apply Hx.
  apply list_elem_of_fmap in Hin as (y & -> & Hy).
  apply list_elem_of_fmap. exists y. split; [done|].
  apply list_elem_of_In, filter_In in Hy as [Hy _]. now apply list_elem_of_In.
Qed.

Section HandlerFacts.

Variable is_public : json -> bool.
Variable object_urls : json -> list string.
Variable domain_from_link : string -> string.
Variable load_source : Datastore -> request -> result (option Source).
Variable scraped_to_activities : string -> list json * json.
Variable scraped_to_actor : string -> json.
Variable merge_scraped_reactions : string -> json -> result (list json * json).
Variable parse_tag_uri : string -> option (string * string).
Variable create_new : json -> handler_m unit.
Variable key_urlsafe : Source -> string.
Variable last_polled_str : Source -> string.

(** What a passed token check tells. *)
Lemma check_token_passed cls ds req actor u :
  check_token_for_actor is_public object_urls domain_from_link cls ds req actor = Ok u ->
  is_public actor = true /\
  exists token stored d tokens,
    get_required_param req "token" = Ok token /\
    stored_domains ds actor = Ok stored /\
    d ∈ candidate_domains object_urls domain_from_link cls actor stored /\
    ds_domains ds !! d = Some tokens /\ token ∈ tokens.
Proof.
  unfold check_token_for_actor.
  destruct (is_public actor); [|done]. simpl.
  destruct (get_required_param req "token") as [token| |]; [|done..]. simpl.
  destruct (stored_domains ds actor) as [stored| |]; [|done..]. simpl.
  destruct (existsb _ _) eqn:E; [|done]. intros _. split; [done|].
  apply existsb_exists in E as (d & Hin & Hd).
  apply domain_has_token_spec in Hd as (tokens & Hd & Ht).
  exists token, stored, d, tokens. repeat split; try done.
  apply elem_of_elements. now apply list_elem_of_In.
Qed.

(** The token-domains endpoint answers with the key ids of the Domain
    entities that hold the token, each once, and with 404 when there is
    none; it leaves the datastore alone; and a token it answers 404 for
    passes neither [auth] nor [check_token_for_actor]. *)
Theorem token_domains_answer req ds token :
  get_required_param req "token" = Ok token ->
  (forall d, d ∈ token_domains ds token <->
     exists tokens, ds_domains ds !! d = Some tokens /\ token ∈ tokens) /\
  NoDup (token_domains ds token) /\
  token_domains_post req ds
  = (ds, match token_domains ds token with
         | [] => Aborted 404 (NoDomainsForToken token)
         | domains => Sent (output (JArr (map JStr domains)))
         end) /\
  (token_domains ds token = [] ->
   (forall cls actor source, auth load_source cls ds req actor true <> Ok source) /\
   (forall cls actor u,
      check_token_for_actor is_public object_urls domain_from_link cls ds req actor
      <> Ok u)).
Proof.
  intros Htok. split; [apply elem_of_token_domains|]. split; [apply NoDup_token_domains|].
  split.
  - unfold token_domains_post. run_handler. rewrite Htok.
    cbn [lift]. destruct (token_domains ds token); reflexivity.
  - intros Hnone.
    assert (Hno : forall d tokens, ds_domains ds !! d = Some tokens -> token ∉ tokens).
    { intros d tokens Hd Ht.
      assert (d ∈ token_domains ds token) as Hin by (apply elem_of_token_domains; eauto).
      rewrite Hnone in Hin. now apply elem_of_nil in Hin. }
    split.
    + intros cls actor source H. unfold auth in H.
      apply bind_Ok in H as (username & _ & H).
      apply bind_Ok in H as ([src|] & _ & H); [|done].
      cbn [negb] in H. rewrite Htok in H. simpl in H.
      destruct (existsb _ _) eqn:E; [|done].
      apply existsb_exists in E as ([d tokens] & Hin & Hd).
      apply andb_true_iff in Hd as [H1 _]. apply bool_decide_eq_true in H1.
      apply list_elem_of_In, elem_of_map_to_list in Hin. simpl in *.
      exact (Hno _ _ Hin H1).
    + intros cls actor u H. apply check_token_passed in H
        as (_ & token' & stored & d & tokens & Htok' & _ & _ & Hd & Ht).
      rewrite Htok in Htok'. injection Htok' as <-. exact (Hno _ _ Hd Ht).
Qed.

(** The profile endpoint creates or updates the account, and answers,
    only after the token check on the scraped actor has passed: a private
    actor is refused with 400 and any other failed check ends the request,
    the datastore untouched; and its answer is the scraped activities. *)
Theorem profile_post_checks_token cls req ds activities actor0 :
  scraped_to_activities (req_body req) = (activities, actor0) ->
  let actor := if truthy actor0 then actor0 else scraped_to_actor (req_body req) in
  (is_public actor = false ->
   profile_post is_public object_urls domain_from_link scraped_to_activities
     scraped_to_actor create_new cls req ds
   = (ds, Aborted 400 (Said (PrivateAccount (GR_NAME cls))))) /\
  (forall ds' r,
     profile_post is_public object_urls domain_from_link scraped_to_activities
       scraped_to_actor create_new cls req ds = (ds', r) ->
     (ds' <> ds \/ exists resp, r = Sent resp) ->
     is_public actor = true /\
     exists token stored d tokens,
       get_required_param req "token" = Ok token /\
       stored_domains ds actor = Ok stored /\
       d ∈ candidate_domains object_urls domain_from_link cls actor stored /\
       ds_domains ds !! d = Some tokens /\ token ∈ tokens) /\
  (forall ds' resp,
     profile_post is_public object_urls domain_from_link scraped_to_activities
       scraped_to_actor create_new cls req ds = (ds', Sent resp) ->
     resp = output (JArr activities) /\ create_new actor ds = (ds', Sent tt)).
Proof.
  intros Hs actor. unfold profile_post. rewrite Hs. fold actor.
  run_handler.
  split; [|split].
  - intros Hp. unfold check_token_for_actor. now rewrite Hp.
  - intros ds' r H Hch.
    destruct (check_token_for_actor _ _ _ cls ds req actor) as [u| |] eqn:Hc.
    + now apply check_token_passed in Hc.
    + cbn [lift] in H. injection H as <- <-. destruct Hch as [?|[resp ?]]; done.
    + cbn [lift] in H. injection H as <- <-. destruct Hch as [?|[resp ?]]; done.
  - intros ds' resp H.
    destruct (check_token_for_actor _ _ _ cls ds req actor) as [u| |]; cbn [lift] in H;
      [|done..].
    destruct (create_new actor ds) as [ds1 [[]| |]]; [|done..].
    destruct (join_ids activities) as [ids| |]; cbn [lift] in H; [|done..].
    now injection H as <- <-.
Qed.

(** The likes endpoint: an id that is no tag URI is refused with 400 and
    one with no stored Activity with 404, before any token is looked at;
    and the datastore changes, or an answer is sent, only after the token
    check on the stored activity's author (or actor) has passed, the
    change being the stored Activity's JSON as granary's merge leaves it,
    its owner kept, and the answer the new likes. *)
Theorem likes_post_checks_token cls req ds id :
  get_required_param req "id" = Ok id ->
  (parse_tag_uri id = None ->
   likes_post is_public object_urls domain_from_link merge_scraped_reactions
     parse_tag_uri cls req ds = (ds, Aborted 400 (NotTagUri id))) /\
  (parse_tag_uri id <> None -> ds_activities ds !! id = None ->
   likes_post is_public object_urls domain_from_link merge_scraped_reactions
     parse_tag_uri cls req ds = (ds, Aborted 404 (NoPostForId (GR_NAME cls) id))) /\
  (forall ds' r,
     likes_post is_public object_urls domain_from_link merge_scraped_reactions
       parse_tag_uri cls req ds = (ds', r) ->
     (ds' <> ds \/ exists resp, r = Sent resp) ->
     exists activity actor token stored d tokens new_likes data,
       ds_activities ds !! id = Some activity /\
       author_or_actor (activity_json activity) = Ok actor /\
       is_public actor = true /\
       get_required_param req "token" = Ok token /\
       stored_domains ds actor = Ok stored /\
       d ∈ candidate_domains object_urls domain_from_link cls actor stored /\
       ds_domains ds !! d = Some tokens /\ token ∈ tokens /\
       merge_scraped_reactions (req_body req) (activity_json activity)
       = Ok (new_likes, data) /\
       ds' = put_activity id {| activity_source := activity_source activity;
                                activity_json := data |} ds /\
       (forall resp, r = Sent resp -> resp = output (JArr new_likes))).
Proof.
  intros Hid. unfold likes_post. run_handler. rewrite Hid.
  cbn [lift]. split; [|split].
  - now intros ->.
  - intros Hp Hnone. destruct (parse_tag_uri id); [|done].
    cbn [lift]. now rewrite Hnone.
  - intros ds' r H Hch.
    destruct (parse_tag_uri id) as [parsed|].
    2:{ injection H as <- <-. destruct Hch as [?|[resp ?]]; done. }
    cbn [lift] in H.
    destruct (ds_activities ds !! id) as [activity|] eqn:Hact.
    2:{ injection H as <- <-. destruct Hch as [?|[resp ?]]; done. }
    destruct (author_or_actor (activity_json activity)) as [actor| |] eqn:Ha;
      cbn [lift] in H.
    2,3: injection H as <- <-; destruct Hch as [?|[resp ?]]; done.
    destruct (check_token_for_actor _ _ _ cls ds req actor) as [u| |] eqn:Hc;
      cbn [lift] in H.
    2,3: injection H as <- <-; destruct Hch as [?|[resp ?]]; done.
    destruct (merge_scraped_reactions (req_body req) (activity_json activity))
      as [[new_likes data]| |] eqn:Hm; cbn [lift] in H.
    2,3: injection H as <- <-; destruct Hch as [?|[resp ?]]; done.
    apply check_token_passed in Hc
      as (Hpub & token & stored & d & tokens & Htok & Hst & Hd & Hdom & Ht).
    exists activity, actor, token, stored, d, tokens, new_likes, data.
    cbn [fst snd] in H.
    repeat (split; [done|]).
    destruct (join_ids new_likes) as [ids| |]; cbn [lift] in H;
      injection H as <- <-; split; try done.
    now intros resp [= <-].
Qed.

(** The poll endpoint looks at no token: for a request that names a stored
    account by username it adds one task for that account to the [poll]
    queue and answers OK; when the account is not stored it answers 404,
    and with neither key nor username 400, adding no task. *)
Theorem poll_post_needs_no_token cls ds req :
  request_get req "key" = "" ->
  (forall source,
     request_get req "username" = source_id source -> source_id source <> "" ->
     source_by_id ds (source_id source) = Some source ->
     poll_post load_source key_urlsafe last_polled_str cls ds req
     = (Sent (output (JStr "OK")),
        [{| queue_name := "poll";
            task_params := [("source_key", key_urlsafe source);
                            ("last_polled", last_polled_str source)] |}])) /\
  (request_get req "username" <> "" ->
   source_by_id ds (request_get req "username") = None ->
   poll_post load_source key_urlsafe last_polled_str cls ds req
   = (Aborted 404 (Said (NoAccountFound (GR_NAME cls)
                           (JStr (request_get req "username")))), [])) /\
  (request_get req "username" = "" ->
   poll_post load_source key_urlsafe last_polled_str cls ds req
   = (Aborted 400 (Said NoKeyOrUsername), [])).
Proof.
  intros Hkey. unfold poll_post, auth. rewrite Hkey. cbn [String.eqb negb].
  split; [|split].
  - intros source Hu Hne Hs. rewrite Hu. apply String.eqb_neq in Hne.
    rewrite Hne. simpl. rewrite Hne. simpl. now rewrite Hs.
  - intros Hne Hs. apply String.eqb_neq in Hne. rewrite Hne. simpl.
    rewrite Hne. simpl. now rewrite Hs.
  - intros ->. reflexivity.
Qed.

End HandlerFacts.

Lemma token_domains_answer_witness :
  token_domains_post sample_request sample_datastore
  = (sample_datastore, Sent (output (JArr [JStr "example.com"]))).
Proof.
  destruct (token_domains_answer sample_is_public sample_object_urls
              sample_domain_from_link sample_load_source sample_request
              sample_datastore "tok") as (_ & _ & H & _); [reflexivity|].
  rewrite H. vm_compute. reflexivity.
Defined.

Lemma profile_post_checks_token_witness :
  profile_post sample_is_public sample_object_urls sample_domain_from_link
    private_profile no_actor sample_create_new instagram sample_request sample_datastore
  = (sample_datastore, Aborted 400 (Said (PrivateAccount "Instagram"))).
Proof.
  apply (profile_post_checks_token sample_is_public sample_object_urls
           sample_domain_from_link private_profile no_actor sample_create_new
           instagram sample_request sample_datastore [scraped_activity] private_actor);
    reflexivity.
Defined.

Lemma likes_post_checks_token_witness :
  likes_post sample_is_public sample_object_urls sample_domain_from_link
    sample_merge_reactions sample_parse_tag_uri instagram likes_request sample_datastore
  = (sample_datastore,
     Aborted 404 (NoPostForId "Instagram" "tag:instagram.com,2013:999")).
Proof.
  apply (likes_post_checks_token sample_is_public sample_object_urls
           sample_domain_from_link sample_merge_reactions sample_parse_tag_uri
           instagram likes_request sample_datastore "tag:instagram.com,2013:999").
  - reflexivity.
  - vm_compute. discriminate.
  - vm_compute. reflexivity.
Defined.

Lemma poll_post_needs_no_token_witness :
  poll_post sample_load_source source_id (fun _ => "1970-01-01-00-00-00")
    instagram sample_datastore poll_request
  = (Sent (output (JStr "OK")),
     [{| queue_name := "poll";
         task_params := [("source_key", "jc");
                         ("last_polled", "1970-01-01-00-00-00")] |}]).
Proof.
  apply (proj1 (poll_post_needs_no_token sample_load_source source_id
                  (fun _ => "1970-01-01-00-00-00") instagram sample_datastore
                  poll_request eq_refl) jc); reflexivity || discriminate.
Defined.

End EndpointFacts.

(** ** util.py and twitter.py: starting a sign-up *)

Module FlowFacts.
Import Py Json Web Util Flow TwitterFlow Samples MoreSamples PyFacts DictFacts JsonFacts
  StateClaims ReadFacts.

Lemma state_from_request_get req k :
  dict_get k (state_from_request req)
  = if String.eqb k "operation" then Some (JStr "add")
    else if bool_decide (k ∈ ["callback"; "feature"; "id"; "user_url"])
         then Some (JStr (request_get req k)) else None.
Proof.
  unfold state_from_request. rewrite dict_get_set.
  destruct (String.eqb k "operation"); [done|].
  cbn [map dict_get].
  destruct (String.eqb k "callback") eqn:E1;
    [apply String.eqb_eq in E1; subst k; reflexivity|].
  destruct (String.eqb k "feature") eqn:E2;
    [apply String.eqb_eq in E2; subst k; reflexivity|].
  destruct (String.eqb k "id") eqn:E3;
    [apply String.eqb_eq in E3; subst k; reflexivity|].
  destruct (String.eqb k "user_url") eqn:E4;
    [apply String.eqb_eq in E4; subst k; reflexivity|].
  rewrite bool_decide_eq_false_2; [done|].
  rewrite !elem_of_cons, elem_of_nil.
  intros [->|[->|[->|[->|[]]]]]; done.
Qed.

Lemma wf_state_from_request req : wf (JObj (state_from_request req)).
Proof.
  unfold state_from_request. apply wf_dict_set; [|done].
  apply wf_obj. split; [apply (bool_decide_unpack _); vm_compute; exact I|].
  repeat constructor.
Qed.

Section StateParam.

Variable json_render : list token -> string.
Variable json_lex : string -> option (list token).

(** The descriptor [construct_state_param_for_add] encodes. *)
Lemma constructed_state req state kwargs base :
  decode_state_parameter json_lex (default "" state) = Ok base ->
  construct_state_param_for_add json_render json_lex req state kwargs
  = Ok (encode_state_parameter json_render
          (JObj (dict_update
                   match base with
                   | Some (JObj (kv :: d)) => kv :: d
                   | _ => state_from_request req
                   end kwargs))).
Proof.
  intros Hb. unfold construct_state_param_for_add. rewrite Hb. simpl.
  now destruct kwargs.
Qed.

(** ... and what it decodes to. *)
Lemma constructed_state_decodes req state kwargs base :
  wf (JObj kwargs) ->
  decode_state_parameter json_lex (default "" state) = Ok base ->
  let start := match base with
               | Some (JObj (kv :: d)) => kv :: d
               | _ => state_from_request req
               end in
  let full := dict_update start kwargs in
  json_lex (encode_state_parameter json_render (JObj full))
    = Some (dumps (trim_nulls (JObj full))) ->
  encode_state_parameter json_render (JObj full) <> "" ->
  wf (JObj full) /\
  exists decoded,
    decode_state_parameter json_lex (encode_state_parameter json_render (JObj full))
    = Ok (Some (JObj decoded)) /\
    (forall k,
       dict_get k decoded
       = match match dict_get k kwargs with
               | Some v => Some v
               | None => dict_get k start
               end with
         | Some v => if is_null (trim_nulls v) then None else Some (canon (trim_nulls v))
         | None => None
         end).
Proof.
  intros Hkw Hb start full Hlex Hne.
  assert (Hstart : wf (JObj start)).
  { unfold start. destruct base as [[| | | | |[|kv d]]|];
      try apply wf_state_from_request.
    now apply decode_wf in Hb. }
  pose proof Hkw as Hkw'. apply wf_obj in Hkw' as [Hndk Hallk].
  assert (Hfull : wf (JObj full)) by now apply wf_dict_update.
  split; [done|].
  pose proof (decode_encode json_render json_lex full Hfull Hlex Hne) as Hdec.
  pose proof Hfull as Hf'. apply wf_obj in Hf' as [Hndf _].
  pose proof (fun k => canon_trim_get full k Hndf) as Hget.
  destruct (canon (trim_nulls (JObj full))) as [| | | | |decoded] eqn:E; try discriminate E.
  exists decoded. split; [done|].
  intros k. specialize (Hget k). cbn [obj_get] in Hget. rewrite Hget.
  unfold full. rewrite dict_get_update by done.
  now destruct (dict_get k kwargs).
Qed.

(** [construct_state_param_for_add]: the state it returns decodes to the
    keyword arguments over the state passed in, or, when that is absent,
    empty or no dict, over the request's [callback], [feature], [id] and
    [user_url] and the operation [add]; null and empty values left out. *)
Theorem constructed_state_fields req state kwargs base :
  wf (JObj kwargs) ->
  decode_state_parameter json_lex (default "" state) = Ok base ->
  let start := match base with
               | Some (JObj (kv :: d)) => kv :: d
               | _ => state_from_request req
               end in
  json_lex (encode_state_parameter json_render (JObj (dict_update start kwargs)))
    = Some (dumps (trim_nulls (JObj (dict_update start kwargs)))) ->
  encode_state_parameter json_render (JObj (dict_update start kwargs)) <> "" ->
  exists s decoded,
    construct_state_param_for_add json_render json_lex req state kwargs = Ok s /\
    decode_state_parameter json_lex s = Ok (Some (JObj decoded)) /\
    (forall k,
       dict_get k decoded
       = match match dict_get k kwargs with
               | Some v => Some v
               | None => dict_get k start
               end with
         | Some v => if is_null (trim_nulls v) then None else Some (canon (trim_nulls v))
         | None => None
         end) /\
    (forall k,
       dict_get k (state_from_request req)
       = if String.eqb k "operation" then Some (JStr "add")
         else if bool_decide (k ∈ ["callback"; "feature"; "id"; "user_url"])
              then Some (JStr (request_get req k)) else None).
Proof.
  intros Hkw Hb start Hlex Hne.
  destruct (constructed_state_decodes req state kwargs base Hkw Hb Hlex Hne)
    as (_ & decoded & Hdec & Hget).
  exists (encode_state_parameter json_render (JObj (dict_update start kwargs))), decoded.
  split; [now apply constructed_state|]. split; [done|]. split; [done|].
  apply state_from_request_get.
Qed.

End StateParam.

(** A sign-up request with no state, restarted for [publish]: the state
    decodes to the request's callback, the feature [publish] and the
    operation [add]. *)
Lemma constructed_state_fields_witness :
  exists s decoded,
    construct_state_param_for_add ascii_render ascii_lex signup_request None
      [("feature", JStr "publish")] = Ok s /\
    decode_state_parameter ascii_lex s = Ok (Some (JObj decoded)) /\
    dict_get "feature" decoded = Some (JStr "publish") /\
    dict_get "callback" decoded = Some (JStr "http://example.com/done") /\
    dict_get "id" decoded = None.
Proof.
  destruct (constructed_state_fields ascii_render ascii_lex signup_request None
              [("feature", JStr "publish")] (Some (JObj [])))
    as (s & decoded & Hs & Hdec & Hget & _).
  - wf_concrete.
  - reflexivity.
  - vm_compute. reflexivity.
  - vm_compute. discriminate.
  - exists s, decoded. split; [exact Hs|]. split; [exact Hdec|].
    rewrite !Hget. repeat split.
Defined.

Lemma list_remove_in x l : x ∈ l -> exists rest, list_remove x l = Some rest.
Proof.
  induction l as [|y l IH]; [intros H; now apply elem_of_nil in H|].
  cbn [list_remove]. destruct (String.eqb y x) eqn:E; [eauto|].
  rewrite elem_of_cons. intros [->|H]; [now rewrite String.eqb_refl in E|].
  destruct (IH H) as [rest ->]. eauto.
Qed.

Section TwitterFacts.

Variable FEATURES : list string.
Variable json_render : list token -> string.
Variable json_lex : string -> option (list token).
Variables auth_entity source accounts : Type.
Variable auth_key_urlsafe : auth_entity -> string.
Variables bridgy_path SHORT_NAME label_name bridgy_url key_urlsafe : source -> string.
Variable GR_CLASS_NAME : string.
Variable create_new :
  accounts -> list string -> auth_entity -> list string -> json ->
  accounts * list string * option source.
Variable get_by_urlsafe : accounts -> string -> option source.
Variable add_query_params : string -> list (string * string) -> string.
Variable features : source -> list string.
Variable put_with_features : accounts -> source -> list string -> accounts.

(** [AddTwitter.finish] after a sign-up for [listen] that returned an
    account with [publish]: the account is stored without (the first)
    [publish] and the flow starts again for [publish], with write access;
    and the flow so started does not start a third one, because the state
    it carries has the feature [publish], whatever state it was built
    over. *)
Theorem finish_restarts_once now w h auth state d w1 h1 src :
  "publish" ∈ FEATURES ->
  maybe_add_or_delete_source json_lex auth_key_urlsafe bridgy_path SHORT_NAME
    label_name bridgy_url key_urlsafe GR_CLASS_NAME create_new get_by_urlsafe
    add_query_params now w h auth state = Ok (w1, h1, Some src) ->
  decode_state_parameter json_lex state = Ok (Some (JObj d)) ->
  dict_get "feature" d = Some (JStr "listen") ->
  "publish" ∈ features src ->
  exists rest flow,
    list_remove "publish" (features src) = Some rest /\
    finish FEATURES json_lex auth_key_urlsafe bridgy_path SHORT_NAME label_name
      bridgy_url key_urlsafe GR_CLASS_NAME create_new get_by_urlsafe add_query_params
      features
      put_with_features now w h auth state
    = Ok ({| w_accounts := put_with_features (w_accounts w1) src rest;
             w_pages := w_pages w1 |}, h1, Some flow) /\
    flow = {| callback_path := "/twitter/add"; access_type := "write";
              starter_kwargs := [("feature", JStr "publish")] |} /\
    (forall req state0 base now' w' h' auth' w2 h2 added,
       decode_state_parameter json_lex (default "" state0) = Ok base ->
       let start := match base with
                    | Some (JObj (kv :: d0)) => kv :: d0
                    | _ => state_from_request req
                    end in
       let next := encode_state_parameter json_render
                     (JObj (dict_update start (starter_kwargs flow))) in
       json_lex next
         = Some (dumps (trim_nulls (JObj (dict_update start (starter_kwargs flow))))) ->
       next <> "" ->
       construct_state_param_for_add json_render json_lex req state0
         (starter_kwargs flow) = Ok next /\
       (maybe_add_or_delete_source json_lex auth_key_urlsafe bridgy_path SHORT_NAME
          label_name bridgy_url key_urlsafe GR_CLASS_NAME create_new get_by_urlsafe
          add_query_params now' w' h' auth' next = Ok (w2, h2, added) ->
        finish FEATURES json_lex auth_key_urlsafe bridgy_path SHORT_NAME label_name
          bridgy_url key_urlsafe GR_CLASS_NAME create_new get_by_urlsafe add_query_params
      features
          put_with_features now' w' h' auth' next
        = Ok (w2, h2, None))).
Proof.
  intros Hfeat Hadd Hdec Hf Hpub.
  destruct (list_remove_in _ _ Hpub) as [rest Hrest].
  assert (Hstart : start_oauth_flow FEATURES "publish"
            = Ok {| callback_path := "/twitter/add"; access_type := "write";
                    starter_kwargs := [("feature", JStr "publish")] |}).
  { unfold start_oauth_flow. cbn [String.eqb Ascii.eqb Bool.eqb split_on forallb].
    rewrite bool_decide_eq_true_2 by done. cbn [andb].
    rewrite bool_decide_eq_true_2 by apply list_elem_of_here. done. }
  exists rest, {| callback_path := "/twitter/add"; access_type := "write";
                  starter_kwargs := [("feature", JStr "publish")] |}.
  split; [done|]. split; [|split; [done|]].
  - unfold finish. rewrite Hadd. cbn [mbind result_bind]. rewrite Hdec.
    cbn [mbind result_bind py_get]. rewrite Hf. cbn [default].
    rewrite Hrest, Hstart. done.
  - intros req state0 base now' w' h' auth' w2 h2 added Hb start next Hlex Hne.
    cbn [starter_kwargs] in *.
    assert (Hkw : wf (JObj [("feature", JStr "publish")])).
    { apply wf_obj. split; [apply NoDup_singleton | repeat constructor]. }
    split; [now apply constructed_state|].
    destruct (constructed_state_decodes json_render json_lex req state0
                [("feature", JStr "publish")] base Hkw Hb Hlex Hne)
      as (_ & decoded & Hdec' & Hget).
    intros Hadd'. unfold finish. fold start in Hdec'. fold next in Hdec'.
    rewrite Hadd'. cbn [mbind result_bind]. rewrite Hdec'.
    cbn [mbind result_bind py_get]. rewrite (Hget "feature"). simpl.
    now destruct added.
Qed.

End TwitterFacts.

(** A sign-up for [listen] that finds an account with both features. *)
Lemma finish_restarts_once_witness :
  exists w h flow,
    finish ["listen"; "publish"] ascii_lex (fun _ : unit => "auth") sample_path
      (fun _ => "twitter") id sample_url id "Twitter" sample_create (fun _ _ => None)
      sample_add_query_params sample_features sample_put 0%Z sample_world
      fresh_handler (Some tt) listen_state
    = Ok (w, h, Some flow) /\
    w_accounts w = ["snarfed"] /\
    access_type flow = "write".
Proof.
  assert (exists h1,
            maybe_add_or_delete_source ascii_lex (fun _ : unit => "auth") sample_path
              (fun _ => "twitter") id sample_url id "Twitter" sample_create
              (fun _ _ => None) sample_add_query_params 0%Z sample_world
              fresh_handler (Some tt) listen_state
            = Ok ({| w_accounts := []; w_pages := invalidate "/users" ∅ |}, h1,
                  Some "snarfed")) as [h1 Hadd].
  { eexists. vm_compute. reflexivity. }
  destruct (finish_restarts_once ["listen"; "publish"] ascii_render ascii_lex
              unit string (list string) (fun _ => "auth") sample_path
              (fun _ => "twitter") id sample_url id "Twitter" sample_create
              (fun _ _ => None) sample_add_query_params sample_features sample_put
              0%Z sample_world fresh_handler (Some tt) listen_state
              [("feature", JStr "listen"); ("operation", JStr "add")]
              {| w_accounts := []; w_pages := invalidate "/users" ∅ |} h1 "snarfed")
    as (rest & flow & Hrest & Hfin & Hflow & _).
  - apply list_elem_of_further, list_elem_of_here.
  - exact Hadd.
  - vm_compute. reflexivity.
  - reflexivity.
  - apply list_elem_of_further, list_elem_of_here.
  - eexists _, h1, flow. split; [exact Hfin|]. rewrite Hflow.
    split; reflexivity.
Defined.

End FlowFacts.

(** ** util.py: redirects and the end of a sign-up *)

Module LifecycleExtras.
Import Py Json Web Util Flow Samples MoreSamples PyFacts SortFacts LoginFacts.

(** The cookie that [set_logins] writes for plain logins reads back as
    the same logins, each once. *)
Lemma plain_cookie_reads_back t logins :
  Forall plain_login logins ->
  exists out,
    get_logins (cookie_sent_back (set_logins t logins)) = Ok out /\
    out ≡ₚ remove_dups logins.
Proof.
  intros Hall.
  assert (Hinj : forall x y, x ∈ remove_dups logins -> y ∈ remove_dups logins ->
                   login_entry x = login_entry y -> x = y).
  { rewrite Forall_forall in Hall. intros x y Hx Hy.
    rewrite elem_of_remove_dups in Hx, Hy. apply login_entry_inj; now apply Hall. }
  assert (Hperm : sort_strings (remove_dups (map login_entry logins))
                  ≡ₚ map login_entry (remove_dups logins)).
  { rewrite sort_strings_perm. apply NoDup_Permutation.
    - apply NoDup_remove_dups.
    - apply NoDup_fmap_2_strong; [exact Hinj | apply NoDup_remove_dups].
    - intros e. rewrite elem_of_remove_dups, !list_elem_of_fmap.
      split; intros (x & -> & Hx); exists x; (split; [done|]);
        rewrite elem_of_remove_dups in *; exact Hx. }
  apply Permutation_map_inv in Hperm as (L & HL & HpL).
  assert (HallL : Forall plain_login L).
  { rewrite Forall_forall in Hall |- *. intros x Hx. apply Hall.
    rewrite <- HpL, elem_of_remove_dups in Hx. exact Hx. }
  assert (HndL : NoDup L) by (rewrite <- HpL; apply NoDup_remove_dups).
  exists L. split; [|now symmetry].
  unfold cookie_sent_back, set_logins, get_logins, logins_value. cbn [cookie_value].
  rewrite HL. destruct L as [|l L]; [reflexivity|].
  rewrite (logins_value_not_empty l L) by (now apply Forall_inv in HallL).
  rewrite unquote_logins_value by done.
  change "|" with (String "|"%char "") at 1.
  rewrite split_on_concat.
  - rewrite remove_dups_NoDup; [now apply parse_logins_texts|].
    apply NoDup_fmap_2_strong; [|done].
    rewrite Forall_forall in HallL. intros x y Hx Hy.
    apply login_text_inj; now apply HallL.
  - done.
  - apply Forall_fmap. eapply Forall_impl; [exact HallL|].
    intros x Hx. now apply login_text_no_bar.
Qed.

Lemma unquote_quote_one c r :
  unquote (quote (String c r)) = String c (unquote (quote r)).
Proof.
  destruct c as [[] [] [] [] [] [] [] []]; reflexivity.
Qed.

Lemma unquote_quote s : unquote (quote s) = s.
Proof. induction s as [|c s IH]; [done|]. now rewrite unquote_quote_one, IH. Qed.

Lemma quote_chars s : all_chars fragment_char (quote s) = true.
Proof.
  induction s as [|c s IH]; [done|]. cbn [quote].
  destruct (always_safe c || Ascii.eqb c "/")%bool eqn:E.
  - cbn [all_chars]. rewrite IH. unfold fragment_char. now rewrite E.
  - cbn [all_chars]. rewrite IH.
    assert (forall n, (n < 16)%N -> fragment_char (hex_digit n) = true) as Hhex.
    { intros n Hn.
      assert (n ∈ [0;1;2;3;4;5;6;7;8;9;10;11;12;13;14;15]%N) as Hin.
      { rewrite !elem_of_cons. lia. }
      rewrite !elem_of_cons, elem_of_nil in Hin.
      repeat destruct Hin as [->|Hin]; try reflexivity. done. }
    rewrite !Hhex; [done | | ].
    + apply N.mod_lt. done.
    + apply N.Div0.div_lt_upper_bound.
      pose proof (N_ascii_bounded c) as Hb. simpl. lia.
Qed.

(** [redirect] sets the location only. *)
Lemma redirect_keeps uri h :
  messages (redirect uri h) = messages h /\
  set_cookie (redirect uri h) = set_cookie h.
Proof.
  unfold redirect. destruct h as [ms rl loc ck]. cbn [messages].
  destruct ms; [done|]. now destruct (String.eqb (url_fragment uri) "").
Qed.

(** [Handler.redirect]: with messages and a URL that has no fragment,
    the messages go into the fragment after [!], spelled with unreserved
    characters, [/] and [%] only, and unquoting the fragment gives the
    messages back, joined by newlines; with no message, or a URL that has
    a fragment, the URL is left as it is.  The handler's messages and
    cookies stay. *)
Theorem redirect_carries_messages uri h :
  (messages h <> [] -> url_fragment uri = "" ->
   location (redirect uri h)
   = Some (url_defrag uri ++ "#!" ++ quote (String.concat newline (messages h)))%string /\
   all_chars fragment_char (quote (String.concat newline (messages h))) = true /\
   unquote (quote (String.concat newline (messages h)))
   = String.concat newline (messages h)) /\
  (messages h = [] \/ url_fragment uri <> "" -> location (redirect uri h) = Some uri) /\
  messages (redirect uri h) = messages h /\
  set_cookie (redirect uri h) = set_cookie h /\
  request_logins (redirect uri h) = request_logins h.
Proof.
  unfold redirect. split; [|split].
  - intros Hm Hf. destruct (messages h) as [|m ms] eqn:E; [done|].
    rewrite Hf. cbn [String.eqb with_location location].
    split; [done|]. split; [apply quote_chars | apply unquote_quote].
  - intros [Hm|Hf].
    + by rewrite Hm.
    + destruct (messages h); [done|]. apply String.eqb_neq in Hf. by rewrite Hf.
  - destruct h as [ms rl loc ck]. cbn [messages].
    destruct ms; [done|]. now destruct (String.eqb (url_fragment uri) "").
Qed.

Section SignUp.

Variable json_lex : string -> option (list token).
Variables auth_entity source accounts : Type.
Variable auth_key_urlsafe : auth_entity -> string.
Variables bridgy_path SHORT_NAME label_name bridgy_url key_urlsafe : source -> string.
Variable GR_CLASS_NAME : string.
Variable create_new :
  accounts -> list string -> auth_entity -> list string -> json ->
  accounts * list string * option source.
Variable get_by_urlsafe : accounts -> string -> option source.
Variable add_query_params : string -> list (string * string) -> string.

(** An [add] with an auth entity for which [create_new] returns the
    account: the cached [/users] page is invalidated, the accounts and the
    messages are as [create_new] leaves them, the account is returned, the
    logins cookie is set to the request's logins and the new one, and the
    redirect goes to the callback with [result=success], the account's URL
    and its key, or without a callback to the account's page; and when
    those logins are plain, the new cookie reads back as exactly them. *)
Theorem added_source_is_signed_in now w h auth state d feats accts msgs src logins :
  decode_state_parameter json_lex state = Ok (Some (JObj d)) ->
  default (JStr "add") (dict_get "operation" d) = JStr "add" ->
  feature_list (default JNull (dict_get "feature" d)) = Ok feats ->
  create_new (w_accounts w) (messages h) auth feats (default JNull (dict_get "user_url" d))
  = (accts, msgs, Some src) ->
  get_logins (request_logins h) = Ok logins ->
  (truthy (default JNull (dict_get "callback" d)) = true ->
   exists c, dict_get "callback" d = Some (JStr c)) ->
  let login := {| site := SHORT_NAME src; name := label_name src;
                  path := bridgy_path src |} in
  exists h',
    maybe_add_or_delete_source json_lex auth_key_urlsafe bridgy_path SHORT_NAME
      label_name bridgy_url key_urlsafe GR_CLASS_NAME create_new get_by_urlsafe
      add_query_params now w h (Some auth) state
    = Ok ({| w_accounts := accts; w_pages := invalidate "/users" (w_pages w) |},
          h', Some src) /\
    messages h' = msgs /\
    set_cookie h' = Some (set_logins now (logins ++ [login])) /\
    (forall c, dict_get "callback" d = Some (JStr c) -> c <> "" ->
       location h' = Some (add_query_params c [("result", "success");
                                               ("user", bridgy_url src);
                                               ("key", key_urlsafe src)])) /\
    (truthy (default JNull (dict_get "callback" d)) = false ->
     location h'
     = Some match msgs with
            | [] => bridgy_url src
            | _ :: _ =>
                if String.eqb (url_fragment (bridgy_url src)) "" then
                  (url_defrag (bridgy_url src) ++ "#!"
                   ++ quote (String.concat newline msgs))%string
                else bridgy_url src
            end) /\
    (Forall plain_login (logins ++ [login]) ->
     exists out,
       get_logins (cookie_sent_back (set_logins now (logins ++ [login]))) = Ok out /\
       out ≡ₚ remove_dups (logins ++ [login])).
Proof.
  intros Hdec Hop Hfeat Hnew Hlog Hcb login.
  unfold maybe_add_or_delete_source. rewrite Hdec. cbn [mbind result_bind py_get].
  rewrite Hop, Hfeat. cbn [mbind result_bind]. rewrite Hnew.
  cbn [request_logins]. rewrite Hlog. cbn [mbind result_bind]. fold login.
  destruct (truthy (default JNull (dict_get "callback" d))) eqn:Ht.
  - destruct (Hcb eq_refl) as (c & Hc). rewrite Hc in Ht |- *. cbn [default callback_url].
    cbn [mbind result_bind]. eexists. split; [reflexivity|].
    cbn [super_redirect with_location with_set_cookie messages set_cookie location].
    split; [done|]. split; [done|]. split; [|split].
    + now intros c' [= <-] _.
    + done.
    + apply plain_cookie_reads_back.
  - eexists. split; [reflexivity|].
    split; [|split; [|split; [|split]]].
    + unfold redirect. cbn [with_set_cookie messages].
      destruct msgs; [done|]. now destruct (String.eqb _ "").
    + unfold redirect. cbn [with_set_cookie messages].
      destruct msgs; [done|]. now destruct (String.eqb _ "").
    + intros c Hc Hne. rewrite Hc in Ht. simpl in Ht.
      apply negb_false_iff, String.eqb_eq in Ht. done.
    + intros _. unfold redirect. cbn [with_set_cookie messages].
      destruct msgs; [done|]. now destruct (String.eqb _ "").
    + apply plain_cookie_reads_back.
Qed.

(** A state whose operation is not [add] deletes nothing here: the
    datastore and the cookies stay, no account is returned, and the
    request is redirected, with an auth entity to [/delete/finish] with
    the entity's key and the state, without one to the home page, or to
    the page of the account the state names after its first [-], with the
    message to approve the prompt added to the handler's messages. *)
Theorem delete_only_redirects now w h auth state d :
  decode_state_parameter json_lex state = Ok (Some (JObj d)) ->
  default (JStr "add") (dict_get "operation" d) <> JStr "add" ->
  exists h',
    maybe_add_or_delete_source json_lex auth_key_urlsafe bridgy_path SHORT_NAME
      label_name bridgy_url key_urlsafe GR_CLASS_NAME create_new get_by_urlsafe
      add_query_params now w h auth state
    = Ok (w, h', None) /\
    set_cookie h' = set_cookie h /\
    match auth with
    | Some a =>
        h' = redirect ("/delete/finish?auth_entity=" ++ auth_key_urlsafe a
                       ++ "&state=" ++ state) h
    | None =>
        let msg := ("If you want to disable, please approve the " ++ GR_CLASS_NAME
                    ++ " prompt.")%string in
        msg ∈ messages h' /\
        (forall m, m ∈ messages h -> m ∈ messages h') /\
        exists target,
          h' = redirect target (add_message msg h) /\
          (target = "/" \/
           exists key src,
             after_dash state = Some key /\
             get_by_urlsafe (w_accounts w) key = Some src /\
             target = bridgy_url src)
    end.
Proof.
  intros Hdec Hop.
  unfold maybe_add_or_delete_source. rewrite Hdec. cbn [mbind result_bind py_get].
  set (op := default (JStr "add") (dict_get "operation" d)) in *.
  assert (Hbranch : forall (A : Type) (x y : A),
            match op with
            | JStr "add" => x
            | _ => y
            end = y).
  { intros A x y. destruct op as [| | |s| |]; try done.
    repeat (destruct s as [|[[] [] [] [] [] [] [] []] s]; try done). }
  rewrite Hbranch. destruct auth as [a|].
  - eexists. split; [reflexivity|]. split; [|done]. apply redirect_keeps.
  - eexists. split; [reflexivity|].
    set (msg := ("If you want to disable, please approve the " ++ GR_CLASS_NAME
                 ++ " prompt.")%string).
    unfold redirect_home_or_user_page.
    destruct (redirect_keeps
                match after_dash state with
                | Some key => match get_by_urlsafe (w_accounts w) key with
                              | Some src => bridgy_url src
                              | None => "/"
                              end
                | None => "/"
                end (add_message msg h)) as (Hm & Hck).
    rewrite Hm, Hck. unfold add_message at 1 2 3. cbn [messages set_cookie].
    split; [done|]. split; [|split].
    + destruct (bool_decide (msg ∈ messages h)) eqn:E.
      * now apply bool_decide_eq_true in E.
      * apply elem_of_app. right. apply list_elem_of_here.
    + intros m Hin. destruct (bool_decide (msg ∈ messages h)); [done|].
      apply elem_of_app. now left.
    + eexists. split; [reflexivity|].
      destruct (after_dash state) as [key|]; [|now left].
      destruct (get_by_urlsafe (w_accounts w) key) as [src|] eqn:Eg; [|now left].
      right. now exists key, src.
Qed.

End SignUp.

(** A sign-up for [listen] without a callback, by a visitor with no
    logins cookie. *)
Lemma added_source_is_signed_in_witness :
  exists h',
    maybe_add_or_delete_source ascii_lex (fun _ : unit => "auth") sample_path
      (fun _ => "twitter") id sample_url id "Twitter" sample_create (fun _ _ => None)
      sample_add_query_params 0%Z sample_world fresh_handler (Some tt) listen_state
    = Ok ({| w_accounts := []; w_pages := invalidate "/users" ∅ |}, h', Some "snarfed") /\
    location h' = Some "https://brid.gy/twitter/snarfed" /\
    set_cookie h'
    = Some (set_logins 0%Z [{| site := "twitter"; name := "snarfed";
                               path := "/twitter/snarfed" |}]).
Proof.
  destruct (added_source_is_signed_in ascii_lex unit string (list string)
              (fun _ => "auth") sample_path (fun _ => "twitter") id sample_url id
              "Twitter" sample_create (fun _ _ => None) sample_add_query_params
              0%Z sample_world fresh_handler tt listen_state
              [("feature", JStr "listen"); ("operation", JStr "add")]
              ["listen"] [] [] "snarfed" [])
    as (h' & Hrun & _ & Hck & _ & Hloc & _).
  - vm_compute. reflexivity.
  - reflexivity.
  - reflexivity.
  - reflexivity.
  - reflexivity.
  - intros H. discriminate H.
  - exists h'. split; [exact Hrun|]. split; [now apply Hloc | exact Hck].
Defined.

(** A sign-up flow for deleting, approved. *)
Lemma delete_only_redirects_witness :
  exists h',
    maybe_add_or_delete_source ascii_lex (fun _ : unit => "auth") sample_path
      (fun _ => "twitter") id sample_url id "Twitter" sample_create (fun _ _ => None)
      sample_add_query_params 0%Z sample_world fresh_handler (Some tt) delete_state
    = Ok (sample_world, h', None) /\
    set_cookie h' = None /\
    location h' = Some ("/delete/finish?auth_entity=auth&state=" ++ delete_state)%string.
Proof.
  destruct (delete_only_redirects ascii_lex unit string (list string)
              (fun _ => "auth") sample_path (fun _ => "twitter") id sample_url id
              "Twitter" sample_create (fun _ _ => None) sample_add_query_params
              0%Z sample_world fresh_handler (Some tt) delete_state
              [("feature", JStr "listen"); ("operation", JStr "delete")])
    as (h' & Hrun & Hck & Hh).
  - vm_compute. reflexivity.
  - discriminate.
  - exists h'. split; [exact Hrun|]. split; [exact Hck|]. now rewrite Hh.
Defined.

End LifecycleExtras.
